(** * OT-Simulation: the EPANET / Modbus bridge of [epanet.py]

    A shallow embedding of [src/epanet/app/epanet.py].  The script talks to
    two collaborators it does not implement, the pymodbus client and the epyt
    hydraulic engine, and to the clock.  Every call to them is a constructor
    of [call]; an environment answers each call with a value, an [Exception]
    or a [KeyboardInterrupt].  The script's functions are written in a small
    monad that threads the environment, records every call with its answer in
    a trace, and propagates Python exceptions ([sys.exit] included). *)

From Stdlib Require Import ZArith List String Ascii Bool Lia Floats DecimalString.
Import ListNotations.
Open Scope string_scope.
Open Scope list_scope.
Open Scope Z_scope.

Set Implicit Arguments.

(** ** Python values and exceptions *)

(** What a [raise] carries.  [PyException] stands for every subclass of
    [Exception] and keeps its [str()]; [KeyboardInterrupt] and [SystemExit]
    derive from [BaseException] only, so [except Exception] lets them pass. *)
Inductive exn : Type :=
| PyException (msg : string)
| KeyboardInterrupt
| SystemExit (code : Z).

(** [client.DATATYPE]: the script only ever names [FLOAT32]. *)
Inductive DATATYPE : Type := FLOAT32.

(** Registers a value of the data type occupies (pymodbus: FLOAT32 = ("f", 2)). *)
Definition register_count (d : DATATYPE) : nat :=
  match d with FLOAT32 => 2%nat end.

(** ** Calls to the collaborators *)

Inductive call : Type -> Type :=
(* pymodbus.client.ModbusTcpClient *)
| ModbusTcpClient (host : string) (port : Z) : call unit
| connect : call bool
| close : call unit
| read_coils (address count : Z) : call (list bool)
| read_holding_registers (address count : Z) : call (list Z)
| convert_to_registers (value : float) (data_type : DATATYPE) : call (list Z)
| write_registers (address : Z) (values : list Z) : call unit
(* epyt.epanet *)
| epanet (network_file : string) : call unit
| setTimeSimulationDuration (duration : Z) : call unit
| setTimeHydraulicStep (step : Z) : call unit
| getTimeSimulationDuration : call Z
| getTimeHydraulicStep : call Z
| getNodeJunctionCount : call Z
| getNodeReservoirCount : call Z
| getNodeTankCount : call Z
| getLinkPipeCount : call Z
| getLinkPumpCount : call Z
| getLinkValveCount : call Z
| getNodeJunctionIndex : call (list Z)
| getNodeTankIndex : call (list Z)
| getLinkPipeIndex : call (list Z)
| getLinkPumpIndex : call (list Z)
| setLinkStatus (index : Z) (status : Z) : call unit
| setLinkSettings (index : Z) (setting : float) : call unit
| getNodePressure (index : Z) : call float
| getNodeHydraulicHead (index : Z) : call float
| getLinkFlows (index : Z) : call float
| openHydraulicAnalysis : call unit
| initializeHydraulicAnalysis : call unit
| runHydraulicAnalysis : call unit
| nextHydraulicAnalysisStep : call unit
| closeHydraulicAnalysis : call unit
| unload : call unit
(* time *)
| sleep (secs : Z) : call unit.

(** How a call ends: it returns, it raises some [Exception], or the user's
    interrupt is delivered while it runs.  A library call that ends the
    process by itself (a [sys.exit] inside the collaborator) is not among
    them: what is proved of a run is proved of runs whose calls end in one of
    these three ways. *)
Inductive reply (A : Type) : Type :=
| Returns (a : A)
| Fails (msg : string)
| Interrupted.
Arguments Fails {A} msg.
Arguments Interrupted {A}.

(** What an observer of the process sees, in order. *)
Inductive event : Type :=
| Call {A : Type} (c : call A) (r : reply A)
| Printed (line : string).

Definition trace := list event.

(** ** The monad *)

(** Names of [main]'s frame that the [finally] block tests with
    ['client' in locals()] and ['en' in locals()]. *)
Record locals : Type := { client : bool; en : bool }.

Definition no_locals : locals := {| client := false; en := false |}.

(** [Pending]: the loop bound of the model ran out; the script is still
    running and has not produced anything yet. *)
Inductive result (A : Type) : Type :=
| Ok (a : A)
| Raise (e : exn)
| Pending.
Arguments Raise {A} e.
Arguments Pending {A}.

Definition raised (A : Type) (r : reply A) : result A :=
  match r with
  | Returns a => Ok a
  | Fails msg => Raise (PyException msg)
  | Interrupted => Raise KeyboardInterrupt
  end.

Section Script.

(** The collaborators: a state and the answer to every call. *)
Variable W : Type.
Variable env : forall A : Type, call A -> W -> W * reply A.

Definition M (A : Type) : Type := locals * W -> (locals * W) * trace * result A.

Definition ret (A : Type) (a : A) : M A := fun s => (s, [], Ok a).

Definition bind (A B : Type) (m : M A) (f : A -> M B) : M B :=
  fun s =>
    let '(s1, t1, r1) := m s in
    match r1 with
    | Ok a => let '(s2, t2, r2) := f a s1 in (s2, t1 ++ t2, r2)
    | Raise e => (s1, t1, Raise e)
    | Pending => (s1, t1, Pending)
    end.

Definition raise (A : Type) (e : exn) : M A := fun s => (s, [], Raise e).

Definition pending (A : Type) : M A := fun s => (s, [], Pending).

Definition perform (A : Type) (c : call A) : M A :=
  fun s =>
    let (w', r) := env c (snd s) in
    ((fst s, w'), [Call c r], raised r).

Definition print (line : string) : M unit := fun s => (s, [Printed line], Ok tt).

Definition sys_exit (A : Type) (code : Z) : M A := raise A (SystemExit code).

(** [try: m  except Exception as e: h (str e)] *)
Definition except_Exception (A : Type) (m : M A) (h : string -> M A) : M A :=
  fun s =>
    let '(s1, t1, r1) := m s in
    match r1 with
    | Raise (PyException msg) => let '(s2, t2, r2) := h msg s1 in (s2, t1 ++ t2, r2)
    | _ => (s1, t1, r1)
    end.

(** [try: m  except KeyboardInterrupt: hk  except Exception as e: he (str e)
    finally: fin].  A handler's own exception is not offered to its sibling;
    the [finally] block runs however the rest ended, and an exception of its
    own replaces the one in flight. *)
Definition try_except_finally (A : Type)
    (m : M A) (hk : M A) (he : string -> M A) (fin : M unit) : M A :=
  fun s =>
    let '(s1, t1, r1) := m s in
    let '(s2, t2, r2) :=
      match r1 with
      | Raise KeyboardInterrupt => hk s1
      | Raise (PyException msg) => he msg s1
      | _ => (s1, [], r1)
      end in
    match r2 with
    | Pending => (s2, t1 ++ t2, Pending)
    | _ =>
      let '(s3, t3, r3) := fin s2 in
      (s3, t1 ++ t2 ++ t3,
       match r3 with
       | Ok _ => r2
       | Raise e => Raise e
       | Pending => Pending
       end)
    end.

(** A call of [main] starts with an empty frame; [name = value] binds. *)
Definition new_frame : M unit := fun s => ((no_locals, snd s), [], Ok tt).

Definition assign_client : M unit :=
  fun s => (({| client := true; en := en (fst s) |}, snd s), [], Ok tt).

Definition assign_en : M unit :=
  fun s => (({| client := client (fst s); en := true |}, snd s), [], Ok tt).

Definition get_locals : M locals := fun s => (s, [], Ok (fst s)).

End Script.

Arguments ret {W A} a.
Arguments raise {W A} e.
Arguments pending {W A}.
Arguments sys_exit {W A} code.
Arguments print {W} line.
Arguments get_locals {W}.
Arguments new_frame {W}.
Arguments assign_client {W}.
Arguments assign_en {W}.

Declare Scope script_scope.
Delimit Scope script_scope with script.
Notation "x <- m ;; k" := (bind m (fun x => k))
  (at level 61, m at next level, right associativity) : script_scope.
Notation "m ;; k" := (bind m (fun _ => k))
  (at level 61, right associativity) : script_scope.
Open Scope script_scope.

(** ** Python built-ins the script uses *)

Definition endswith (s suffix : string) : bool :=
  let n := String.length s in
  let k := String.length suffix in
  (k <=? n)%nat && String.eqb (substring (n - k) k s) suffix.

(** [str(n)] for an integer. *)
Definition str (n : Z) : string := NilZero.string_of_int (Z.to_int n).

(** ["-" * 32] and the like. *)
Fixpoint repeat_string (s : string) (n : nat) : string :=
  match n with
  | O => ""
  | S n' => String.append s (repeat_string s n')
  end.

(** [float(i)] for an integer: the nearest binary64 value (exact below 2^53;
    the registers it is applied to are 16 bits wide). *)
Definition float_of_int (i : Z) : float :=
  SF2Prim (binary_normalize prec emax i 0 false).

(** [enumerate(xs)] *)
Definition enumerate (A : Type) (xs : list A) : list (Z * A) :=
  combine (map Z.of_nat (seq 0 (List.length xs))) xs.

(** [zip(xs, ys)] stops at the shorter argument. *)
Definition zip (A B : Type) (xs : list A) (ys : list B) : list (A * B) :=
  combine xs ys.

(** The dictionaries the script passes around, with their fixed keys. *)
Record controls : Type :=
  { pipe_statuses : list Z;
    pump_settings : list float }.

Record data : Type :=
  { junction_pressures : list float;
    tank_heads : list float;
    pump_flows : list float }.

(** ** The script *)

Section Bridge.

Variable W : Type.
Variable env : forall A : Type, call A -> W -> W * reply A.

Local Abbreviation M := (M W).

(** [for x in xs: body x] *)
Fixpoint for_each (A : Type) (body : A -> M unit) (xs : list A) : M unit :=
  match xs with
  | [] => ret tt
  | x :: xs' => body x ;; for_each body xs'
  end.

(** [[f x for x in xs]] where [f] calls a collaborator. *)
Fixpoint comprehension (A B : Type) (f : A -> M B) (xs : list A) : M (list B) :=
  match xs with
  | [] => ret []
  | x :: xs' => y <- f x ;; ys <- comprehension f xs' ;; ret (y :: ys)
  end.

Definition print_overview : M unit :=
  except_Exception
    (print "Network Overview:" ;;
     print (repeat_string "-" 32) ;;
     n <- perform env getNodeJunctionCount ;; print (String.append " junctions : " (str n)) ;;
     n <- perform env getNodeReservoirCount ;; print (String.append "reservoirs : " (str n)) ;;
     n <- perform env getNodeTankCount ;; print (String.append "     tanks : " (str n)) ;;
     n <- perform env getLinkPipeCount ;; print (String.append "     pipes : " (str n)) ;;
     n <- perform env getLinkPumpCount ;; print (String.append "     pumps : " (str n)) ;;
     n <- perform env getLinkValveCount ;; print (String.append "    valves : " (str n)))
    (fun e =>
       print (String.append
                "Failed to print overview of total number nodes and links in EPANET network: " e) ;;
       sys_exit 1).

(** [sys.argv] is the argument; [sys.argv[0]] on an empty list is an
    [IndexError]. *)
Definition parse_arguments (argv : list string) : M string :=
  if negb (List.length argv =? 2)%nat || negb (endswith (nth 1 argv "") ".inp") then
    print "Run EPANET simulation with Modbus controls." ;;
    match argv with
    | [] => raise (PyException "list index out of range")
    | argv0 :: _ =>
      print (String.append ">>> python " (String.append argv0 " [network.inp]")) ;;
      sys_exit 1
    end
  else ret (nth 1 argv "").

(** [while not client.connect(): time.sleep(1)], at most [fuel] attempts. *)
Fixpoint connect_loop (fuel : nat) : M unit :=
  match fuel with
  | O => pending
  | S fuel' =>
    connected <- perform env connect ;;
    if connected then ret tt
    else perform env (sleep 1) ;; connect_loop fuel'
  end.

Definition setup_client (fuel : nat) : M unit :=
  except_Exception
    (perform env (ModbusTcpClient "openplc" 502) ;;
     connect_loop fuel)
    (fun e =>
       print (String.append "Failed to setup and establish a Modbus TCP client connection: " e) ;;
       sys_exit 1).

Definition setup_epanet (network_file : string) : M unit :=
  except_Exception
    (perform env (epanet network_file) ;;
     perform env (setTimeSimulationDuration 10) ;;
     perform env (setTimeHydraulicStep 1))
    (fun e =>
       print (String.append "Failed to setup EPANET with specified network (.inp) file: " e) ;;
       sys_exit 1).

Definition get_controls : M controls :=
  except_Exception
    (bits <- perform env (read_coils 0 100) ;;
     registers <- perform env (read_holding_registers 0 100) ;;
     ret {| pipe_statuses := map (fun i => Z.lxor (Z.b2z i) 1) bits;
            pump_settings := map (fun i => (float_of_int i / 100)%float) registers |})
    (fun e =>
       print (String.append "Failed to get controls from OpenPLC: " e) ;;
       sys_exit 1).

Definition set_controls (c : controls) : M unit :=
  except_Exception
    (pipes <- perform env getLinkPipeIndex ;;
     for_each (fun '(i, status) => perform env (setLinkStatus i status))
              (zip pipes (pipe_statuses c)) ;;
     pumps <- perform env getLinkPumpIndex ;;
     for_each (fun '(i, setting) => perform env (setLinkSettings i setting))
              (zip pumps (pump_settings c)))
    (fun e =>
       print (String.append "Failed to set OpenPLC controls to EPANET network: " e) ;;
       sys_exit 1).

Definition read_data : M data :=
  except_Exception
    (junctions <- perform env getNodeJunctionIndex ;;
     pressures <- comprehension (fun i => perform env (getNodePressure i)) junctions ;;
     tanks <- perform env getNodeTankIndex ;;
     heads <- comprehension (fun i => perform env (getNodeHydraulicHead i)) tanks ;;
     pumps <- perform env getLinkPumpIndex ;;
     flows <- comprehension (fun i => perform env (getLinkFlows i)) pumps ;;
     ret {| junction_pressures := pressures; tank_heads := heads; pump_flows := flows |})
    (fun e =>
       print (String.append "Failed to read data from EPANET network: " e) ;;
       sys_exit 1).

(** One of the three loops of [write_data]:
    [for i, value in enumerate(values): write_registers(base + i * 2, convert(value))]. *)
Definition write_block (base : Z) (values : list float) : M unit :=
  for_each
    (fun '(i, value) =>
       registers <- perform env (convert_to_registers value FLOAT32) ;;
       perform env (write_registers (base + i * 2) registers))
    (enumerate values).

Definition write_data (d : data) : M unit :=
  except_Exception
    (write_block 100 (junction_pressures d) ;;
     write_block 200 (tank_heads d) ;;
     write_block 300 (pump_flows d))
    (fun e =>
       print (String.append "Failed to write EPANET network data to OpenPLC: " e) ;;
       sys_exit 1).

(** The body of [while True:] in [main]. *)
Definition cycle : M unit :=
  duration <- perform env getTimeSimulationDuration ;;
  step <- perform env getTimeHydraulicStep ;;
  perform env (setTimeSimulationDuration (duration + step)) ;;
  c <- get_controls ;;
  set_controls c ;;
  perform env runHydraulicAnalysis ;;
  d <- read_data ;;
  write_data d ;;
  perform env nextHydraulicAnalysisStep ;;
  perform env (sleep 1).

(** [while True: cycle], at most [fuel] cycles. *)
Fixpoint run_forever (fuel : nat) : M unit :=
  match fuel with
  | O => pending
  | S fuel' => cycle ;; run_forever fuel'
  end.

(** The [try] block of [main]. *)
Definition main_try (fuel : nat) (network_file : string) : M unit :=
  setup_client fuel ;;
  assign_client ;;
  setup_epanet network_file ;;
  assign_en ;;
  print_overview ;;
  perform env openHydraulicAnalysis ;;
  perform env initializeHydraulicAnalysis ;;
  run_forever fuel.

(** The [finally] block of [main]. *)
Definition main_finally : M unit :=
  l <- get_locals ;;
  (if client l then perform env close else ret tt) ;;
  (if en l then perform env closeHydraulicAnalysis ;; perform env unload else ret tt).

Definition main (fuel : nat) (argv : list string) : M unit :=
  new_frame ;;
  network_file <- parse_arguments argv ;;
  try_except_finally
    (main_try fuel network_file)
    (print ">--- Program interrupted by user ---" ;; sys_exit 0)
    (fun e =>
       print (String.append "Failed to run EPANET simulation due to an unexpected error: " e) ;;
       sys_exit 1)
    main_finally.

End Bridge.

(** What the operating system sees of a finished run: the argument of
    [sys.exit], or the interpreter's status for an exception nobody caught
    (1 after the traceback; an uncaught [KeyboardInterrupt] ends the process
    through SIGINT, status 130 to a shell).  [None] while still running. *)
Definition exit_status (r : result unit) : option Z :=
  match r with
  | Ok _ => Some 0
  | Raise (SystemExit code) => Some code
  | Raise (PyException _) => Some 1
  | Raise KeyboardInterrupt => Some 130
  | Pending => None
  end.

(** ** A test rig

    A configurable stand-in for the two collaborators, used to run the script
    on concrete inputs: an endpoint that refuses a number of connection
    attempts, serves fixed coil and register blocks and packs floats the way
    [struct.pack(">f")] does, and an engine with fixed index lists.  Any call
    can be made to fail or to be interrupted. *)

Inductive mishap : Type :=
| Crash (msg : string)
| CtrlC.

Record rig : Type :=
  { refusals : nat;
    coil_block : list bool;
    register_block : list Z;
    junction_index : list Z;
    tank_index : list Z;
    pipe_index : list Z;
    pump_index : list Z;
    pressure : Z -> float;
    head : Z -> float;
    flow : Z -> float;
    (** the mishap, if any, of call [c] made when [n] calls came before it *)
    mishaps : forall A : Type, call A -> nat -> option mishap }.

Record plant : Type :=
  { calls : nat;
    attempts : nat;
    horizon : Z;
    hydraulic_step : Z }.

Definition plant0 : plant :=
  {| calls := 0; attempts := 0; horizon := 0; hydraulic_step := 3600 |}.

(** [count] slots from [address] on; slots the block does not have read as
    [default]. *)
Definition serve (A : Type) (default : A) (block : list A) (address count : Z) : list A :=
  firstn (Z.to_nat count) (skipn (Z.to_nat address) block ++ repeat default (Z.to_nat count)).

(** The 32 bits of the binary32 value nearest to [v]; [None] when a finite
    [v] is out of binary32's range ([OverflowError]). *)
Definition float32_bits (v : float) : option Z :=
  let sign (s : bool) := if s then 2 ^ 31 else 0 in
  match Prim2SF v with
  | S754_zero s => Some (sign s)
  | S754_infinity s => Some (sign s + 255 * 2 ^ 23)
  | S754_nan => Some (255 * 2 ^ 23 + 2 ^ 22)
  | S754_finite s m e =>
    match binary_round 24 128 s m e with
    | S754_zero s' => Some (sign s')
    | S754_finite s' m' e' =>
      Some (sign s' + (if Z.pos m' <? 2 ^ 23 then Z.pos m'
                       else (e' + 150) * 2 ^ 23 + (Z.pos m' - 2 ^ 23)))
    | _ => None
    end
  end.

(** Big-endian word order: high word first. *)
Definition float32_registers (v : float) : option (list Z) :=
  match float32_bits v with
  | Some b => Some [b / 65536; b mod 65536]
  | None => None
  end.

Definition answer (r : rig) (p : plant) (A : Type) (c : call A) : reply A :=
  match c in call T return reply T with
  | ModbusTcpClient _ _ => Returns tt
  | connect => Returns (refusals r <=? attempts p)%nat
  | close => Returns tt
  | read_coils a n => Returns (serve false (coil_block r) a n)
  | read_holding_registers a n => Returns (serve 0 (register_block r) a n)
  | convert_to_registers v FLOAT32 =>
    match float32_registers v with
    | Some regs => Returns regs
    | None => Fails "float too large to pack with f format"
    end
  | write_registers _ _ => Returns tt
  | epanet _ => Returns tt
  | setTimeSimulationDuration _ => Returns tt
  | setTimeHydraulicStep _ => Returns tt
  | getTimeSimulationDuration => Returns (horizon p)
  | getTimeHydraulicStep => Returns (hydraulic_step p)
  | getNodeJunctionCount => Returns (Z.of_nat (List.length (junction_index r)))
  | getNodeReservoirCount => Returns 1
  | getNodeTankCount => Returns (Z.of_nat (List.length (tank_index r)))
  | getLinkPipeCount => Returns (Z.of_nat (List.length (pipe_index r)))
  | getLinkPumpCount => Returns (Z.of_nat (List.length (pump_index r)))
  | getLinkValveCount => Returns 0
  | getNodeJunctionIndex => Returns (junction_index r)
  | getNodeTankIndex => Returns (tank_index r)
  | getLinkPipeIndex => Returns (pipe_index r)
  | getLinkPumpIndex => Returns (pump_index r)
  | setLinkStatus _ _ => Returns tt
  | setLinkSettings _ _ => Returns tt
  | getNodePressure i => Returns (pressure r i)
  | getNodeHydraulicHead i => Returns (head r i)
  | getLinkFlows i => Returns (flow r i)
  | openHydraulicAnalysis => Returns tt
  | initializeHydraulicAnalysis => Returns tt
  | runHydraulicAnalysis => Returns tt
  | nextHydraulicAnalysisStep => Returns tt
  | closeHydraulicAnalysis => Returns tt
  | unload => Returns tt
  | sleep _ => Returns tt
  end.

Definition advance (p : plant) (A : Type) (c : call A) : plant :=
  let p' := {| calls := S (calls p); attempts := attempts p;
               horizon := horizon p; hydraulic_step := hydraulic_step p |} in
  match c with
  | connect =>
    {| calls := calls p'; attempts := S (attempts p);
       horizon := horizon p; hydraulic_step := hydraulic_step p |}
  | setTimeSimulationDuration d =>
    {| calls := calls p'; attempts := attempts p;
       horizon := d; hydraulic_step := hydraulic_step p |}
  | setTimeHydraulicStep h =>
    {| calls := calls p'; attempts := attempts p;
       horizon := horizon p; hydraulic_step := h |}
  | _ => p'
  end.

Definition rig_env (r : rig) (A : Type) (c : call A) (p : plant) : plant * reply A :=
  match mishaps r c (calls p) with
  | Some (Crash msg) => (advance p (sleep 0), Fails msg)
  | Some CtrlC => (advance p (sleep 0), Interrupted)
  | None => (advance p c, answer r p c)
  end.

Definition no_mishap (A : Type) (c : call A) (n : nat) : option mishap := None.

(** Scenario A's network: two pipes, one pump; a junction and a tank. *)
Definition scenario_A : rig :=
  {| refusals := 0;
     coil_block := [true; false];
     register_block := [150; 50];
     junction_index := [1];
     tank_index := [2];
     pipe_index := [1; 2];
     pump_index := [3];
     pressure := fun _ => 1.5%float;
     head := fun _ => 100%float;
     flow := fun _ => 0.25%float;
     mishaps := no_mishap |}.

(** ** Reading a run *)

Definition trace_of (S A : Type) (x : S * trace * result A) : trace := snd (fst x).

Definition result_of (S A : Type) (x : S * trace * result A) : result A := snd x.

(** A run from a fresh process on the rig. *)
Definition boot : locals * plant := (no_locals, plant0).

(** ** Vocabulary of the properties *)







(** What Scenario A's control read decodes to: the two configured slots, then
    the 98 empty ones. *)
Definition scenario_A_controls : controls :=
  {| pipe_statuses := 0 :: repeat 1 99;
     pump_settings := 1.5%float :: 0.5%float :: repeat 0%float 98 |}.

(** ** Reading a trace *)

(** The call came back with a value (a printed line always does). *)
Definition returned (e : event) : bool :=
  match e with
  | Call _ (Returns _) => true
  | Call _ _ => false
  | Printed _ => true
  end.

(** The user's interrupt was delivered during the call. *)
Definition interrupts (e : event) : bool :=
  match e with
  | Call _ Interrupted => true
  | _ => false
  end.

(** A control is applied to the engine. *)
Definition is_control_write (e : event) : bool :=
  match e with
  | Call c _ =>
    match c with
    | setLinkStatus _ _ => true
    | setLinkSettings _ _ => true
    | _ => false
    end
  | Printed _ => false
  end.

(** The hydraulic step: the solver is run for the current time. *)
Definition is_hydraulic_step (e : event) : bool :=
  match e with
  | Call c _ => match c with runHydraulicAnalysis => true | _ => false end
  | Printed _ => false
  end.

(** A measurement is read from the engine. *)
Definition is_telemetry_read (e : event) : bool :=
  match e with
  | Call c _ =>
    match c with
    | getNodePressure _ => true
    | getNodeHydraulicHead _ => true
    | getLinkFlows _ => true
    | _ => false
    end
  | Printed _ => false
  end.

(** The events [set_controls] leaves when every call returns. *)
Definition status_write (p : Z * Z) : event :=
  Call (setLinkStatus (fst p) (snd p)) (Returns tt).

Definition setting_write (p : Z * float) : event :=
  Call (setLinkSettings (fst p) (snd p)) (Returns tt).

Definition control_writes (pipes pumps : list Z) (c : controls) : trace :=
  map status_write (zip pipes (pipe_statuses c))
  ++ map setting_write (zip pumps (pump_settings c)).

(** ** Well-behaved pieces of the script *)

Definition is_interrupt (A : Type) (r : result A) : bool :=
  match r with
  | Raise KeyboardInterrupt => true
  | _ => false
  end.

Definition exits_with_1 (A : Type) (r : result A) : Prop :=
  match r with
  | Raise (SystemExit code) => code = 1
  | _ => True
  end.

(** A piece of the script that leaves [main]'s frame alone, emits only events
    of [P], ends in [KeyboardInterrupt] exactly when one of its calls was
    interrupted, and never exits with a status other than 1. *)
Definition helper (W : Type) (P : event -> bool) (A : Type) (m : M W A) : Prop :=
  forall s s' t r,
    m s = (s', t, r) ->
    fst s' = fst s
    /\ forallb P t = true
    /\ existsb interrupts t = is_interrupt r
    /\ exits_with_1 r.

(** Events allowed before the hydraulic step of a cycle, and after it. *)
Definition before_step (e : event) : bool :=
  negb (is_hydraulic_step e) && negb (is_telemetry_read e).

Definition after_step (e : event) : bool :=
  negb (is_hydraulic_step e) && negb (is_control_write e).

(** The frame [get_controls] builds from the two blocks. *)
Definition decoded (bits : list bool) (registers : list Z) : controls :=
  {| pipe_statuses := map (fun i => Z.lxor (Z.b2z i) 1) bits;
     pump_settings := map (fun i => (float_of_int i / 100)%float) registers |}.

(** A frame with one pipe status and no pump setting, for a network of two
    pipes and one pump. *)
Definition short_frame : controls :=
  {| pipe_statuses := [1]; pump_settings := [] |}.

(** ** Connecting *)

(** Seen from state [w], the endpoint refuses [n] connection attempts and
    accepts the next one, and each one-second wait in between passes. *)
Fixpoint refuses_then_accepts (W : Type)
    (env : forall A : Type, call A -> W -> W * reply A) (n : nat) (w : W) : Prop :=
  match n with
  | O => exists w', env _ connect w = (w', Returns true)
  | S n' =>
    exists w1 w2,
      env _ connect w = (w1, Returns false)
      /\ env _ (sleep 1) w1 = (w2, Returns tt)
      /\ refuses_then_accepts env n' w2
  end.

(** [n] refused attempts, each followed by a wait of 1, then the accepted one. *)
Fixpoint attempts_trace (n : nat) : trace :=
  match n with
  | O => [Call connect (Returns true)]
  | S n' => Call connect (Returns false) :: Call (sleep 1) (Returns tt) :: attempts_trace n'
  end.

Definition is_connect_attempt (e : event) : bool :=
  match e with
  | Call c _ => match c with connect => true | _ => false end
  | Printed _ => false
  end.

Definition is_wait (e : event) : bool :=
  match e with
  | Call c _ => match c with sleep _ => true | _ => false end
  | Printed _ => false
  end.

(** Scenario D's endpoint: two refusals, then success. *)
Definition scenario_D : rig :=
  {| refusals := 2;
     coil_block := [];
     register_block := [];
     junction_index := [];
     tank_index := [];
     pipe_index := [];
     pump_index := [];
     pressure := fun _ => 0%float;
     head := fun _ => 0%float;
     flow := fun _ => 0%float;
     mishaps := no_mishap |}.

(** ** The wire layout *)

(** The two Modbus tables the script touches: [read_coils] addresses coils;
    [read_holding_registers] and [write_registers] address holding registers. *)
Inductive table : Type := Coils | HoldingRegisters.

(** [n] consecutive addresses from [a] on. *)
Definition span (a : Z) (n : nat) : list Z :=
  map (fun k => a + Z.of_nat k) (seq 0 n).

(** The wire addresses a call reads or writes. *)
Definition footprint (e : event) : list (table * Z) :=
  match e with
  | Call c _ =>
    match c with
    | read_coils a n => map (pair Coils) (span a (Z.to_nat n))
    | read_holding_registers a n => map (pair HoldingRegisters) (span a (Z.to_nat n))
    | write_registers a registers =>
      map (pair HoldingRegisters) (span a (List.length registers))
    | _ => []
    end
  | Printed _ => []
  end.


(** The codec's contract: a value packs into as many registers as its data
    type says (two for FLOAT32). *)
Definition codec_packs_by_type (W : Type)
    (env : forall A : Type, call A -> W -> W * reply A) : Prop :=
  forall w value d w' registers,
    env _ (convert_to_registers value d) w = (w', Returns registers) ->
    List.length registers = register_count d.

(** [registers] is what the codec answered for [value] as a FLOAT32. *)
Definition packs (W : Type) (env : forall A : Type, call A -> W -> W * reply A)
    (value : float) (registers : list Z) : Prop :=
  exists w w', env _ (convert_to_registers value FLOAT32) w = (w', Returns registers).

(** [enumerate] from a given first index. *)
Definition enumerate_from (A : Type) (k : nat) (xs : list A) : list (Z * A) :=
  combine (map Z.of_nat (seq k (List.length xs))) xs.

(** The two events one telemetry value leaves when it is packed and written. *)
Definition write_events (base : Z) (item : Z * (float * list Z)) : trace :=
  [Call (convert_to_registers (fst (snd item)) FLOAT32) (Returns (snd (snd item)));
   Call (write_registers (base + fst item * 2) (snd (snd item))) (Returns tt)].

(** The events of a block whose [k]-th value packed into the [k]-th element of
    [packed]. *)
Definition block_trace_from (base : Z) (k : nat)
    (values : list float) (packed : list (list Z)) : trace :=
  flat_map (write_events base) (enumerate_from k (combine values packed)).

Definition block_trace (base : Z) (values : list float) (packed : list (list Z)) : trace :=
  block_trace_from base 0 values packed.

(** How a block ends when a call does not return: the conversion of the value
    at index [k] fails, or its write does. *)
Definition failing_tail (W : Type) (env : forall A : Type, call A -> W -> W * reply A)
    (base : Z) (k : nat) (value : float) (tail : trace) : Prop :=
  (exists rep,
      tail = [Call (convert_to_registers value FLOAT32) rep]
      /\ returned (Call (convert_to_registers value FLOAT32) rep) = false)
  \/ (exists registers rep,
         packs env value registers
         /\ tail = [Call (convert_to_registers value FLOAT32) (Returns registers);
                    Call (write_registers (base + Z.of_nat k * 2) registers) rep]
         /\ returned (Call (write_registers (base + Z.of_nat k * 2) registers) rep) = false).

(** The events of a list comprehension over one engine getter, when every
    call returns. *)
Definition reads (X : Type) (getter : Z -> call X) (indices : list Z) (values : list X)
  : trace :=
  map (fun p => Call (getter (fst p)) (Returns (snd p))) (combine indices values).

(** Scenario A's telemetry. *)
Definition scenario_A_data : data :=
  {| junction_pressures := [1.5%float];
     tank_heads := [100%float];
     pump_flows := [0.25%float] |}.






(** ** The life cycle of the process *)

Definition is_ok (A : Type) (r : result A) : bool :=
  match r with
  | Ok _ => true
  | _ => false
  end.

Definition is_close (e : event) : bool :=
  match e with
  | Call c _ => match c with close => true | _ => false end
  | Printed _ => false
  end.

(** The teardown of the engine's analysis. *)
Definition is_teardown (e : event) : bool :=
  match e with
  | Call c _ => match c with closeHydraulicAnalysis => true | _ => false end
  | Printed _ => false
  end.

Definition is_unload (e : event) : bool :=
  match e with
  | Call c _ => match c with unload => true | _ => false end
  | Printed _ => false
  end.

(** A call of the [finally] block. *)
Definition is_drain (e : event) : bool :=
  is_close e || is_teardown e || is_unload e.

Definition stopped_by_user : string := ">--- Program interrupted by user ---".

Definition says_stopped (e : event) : bool :=
  match e with
  | Printed line => String.eqb line stopped_by_user
  | Call _ _ => false
  end.

(** The connection was established. *)
Definition connected (e : event) : bool :=
  match e with
  | Call c rep =>
    match c in call T return reply T -> bool with
    | connect => fun rep => match rep with Returns true => true | _ => false end
    | _ => fun _ => false
    end rep
  | Printed _ => false
  end.

(** The engine was set up: the last call of [setup_epanet] returned. *)
Definition engine_ready (e : event) : bool :=
  match e with
  | Call c rep =>
    match c with
    | setTimeHydraulicStep _ => returned (Call c rep)
    | _ => false
    end
  | Printed _ => false
  end.

(** The analysis was initialized: the loop of cycles (Running) is entered. *)
Definition analysis_started (e : event) : bool :=
  match e with
  | Call c rep =>
    match c with
    | initializeHydraulicAnalysis => returned (Call c rep)
    | _ => false
    end
  | Printed _ => false
  end.

(** Events of the [try] block: no draining call, and never the line that
    tells the user the program was interrupted. *)
Definition quiet (e : event) : bool :=
  negb (is_drain e) && negb (says_stopped e).

(** What each stage of the [try] block may emit. *)
Definition of_setup_client (e : event) : bool :=
  quiet e && negb (engine_ready e) && negb (analysis_started e).

Definition of_setup_epanet (e : event) : bool :=
  quiet e && negb (connected e) && negb (analysis_started e).

Definition of_start (e : event) : bool :=
  quiet e && negb (connected e) && negb (engine_ready e).

Definition of_running (e : event) : bool :=
  quiet e && negb (connected e) && negb (engine_ready e) && negb (analysis_started e).

(** Every draining call of the trace returned. *)
Definition drains_cleanly (t : trace) : bool :=
  forallb (fun e => negb (is_drain e) || returned e) t.

(** The trace and the result of the [finally] block, from the frame it finds
    and the replies to its three calls. *)
Definition drain_trace (l : locals) (r1 r2 r3 : reply unit) : trace :=
  (if client l then [Call close r1] else [])
  ++ (if en l && (negb (client l) || returned (Call close r1))
      then Call closeHydraulicAnalysis r2
           :: (if returned (Call closeHydraulicAnalysis r2) then [Call unload r3] else [])
      else []).

Definition drain_result (l : locals) (r1 r2 r3 : reply unit) : result unit :=
  if client l && negb (returned (Call close r1)) then raised r1
  else if en l then
         if returned (Call closeHydraulicAnalysis r2) then raised r3 else raised r2
       else Ok tt.

(** What [main]'s two handlers do with the way the [try] block ended. *)
Definition handler_trace (r : result unit) : trace :=
  match r with
  | Raise KeyboardInterrupt => [Printed stopped_by_user]
  | Raise (PyException msg) =>
    [Printed (String.append
                "Failed to run EPANET simulation due to an unexpected error: " msg)]
  | _ => []
  end.

Definition handler_result (r : result unit) : result unit :=
  match r with
  | Raise KeyboardInterrupt => Raise (SystemExit 0)
  | Raise (PyException _) => Raise (SystemExit 1)
  | _ => r
  end.

(** The result of [try ... finally] from the result in flight and the result
    of the [finally] block. *)
Definition after_finally (in_flight finally_result : result unit) : result unit :=
  match finally_result with
  | Ok _ => in_flight
  | Raise e => Raise e
  | Pending => Pending
  end.

(** A draining call that did not return. *)
Definition drain_failed (e : event) : bool := is_drain e && negb (returned e).

Definition close_failed (e : event) : bool := is_close e && negb (returned e).

(** ** Scenarios of shutdown *)

Definition command_line : list string := ["epanet.py"; "network.inp"].

Definition with_mishaps (r : rig)
    (m : forall A : Type, call A -> nat -> option mishap) : rig :=
  {| refusals := refusals r;
     coil_block := coil_block r;
     register_block := register_block r;
     junction_index := junction_index r;
     tank_index := tank_index r;
     pipe_index := pipe_index r;
     pump_index := pump_index r;
     pressure := pressure r;
     head := head r;
     flow := flow r;
     mishaps := m |}.

(** Scenario C: the interrupt arrives between cycles, during the pacing sleep. *)
Definition scenario_C : rig :=
  with_mishaps scenario_A
    (fun A c _ => match c with sleep _ => Some CtrlC | _ => None end).

(** The same interrupt, but closing the link then raises. *)
Definition close_raises : rig :=
  with_mishaps scenario_A
    (fun A c _ =>
       match c with
       | sleep _ => Some CtrlC
       | close => Some (Crash "connection reset")
       | _ => None
       end).

(** The same interrupt, but the analysis teardown then raises. *)
Definition teardown_raises : rig :=
  with_mishaps scenario_A
    (fun A c _ =>
       match c with
       | sleep _ => Some CtrlC
       | closeHydraulicAnalysis => Some (Crash "analysis not open")
       | _ => None
       end).

(** ** Runs of [main] *)

(** What a run of the [try] block leaves behind, whatever ended it. *)
Definition try_block_facts (l' : locals) (t : trace) (r : result unit) : Prop :=
  forallb quiet t = true
  /\ existsb interrupts t = is_interrupt r
  /\ exits_with_1 r
  /\ is_ok r = false
  /\ client l' = existsb connected t
  /\ en l' = existsb engine_ready t
  /\ (existsb analysis_started t = true -> client l' = true /\ en l' = true).

(** A run of [main] that got past the arguments: the [try] block, then the
    handler of what ended it, then the [finally] block. *)
Definition past_arguments (t : trace) (r : result unit) : Prop :=
  exists l tb rb,
    try_block_facts l tb rb
    /\ ((rb = Pending /\ t = tb /\ r = Pending)
        \/ (rb <> Pending
            /\ exists r1 r2 r3,
                t = tb ++ handler_trace rb ++ drain_trace l r1 r2 r3
                /\ r = after_finally (handler_result rb) (drain_result l r1 r2 r3))).

(** A run of [main] that the arguments ended: usage lines only, no call. *)
Definition refused_arguments (t : trace) (r : result unit) : Prop :=
  (forall e, In e t -> exists line, e = Printed line)
  /\ forallb quiet t = true
  /\ (r = Raise (SystemExit 1) \/ exists msg, r = Raise (PyException msg)).

(** ** Failing fast *)

(** The exception a reply raises, if it raises. *)
Definition exn_of (A : Type) (rep : reply A) : option exn :=
  match rep with
  | Returns _ => None
  | Fails msg => Some (PyException msg)
  | Interrupted => Some KeyboardInterrupt
  end.

(** Calls that all returned, then one call that raised [e]. *)
Definition ends_raising (t : trace) (e : exn) : Prop :=
  exists t0 (A : Type) (c : call A) (rep : reply A),
    t = t0 ++ [Call c rep] /\ forallb returned t0 = true /\ exn_of rep = Some e.

(** Calls that all returned, then one call that failed with [msg], then the
    line that reports it. *)
Definition reported (prefix : string) (t : trace) : Prop :=
  exists t0 (A : Type) (c : call A) (msg : string),
    t = t0 ++ [Call c (Fails msg); Printed (String.append prefix msg)]
    /\ forallb returned t0 = true.

(** A piece of the script without a handler of its own: it ends early only by
    the exception of the call that raised, which is then its last event. *)
Definition faithful (W A : Type) (m : M W A) : Prop :=
  forall s s' t r,
    m s = (s', t, r) ->
    match r with
    | Raise e => ends_raising t e
    | _ => forallb returned t = true
    end.

(** A helper with the handler [except Exception as e: print(prefix + e);
    sys.exit(1)]. *)
Definition reports (W : Type) (prefix : string) (A : Type) (m : M W A) : Prop :=
  forall s s' t r,
    m s = (s', t, r) ->
    match r with
    | Raise (PyException _) => False
    | Raise KeyboardInterrupt => ends_raising t KeyboardInterrupt
    | Raise (SystemExit code) => code = 1 /\ reported prefix t
    | _ => forallb returned t = true
    end.

(** The lines the seven helpers start their report with, and the line of
    [main]'s own handler. *)
Definition helper_prefixes : list string :=
  ["Failed to print overview of total number nodes and links in EPANET network: ";
   "Failed to setup and establish a Modbus TCP client connection: ";
   "Failed to setup EPANET with specified network (.inp) file: ";
   "Failed to get controls from OpenPLC: ";
   "Failed to set OpenPLC controls to EPANET network: ";
   "Failed to read data from EPANET network: ";
   "Failed to write EPANET network data to OpenPLC: "].

Definition main_prefix : string :=
  "Failed to run EPANET simulation due to an unexpected error: ".

(** The frame of [main] after the events [body] of its [try] block: [client]
    is bound once a connection attempt succeeded, [en] once the engine was
    set up. *)
Definition frame_after (body : trace) : locals :=
  {| client := existsb connected body; en := existsb engine_ready body |}.

(** A piece of the [try] block: helpers and bare calls in sequence. *)
Definition failfast (W A : Type) (m : M W A) : Prop :=
  forall s s' t r,
    m s = (s', t, r) ->
    match r with
    | Raise (SystemExit code) =>
      code = 1 /\ exists prefix, In prefix helper_prefixes /\ reported prefix t
    | Raise e => ends_raising t e
    | _ => forallb returned t = true
    end.

(** A piece of the script without an unbounded loop: it always ends. *)
Definition finite (W A : Type) (m : M W A) : Prop :=
  forall s s' t r, m s = (s', t, r) -> r <> Pending.

(** ** A complete cycle *)

(** What one cycle reads from its collaborators. *)
Record cycle_inputs : Type :=
  { duration_read : Z;
    step_read : Z;
    bits_read : list bool;
    registers_read : list Z;
    pipes_read : list Z;
    pumps_read : list Z;
    junctions_read : list Z;
    tanks_read : list Z;
    flow_pumps_read : list Z;
    telemetry_read : data;
    pressures_packed : list (list Z);
    heads_packed : list (list Z);
    flows_packed : list (list Z) }.

(** The events of a cycle in which every call returned, in order: the horizon
    is extended by one hydraulic step, the controls are read and applied, the
    solver runs once, the telemetry is read and written, the clock advances,
    and the cycle sleeps one second. *)
Definition cycle_trace (i : cycle_inputs) : trace :=
  [Call getTimeSimulationDuration (Returns (duration_read i));
   Call getTimeHydraulicStep (Returns (step_read i));
   Call (setTimeSimulationDuration (duration_read i + step_read i)) (Returns tt);
   Call (read_coils 0 100) (Returns (bits_read i));
   Call (read_holding_registers 0 100) (Returns (registers_read i))]
  ++ (Call getLinkPipeIndex (Returns (pipes_read i))
      :: map status_write
           (zip (pipes_read i)
                (pipe_statuses (decoded (bits_read i) (registers_read i))))
      ++ Call getLinkPumpIndex (Returns (pumps_read i))
      :: map setting_write
           (zip (pumps_read i)
                (pump_settings (decoded (bits_read i) (registers_read i)))))
  ++ [Call runHydraulicAnalysis (Returns tt)]
  ++ (Call getNodeJunctionIndex (Returns (junctions_read i))
      :: reads getNodePressure (junctions_read i) (junction_pressures (telemetry_read i))
      ++ Call getNodeTankIndex (Returns (tanks_read i))
      :: reads getNodeHydraulicHead (tanks_read i) (tank_heads (telemetry_read i))
      ++ Call getLinkPumpIndex (Returns (flow_pumps_read i))
      :: reads getLinkFlows (flow_pumps_read i) (pump_flows (telemetry_read i)))
  ++ (block_trace 100 (junction_pressures (telemetry_read i)) (pressures_packed i)
      ++ block_trace 200 (tank_heads (telemetry_read i)) (heads_packed i)
      ++ block_trace 300 (pump_flows (telemetry_read i)) (flows_packed i))
  ++ [Call nextHydraulicAnalysisStep (Returns tt);
      Call (sleep 1) (Returns tt)].

(** Nothing of the cycle's inputs is left out of its trace: one measurement
    per index the engine listed, and one packed pair of registers per
    measurement. *)
Definition complete (i : cycle_inputs) : Prop :=
  List.length (junction_pressures (telemetry_read i)) = List.length (junctions_read i)
  /\ List.length (tank_heads (telemetry_read i)) = List.length (tanks_read i)
  /\ List.length (pump_flows (telemetry_read i)) = List.length (flow_pumps_read i)
  /\ List.length (pressures_packed i)
     = List.length (junction_pressures (telemetry_read i))
  /\ List.length (heads_packed i) = List.length (tank_heads (telemetry_read i))
  /\ List.length (flows_packed i) = List.length (pump_flows (telemetry_read i)).

(** ** The command line *)

(** The test [parse_arguments] makes, as a boolean. *)
Definition acceptable (argv : list string) : bool :=
  (List.length argv =? 2)%nat && endswith (nth 1 argv "") ".inp".

Definition usage_lines (program : string) : trace :=
  [Printed "Run EPANET simulation with Modbus controls.";
   Printed (String.append ">>> python " (String.append program " [network.inp]"))].

(** Scenario B: the link drops while the holding registers are read. *)
Definition scenario_B : rig :=
  with_mishaps scenario_A
    (fun A c _ =>
       match c with
       | read_holding_registers _ _ => Some (Crash "connection lost")
       | _ => None
       end).

(** The analysis teardown was called and returned. *)
Definition teardown_returned (e : event) : bool := is_teardown e && returned e.

(** How many events of a trace satisfy a test. *)
Definition occurrences (p : event -> bool) (t : trace) : nat :=
  List.length (filter p t).

(** ** Order of start-up *)

(** A call on the EPANET engine object. *)
Definition is_engine_call (e : event) : bool :=
  match e with
  | Call c _ =>
    match c with
    | ModbusTcpClient _ _ | connect | close | read_coils _ _
    | read_holding_registers _ _ | convert_to_registers _ _
    | write_registers _ _ | sleep _ => false
    | _ => true
    end
  | Printed _ => false
  end.

(** A call on the engine other than the three that set it up. *)
Definition is_engine_use (e : event) : bool :=
  is_engine_call e
  && match e with
     | Call c _ =>
       match c with
       | epanet _ | setTimeSimulationDuration _ | setTimeHydraulicStep _ => false
       | _ => true
       end
     | Printed _ => false
     end.

(** A block is read from or written to the PLC. *)
Definition is_exchange (e : event) : bool :=
  match e with
  | Call c _ =>
    match c with
    | read_coils _ _ | read_holding_registers _ _ | write_registers _ _ => true
    | _ => false
    end
  | Printed _ => false
  end.

(** The work of a cycle: exchanges with the PLC, controls applied, the
    hydraulic step, measurements read. *)
Definition is_cycle_work (e : event) : bool :=
  is_exchange e || is_control_write e || is_hydraulic_step e || is_telemetry_read e.

(** How far start-up has got. *)
Record progress : Type :=
  { has_link : bool; has_engine : bool; has_analysis : bool }.

Definition nothing_yet : progress :=
  {| has_link := false; has_engine := false; has_analysis := false |}.

Definition link_up : progress :=
  {| has_link := true; has_engine := false; has_analysis := false |}.

Definition engine_up : progress :=
  {| has_link := true; has_engine := true; has_analysis := false |}.

Definition analysis_up : progress :=
  {| has_link := true; has_engine := true; has_analysis := true |}.

Definition progress_after (p : progress) (e : event) : progress :=
  {| has_link := has_link p || connected e;
     has_engine := has_engine p || engine_ready e;
     has_analysis := has_analysis p || analysis_started e |}.

Definition reached (p : progress) (t : trace) : progress :=
  fold_left progress_after t p.

(** An event that does not run ahead of start-up. *)
Definition allowed (p : progress) (e : event) : bool :=
  (has_link p || negb (is_engine_call e))
  && (has_engine p || negb (is_engine_use e))
  && (has_analysis p || negb (is_cycle_work e)).

Fixpoint in_order (p : progress) (t : trace) : bool :=
  match t with
  | [] => true
  | e :: t' => allowed p e && in_order (progress_after p e) t'
  end.

Definition at_least (p q : progress) : Prop :=
  (has_link p = true -> has_link q = true)
  /\ (has_engine p = true -> has_engine q = true)
  /\ (has_analysis p = true -> has_analysis q = true).

(** A piece of the script that, started at [p], emits its events in order and,
    when it returns, has got to [q] at least. *)
Definition staged (W : Type) (p q : progress) (A : Type) (m : M W A) : Prop :=
  forall s s' t r,
    m s = (s', t, r) ->
    in_order p t = true /\ (is_ok r = true -> at_least q (reached p t)).

(** ** What the process leaves alone *)

(** A piece of the script all of whose events pass the test [P]. *)
Definition emits (W : Type) (P : event -> bool) (A : Type) (m : M W A) : Prop :=
  forall s s' t r, m s = (s', t, r) -> forallb P t = true.

(** The PLC's tables as the script uses them: blocks are read at address 0,
    100 values long; registers are written from an even address, 100 or
    higher. *)
Definition link_discipline (e : event) : bool :=
  match e with
  | Call c _ =>
    match c with
    | read_coils a n => (a =? 0) && (n =? 100)
    | read_holding_registers a n => (a =? 0) && (n =? 100)
    | write_registers a _ => (100 <=? a) && Z.even a
    | _ => true
    end
  | Printed _ => true
  end.

(** The outside world as the script addresses it: the PLC at openplc:502,
    the network file it was given, waits of one second. *)
Definition fixed_endpoints (network_file : string) (e : event) : bool :=
  match e with
  | Call c _ =>
    match c with
    | ModbusTcpClient host port => String.eqb host "openplc" && (port =? 502)
    | epanet f => String.eqb f network_file
    | sleep secs => secs =? 1
    | _ => true
    end
  | Printed _ => true
  end.

(** ** Basic facts about runs *)

Section Runs.

Variable W : Type.
Variable env : forall A : Type, call A -> W -> W * reply A.

Local Abbreviation M := (M W).

Lemma bind_inv (A B : Type) (m : M A) (f : A -> M B) s s' t r :
  bind m f s = (s', t, r) ->
  (exists s1 t1 a t2,
      m s = (s1, t1, Ok a) /\ f a s1 = (s', t2, r) /\ t = t1 ++ t2)
  \/ (exists e, m s = (s', t, Raise e) /\ r = Raise e)
  \/ (m s = (s', t, Pending) /\ r = Pending).
Proof.
  unfold bind. destruct (m s) as [[s1 t1] [a|e|]].
  - destruct (f a s1) as [[s2 t2] r2] eqn:Ef. intros H; inversion H; subst.
    left. exists s1, t1, a, t2. auto.
  - intros H; inversion H; subst. right; left. exists e. auto.
  - intros H; inversion H; subst. right; right. auto.
Qed.

Lemma perform_inv (A : Type) (c : call A) s s' t r :
  perform env c s = (s', t, r) ->
  exists w' rep,
    env c (snd s) = (w', rep) /\ s' = (fst s, w') /\ t = [Call c rep] /\ r = raised rep.
Proof.
  unfold perform. destruct (env c (snd s)) as [w' rep].
  intros H; inversion H; subst. exists w', rep. auto.
Qed.

Lemma except_Exception_inv (A : Type) (m : M A) (h : string -> M A) s s' t r :
  except_Exception m h s = (s', t, r) ->
  (exists s1 t1 msg t2,
      m s = (s1, t1, Raise (PyException msg)) /\ h msg s1 = (s', t2, r) /\ t = t1 ++ t2)
  \/ (m s = (s', t, r) /\ forall msg, r <> Raise (PyException msg)).
Proof.
  unfold except_Exception. destruct (m s) as [[s1 t1] [a|[msg| |code]|]].
  2: { destruct (h msg s1) as [[s2 t2] r2] eqn:Eh. intros H; inversion H; subst.
       left. exists s1, t1, msg, t2. auto. }
  all: intros H; inversion H; subst; right; split; [reflexivity | discriminate].
Qed.

(** Every handler of the helper functions prints one line and exits with 1. *)
Lemma report_inv (A : Type) (line : string) (s s' : locals * W) t (r : result A) :
  (print line ;; sys_exit 1) s = (s', t, r) ->
  s' = s /\ t = [Printed line] /\ r = Raise (SystemExit 1).
Proof. cbv. intros H; inversion H; auto. Qed.

End Runs.

(** ** Loops over calls *)

Section Loops.

Variable W : Type.
Variable env : forall A : Type, call A -> W -> W * reply A.

Lemma returned_raised (A : Type) (c : call A) (rep : reply A) :
  returned (Call c rep) = true -> exists a, rep = Returns a.
Proof. destruct rep; simpl; try discriminate. eauto. Qed.

(** A loop whose body is one call that returns nothing: it leaves one event
    per element until a call does not return. *)
Lemma for_each_call (X : Type) (body : X -> M W unit) (f : X -> call unit)
      (ok : X -> event) :
  (forall x, body x = perform env (f x)) ->
  (forall x, ok x = Call (f x) (Returns tt)) ->
  forall xs s s' t r,
    for_each body xs s = (s', t, r) ->
    fst s' = fst s
    /\ ((r = Ok tt /\ t = map ok xs)
        \/ (exists k x rep,
               nth_error xs k = Some x
               /\ t = map ok (firstn k xs) ++ [Call (f x) rep]
               /\ returned (Call (f x) rep) = false
               /\ r = raised rep)).
Proof.
  intros Hb Hok. induction xs as [|x xs IH]; intros s s' t r H.
  - cbv in H. inversion H; subst. auto.
  - cbn [for_each] in H. apply bind_inv in H.
    destruct H as [(s1 & t1 & [] & t2 & H1 & H2 & ->)|[(e & H1 & ->)|(H1 & ->)]];
      rewrite Hb in H1; apply perform_inv in H1;
      destruct H1 as (w' & rep & Hw & -> & -> & Hr).
    + destruct rep as [[]| |]; try discriminate.
      apply IH in H2. destruct H2 as [Hl H2]. split; [exact Hl|].
      destruct H2 as [[-> ->]|(k & y & rep & Hk & -> & Hf & ->)].
      * left. split; [reflexivity|]. simpl. rewrite Hok. reflexivity.
      * right. exists (S k), y, rep. simpl. rewrite Hok. auto.
    + split; [reflexivity|]. right. exists 0%nat, x, rep. simpl.
      destruct rep; try discriminate; auto.
    + destruct rep; discriminate.
Qed.

End Loops.

(** ** Rules for well-behaved pieces *)

Section Helpers.

Variable W : Type.
Variable env : forall A : Type, call A -> W -> W * reply A.
Variable P : event -> bool.

Lemma helper_ret (A : Type) (a : A) : helper P (@ret W A a).
Proof. intros s s' t r H. inversion H; subst. cbn. auto. Qed.

Lemma helper_pending (A : Type) : helper P (@pending W A).
Proof. intros s s' t r H. inversion H; subst. cbn. auto. Qed.

Lemma helper_exit_1 (A : Type) : helper P (@sys_exit W A 1).
Proof. intros s s' t r H. inversion H; subst. cbn. auto. Qed.

Lemma helper_raise (A : Type) (msg : string) : helper P (@raise W A (PyException msg)).
Proof. intros s s' t r H. inversion H; subst. cbn. auto. Qed.

Lemma helper_print (line : string) :
  P (Printed line) = true -> helper P (@print W line).
Proof. intros HP s s' t r H. inversion H; subst. cbn. rewrite HP. auto. Qed.

Lemma helper_perform (A : Type) (c : call A) :
  (forall rep, P (Call c rep) = true) -> helper P (perform env c).
Proof.
  intros HP s s' t r H. apply perform_inv in H.
  destruct H as (w' & rep & _ & -> & -> & ->). cbn. rewrite HP.
  destruct rep; cbn; auto.
Qed.

Lemma helper_bind (A B : Type) (m : M W A) (f : A -> M W B) :
  helper P m -> (forall a, helper P (f a)) -> helper P (bind m f).
Proof.
  intros Hm Hf s s' t r H. apply bind_inv in H.
  destruct H as [(s1 & t1 & a & t2 & H1 & H2 & ->)|[(e & H1 & ->)|(H1 & ->)]].
  - apply Hm in H1. apply Hf in H2.
    destruct H1 as (L1 & F1 & I1 & _), H2 as (L2 & F2 & I2 & X2).
    rewrite forallb_app, existsb_app, F1, F2, I1, I2. cbn. repeat split; congruence.
  - apply Hm in H1. exact H1.
  - apply Hm in H1. exact H1.
Qed.

Lemma helper_except (A : Type) (m : M W A) (h : string -> M W A) :
  helper P m -> (forall msg, helper P (h msg)) -> helper P (except_Exception m h).
Proof.
  intros Hm Hh s s' t r H. apply except_Exception_inv in H.
  destruct H as [(s1 & t1 & msg & t2 & H1 & H2 & ->)|(H1 & _)].
  - apply Hm in H1. apply Hh in H2.
    destruct H1 as (L1 & F1 & I1 & _), H2 as (L2 & F2 & I2 & X2).
    rewrite forallb_app, existsb_app, F1, F2, I1, I2. cbn. repeat split; congruence.
  - apply Hm in H1. exact H1.
Qed.

Lemma helper_for_each (X : Type) (body : X -> M W unit) (xs : list X) :
  (forall x, helper P (body x)) -> helper P (for_each body xs).
Proof.
  intros Hb. induction xs as [|x xs IH]; cbn [for_each].
  - apply helper_ret.
  - apply helper_bind; auto.
Qed.

Lemma helper_comprehension (X Y : Type) (f : X -> M W Y) (xs : list X) :
  (forall x, helper P (f x)) -> helper P (comprehension f xs).
Proof.
  intros Hf. induction xs as [|x xs IH]; cbn [comprehension].
  - apply helper_ret.
  - apply helper_bind; auto. intros y. apply helper_bind; auto.
    intros ys. apply helper_ret.
Qed.

Lemma helper_if (A : Type) (b : bool) (m1 m2 : M W A) :
  helper P m1 -> helper P m2 -> helper P (if b then m1 else m2).
Proof. destruct b; auto. Qed.

End Helpers.

(** Proves [helper P m] for a piece [m] of the script by following its
    structure; the side conditions on [P] are decided by computation. *)
Ltac helper_rules :=
  repeat first
    [ apply helper_ret
    | apply helper_pending
    | apply helper_exit_1
    | apply helper_raise
    | apply helper_print; reflexivity
    | apply helper_perform; intros ?; reflexivity
    | apply helper_except; [|intros ?]
    | apply helper_for_each; intros []
    | apply helper_comprehension; intros ?
    | apply helper_if
    | apply helper_bind; [|intros ?] ].

(** Membership in a trace built with [::] and [++]. *)
Ltac in_trace :=
  cbn [In app]; repeat rewrite in_app_iff; cbn [In]; tauto.

(** ** What the stage classifiers exclude *)

Lemma of_setup_client_facts (t : trace) :
  forallb of_setup_client t = true ->
  forallb quiet t = true
  /\ existsb engine_ready t = false
  /\ existsb analysis_started t = false.
Proof.
  induction t as [|e t IH]; [auto|]. cbn [forallb existsb]. unfold of_setup_client at 1.
  destruct (quiet e), (engine_ready e), (analysis_started e); cbn; try discriminate.
  exact IH.
Qed.

Lemma of_setup_epanet_facts (t : trace) :
  forallb of_setup_epanet t = true ->
  forallb quiet t = true
  /\ existsb connected t = false
  /\ existsb analysis_started t = false.
Proof.
  induction t as [|e t IH]; [auto|]. cbn [forallb existsb]. unfold of_setup_epanet at 1.
  destruct (quiet e), (connected e), (analysis_started e); cbn; try discriminate.
  exact IH.
Qed.

Lemma of_start_facts (t : trace) :
  forallb of_start t = true ->
  forallb quiet t = true
  /\ existsb connected t = false
  /\ existsb engine_ready t = false.
Proof.
  induction t as [|e t IH]; [auto|]. cbn [forallb existsb]. unfold of_start at 1.
  destruct (quiet e), (connected e), (engine_ready e); cbn; try discriminate.
  exact IH.
Qed.

Lemma of_running_facts (t : trace) :
  forallb of_running t = true ->
  forallb quiet t = true
  /\ existsb connected t = false
  /\ existsb engine_ready t = false
  /\ existsb analysis_started t = false.
Proof.
  induction t as [|e t IH]; [auto|]. cbn [forallb existsb]. unfold of_running at 1.
  destruct (quiet e), (connected e), (engine_ready e), (analysis_started e); cbn;
    try discriminate.
  exact IH.
Qed.

Lemma quiet_facts (t : trace) :
  forallb quiet t = true ->
  existsb is_drain t = false
  /\ existsb says_stopped t = false
  /\ existsb is_close t = false
  /\ existsb is_teardown t = false.
Proof.
  induction t as [|e t IH]; [auto|]. cbn [forallb existsb]. unfold quiet at 1, is_drain.
  destruct (is_close e), (is_teardown e), (is_unload e), (says_stopped e); cbn;
    try discriminate.
  exact IH.
Qed.

(** ** The [finally] block, case by case *)

Ltac drain_cases l r1 r2 r3 :=
  destruct l as [[|] [|]];
  destruct r1 as [[]|?|]; destruct r2 as [[]|?|]; destruct r3 as [[]|?|].

Lemma drain_trace_is_drain (l : locals) (r1 r2 r3 : reply unit) :
  forallb is_drain (drain_trace l r1 r2 r3) = true
  /\ existsb says_stopped (drain_trace l r1 r2 r3) = false
  /\ existsb connected (drain_trace l r1 r2 r3) = false
  /\ existsb engine_ready (drain_trace l r1 r2 r3) = false
  /\ existsb analysis_started (drain_trace l r1 r2 r3) = false.
Proof. drain_cases l r1 r2 r3; cbn; auto. Qed.

(** When every draining call returns, the block completes: the link is closed
    if it was bound, the engine torn down and unloaded if it was bound. *)
Lemma drain_trace_clean (l : locals) (r1 r2 r3 : reply unit) :
  forallb returned (drain_trace l r1 r2 r3) = true ->
  drain_result l r1 r2 r3 = Ok tt
  /\ existsb interrupts (drain_trace l r1 r2 r3) = false
  /\ drain_trace l r1 r2 r3
     = (if client l then [Call close (Returns tt)] else [])
       ++ (if en l
           then [Call closeHydraulicAnalysis (Returns tt); Call unload (Returns tt)]
           else []).
Proof. drain_cases l r1 r2 r3; cbn; intros H; try discriminate; auto. Qed.

(** When a draining call does not return, it is the last event and its
    exception is the result. *)
Lemma drain_trace_failed (l : locals) (r1 r2 r3 : reply unit) :
  forallb returned (drain_trace l r1 r2 r3) = false ->
  exists body (c : call unit) rep,
    drain_trace l r1 r2 r3 = body ++ [Call c rep]
    /\ forallb returned body = true
    /\ is_drain (Call c rep) = true
    /\ returned (Call c rep) = false
    /\ drain_result l r1 r2 r3 = raised rep.
Proof.
  drain_cases l r1 r2 r3; cbn; intros H; try discriminate;
    first
      [ exists []; do 2 eexists; split; [reflexivity|]; cbn; auto; fail
      | exists [Call close (Returns tt)]; do 2 eexists; split; [reflexivity|];
        cbn; auto; fail
      | exists [Call closeHydraulicAnalysis (Returns tt)]; do 2 eexists;
        split; [reflexivity|]; cbn; auto; fail
      | exists [Call close (Returns tt); Call closeHydraulicAnalysis (Returns tt)];
        do 2 eexists; split; [reflexivity|]; cbn; auto ].
Qed.

(** The block always gets to the link, and to the engine unless closing the
    link raised. *)
Lemma drain_trace_reaches (l : locals) (r1 r2 r3 : reply unit) :
  (client l = true -> existsb is_close (drain_trace l r1 r2 r3) = true)
  /\ (en l = true ->
      existsb is_teardown (drain_trace l r1 r2 r3) = true
      \/ existsb close_failed (drain_trace l r1 r2 r3) = true)
  /\ drain_result l r1 r2 r3 <> Pending.
Proof.
  drain_cases l r1 r2 r3; cbn; repeat split; auto; try discriminate.
Qed.

Lemma handler_trace_facts (rb : result unit) :
  existsb interrupts (handler_trace rb) = false
  /\ existsb is_drain (handler_trace rb) = false
  /\ existsb connected (handler_trace rb) = false
  /\ existsb engine_ready (handler_trace rb) = false
  /\ existsb analysis_started (handler_trace rb) = false
  /\ existsb is_close (handler_trace rb) = false
  /\ existsb says_stopped (handler_trace rb) = is_interrupt rb.
Proof. destruct rb as [?|[?| |?]|]; cbn; auto 10. Qed.

Lemma drained_returned (t : trace) :
  forallb is_drain t = true -> drains_cleanly t = forallb returned t.
Proof.
  unfold drains_cleanly. induction t as [|e t IH]; [reflexivity|].
  cbn [forallb]. intros H. apply andb_true_iff in H. destruct H as [-> H].
  rewrite IH by exact H. reflexivity.
Qed.

Lemma quiet_drains_cleanly (t : trace) :
  existsb is_drain t = false -> drains_cleanly t = true.
Proof.
  unfold drains_cleanly. induction t as [|e t IH]; [reflexivity|].
  cbn [forallb existsb]. intros H. apply orb_false_iff in H. destruct H as [-> H].
  cbn. auto.
Qed.

Lemma drains_cleanly_app (t1 t2 : trace) :
  drains_cleanly (t1 ++ t2) = drains_cleanly t1 && drains_cleanly t2.
Proof. apply forallb_app. Qed.

Lemma only_prints (t : trace) :
  (forall e, In e t -> exists line, e = Printed line) ->
  existsb interrupts t = false
  /\ existsb connected t = false
  /\ existsb engine_ready t = false
  /\ existsb analysis_started t = false
  /\ existsb is_close t = false.
Proof.
  induction t as [|e t IH]; [auto|]. intros H.
  destruct (H e (or_introl eq_refl)) as [line ->]. cbn.
  apply IH. intros e' He'. apply H. right. exact He'.
Qed.

Lemma no_drain_no_unload (t : trace) :
  existsb is_drain t = false ->
  existsb is_close t = false
  /\ existsb is_teardown t = false
  /\ existsb is_unload t = false.
Proof.
  induction t as [|e t IH]; [auto|]. cbn [existsb]. unfold is_drain at 1.
  destruct (is_close e), (is_teardown e), (is_unload e); cbn; try discriminate.
  exact IH.
Qed.

Lemma no_teardown_returned (t : trace) :
  existsb is_teardown t = false -> existsb teardown_returned t = false.
Proof.
  unfold teardown_returned. induction t as [|e t IH]; [reflexivity|].
  cbn [existsb]. intros H. apply orb_false_iff in H. destruct H as [-> H].
  rewrite (IH H). reflexivity.
Qed.

(** The engine is unloaded as soon as the teardown has returned. *)
Lemma drain_trace_unloads (l : locals) (r1 r2 r3 : reply unit) :
  existsb teardown_returned (drain_trace l r1 r2 r3) = true ->
  existsb is_unload (drain_trace l r1 r2 r3) = true.
Proof. drain_cases l r1 r2 r3; cbn; auto. Qed.

(** ** Decoding the control blocks *)

Section Controls.

Variable W : Type.
Variable env : forall A : Type, call A -> W -> W * reply A.

(** A control read succeeds only by reading both blocks, and its frame is the
    two comprehensions applied to what was read. *)
Lemma get_controls_returns (s : locals * W) (c : controls) :
  result_of (get_controls env s) = Ok c ->
  exists w1 bits w2 registers,
    env (read_coils 0 100) (snd s) = (w1, Returns bits)
    /\ env (read_holding_registers 0 100) w1 = (w2, Returns registers)
    /\ trace_of (get_controls env s) =
       [Call (read_coils 0 100) (Returns bits);
        Call (read_holding_registers 0 100) (Returns registers)]
    /\ pipe_statuses c = map (fun i => Z.lxor (Z.b2z i) 1) bits
    /\ pump_settings c = map (fun i => (float_of_int i / 100)%float) registers.
Proof.
  unfold get_controls, except_Exception, bind, perform, result_of, trace_of.
  destruct (env (read_coils 0 100) (snd s)) as [w1 [bits|msg|]] eqn:E1; simpl;
    try discriminate.
  destruct (env (read_holding_registers 0 100) w1) as [w2 [registers|msg|]] eqn:E2;
    simpl; try discriminate.
  intros H; inversion H; subst; simpl.
  exists w1, bits, w2, registers. auto.
Qed.

Lemma xor_1_negates (b : bool) : Z.lxor (Z.b2z b) 1 = 1 - Z.b2z b.
Proof. destruct b; reflexivity. Qed.

(** C1: every pipe status of a decoded frame is the logical negation 1 - b of
    the coil bit b at the same position of the block read from coils 0..99; a
    block of all-zero bits decodes to all-open (1) statuses, and a block that
    starts with the bits 1,0 decodes to statuses that start with 0,1. *)
Theorem pipe_status_negates_coil (s : locals * W) (c : controls) :
  result_of (get_controls env s) = Ok c ->
  exists w' bits,
    env (read_coils 0 100) (snd s) = (w', Returns bits)
    /\ pipe_statuses c = map (fun b => 1 - Z.b2z b) bits
    /\ (Forall (fun b => b = false) bits -> Forall (fun status => status = 1) (pipe_statuses c))
    /\ (firstn 2 bits = [true; false] -> firstn 2 (pipe_statuses c) = [0; 1]).
Proof.
  intros H. destruct (get_controls_returns s H)
    as (w1 & bits & w2 & registers & Hc & _ & _ & Hp & _).
  exists w1, bits. split; [exact Hc|].
  assert (E : pipe_statuses c = map (fun b => 1 - Z.b2z b) bits).
  { rewrite Hp. apply map_ext. exact xor_1_negates. }
  split; [exact E|]. rewrite E. split.
  - intros Hz. apply Forall_map. revert Hz. apply Forall_impl.
    intros b ->. reflexivity.
  - intros H2. rewrite firstn_map, H2. reflexivity.
Qed.







End Controls.

(** ** Scenario A on the rig *)

Lemma scenario_A_read :
  result_of (get_controls (rig_env scenario_A) boot) = Ok scenario_A_controls.
Proof. vm_compute. reflexivity. Qed.

Lemma pipe_status_negates_coil_witness :
  result_of (get_controls (rig_env scenario_A) boot) = Ok scenario_A_controls
  /\ exists w' bits,
      rig_env scenario_A (read_coils 0 100) (snd boot) = (w', Returns bits)
      /\ pipe_statuses scenario_A_controls = map (fun b => 1 - Z.b2z b) bits
      /\ (Forall (fun b => b = false) bits ->
          Forall (fun status => status = 1) (pipe_statuses scenario_A_controls))
      /\ (firstn 2 bits = [true; false] ->
          firstn 2 (pipe_statuses scenario_A_controls) = [0; 1]).
Proof.
  split; [exact scenario_A_read|].
  exact (@pipe_status_negates_coil _ (rig_env scenario_A) boot _ scenario_A_read).
Defined.




(** ** Applying a control frame *)

Section Apply.

Variable W : Type.
Variable env : forall A : Type, call A -> W -> W * reply A.

Lemma status_loop (pairs : list (Z * Z)) (s s' : locals * W) t r :
  for_each (fun '(i, status) => perform env (setLinkStatus i status)) pairs s = (s', t, r) ->
  fst s' = fst s
  /\ ((r = Ok tt /\ t = map status_write pairs)
      \/ (exists e, In e t /\ returned e = false /\ forall a, r <> Ok a)).
Proof.
  intros H.
  apply (@for_each_call _ env _ _ (fun p => setLinkStatus (fst p) (snd p)) status_write) in H.
  - destruct H as [Hl [H|(k & x & rep & _ & -> & Hf & ->)]]; split; auto.
    right. exists (Call (setLinkStatus (fst x) (snd x)) rep).
    split; [apply in_or_app; right; left; reflexivity|]. split; [exact Hf|].
    destruct rep; try discriminate; intros a Ha; discriminate.
  - intros [i st]. reflexivity.
  - intros [i st]. reflexivity.
Qed.

Lemma setting_loop (pairs : list (Z * float)) (s s' : locals * W) t r :
  for_each (fun '(i, setting) => perform env (setLinkSettings i setting)) pairs s = (s', t, r) ->
  fst s' = fst s
  /\ ((r = Ok tt /\ t = map setting_write pairs)
      \/ (exists e, In e t /\ returned e = false /\ forall a, r <> Ok a)).
Proof.
  intros H.
  apply (@for_each_call _ env _ _ (fun p => setLinkSettings (fst p) (snd p)) setting_write) in H.
  - destruct H as [Hl [H|(k & x & rep & _ & -> & Hf & ->)]]; split; auto.
    right. exists (Call (setLinkSettings (fst x) (snd x)) rep).
    split; [apply in_or_app; right; left; reflexivity|]. split; [exact Hf|].
    destruct rep; try discriminate; intros a Ha; discriminate.
  - intros [i st]. reflexivity.
  - intros [i st]. reflexivity.
Qed.

(** How a run of [set_controls] can end: every call returned and the trace is
    the two index queries with their writes, or some call did not return. *)
Lemma set_controls_run (c : controls) (s s' : locals * W) t r :
  set_controls env c s = (s', t, r) ->
  fst s' = fst s
  /\ ((r = Ok tt
       /\ exists pipes pumps,
           t = Call getLinkPipeIndex (Returns pipes)
               :: map status_write (zip pipes (pipe_statuses c))
               ++ Call getLinkPumpIndex (Returns pumps)
               :: map setting_write (zip pumps (pump_settings c)))
      \/ ((exists e, In e t /\ returned e = false) /\ forall a, r <> Ok a)).
Proof.
  unfold set_controls. intros H.
  apply except_Exception_inv in H.
  assert (body :
    forall s s' t r,
      (pipes <- perform env getLinkPipeIndex ;;
       for_each (fun '(i, status) => perform env (setLinkStatus i status))
                (zip pipes (pipe_statuses c)) ;;
       pumps <- perform env getLinkPumpIndex ;;
       for_each (fun '(i, setting) => perform env (setLinkSettings i setting))
                (zip pumps (pump_settings c))) s = (s', t, r) ->
      fst s' = fst s
      /\ ((r = Ok tt
           /\ exists pipes pumps,
               t = Call getLinkPipeIndex (Returns pipes)
                   :: map status_write (zip pipes (pipe_statuses c))
                   ++ Call getLinkPumpIndex (Returns pumps)
                   :: map setting_write (zip pumps (pump_settings c)))
          \/ ((exists e, In e t /\ returned e = false) /\ forall a, r <> Ok a))).
  { clear. intros s s' t r H.
    apply bind_inv in H.
    destruct H as [(s1 & t1 & pipes & t2 & H1 & H2 & ->)|[(e & H1 & ->)|(H1 & ->)]];
      apply perform_inv in H1; destruct H1 as (w1 & rep1 & _ & -> & -> & R1);
      destruct rep1 as [pipes'| |]; try discriminate; cbn in R1.
    2,3: split; [reflexivity|]; right; split; [|discriminate];
         eexists; split; [left; reflexivity|reflexivity].
    inversion R1; subst pipes'. clear R1.
    apply bind_inv in H2.
    destruct H2 as [(s2 & t3 & [] & t4 & H2 & H3 & ->)|[(e & H2 & ->)|(H2 & ->)]];
      apply status_loop in H2; destruct H2 as [L2 [[R2 ->]|(e2 & I2 & F2 & N2)]];
      cbn [fst] in L2;
      try discriminate; try (exfalso; eapply N2; reflexivity).
    2,3: split; [exact L2|]; right; split; [|discriminate];
         exists e2; split; [in_trace|exact F2].
    apply bind_inv in H3.
    destruct H3 as [(s3 & t5 & pumps & t6 & H3 & H4 & ->)|[(e & H3 & ->)|(H3 & ->)]];
      apply perform_inv in H3; destruct H3 as (w3 & rep3 & _ & -> & -> & R3);
      destruct rep3 as [pumps'| |]; try discriminate; cbn in R3.
    2,3: split; [exact L2|]; right; split; [|discriminate];
         eexists; split; [apply in_cons, in_or_app; right; left; reflexivity|reflexivity].
    inversion R3; subst pumps'. clear R3.
    apply setting_loop in H4. cbn [fst] in H4.
    destruct H4 as [L4 [[-> ->]|(e4 & I4 & F4 & N4)]].
    - split; [rewrite L4; exact L2|]. left. split; [reflexivity|].
      exists pipes, pumps. reflexivity.
    - split; [rewrite L4; exact L2|]. right. split; [|exact N4].
      exists e4. split; [in_trace|exact F4]. }
  destruct H as [(s1 & t1 & msg & t2 & H1 & H2 & ->)|(H1 & _)].
  - apply body in H1. destruct H1 as [L1 [[R1 _]|(E1 & _)]]; [discriminate|].
    apply report_inv in H2. destruct H2 as (-> & -> & ->).
    split; [exact L1|]. right. split; [|discriminate].
    destruct E1 as (e & I & F). exists e. split; [in_trace|exact F].
  - apply body in H1. exact H1.
Qed.

End Apply.

Section Pairing.

Variable W : Type.
Variable env : forall A : Type, call A -> W -> W * reply A.

Lemma run_eta (A : Type) (m : M W A) (s : locals * W) :
  m s = (fst (fst (m s)), trace_of (m s), result_of (m s)).
Proof. unfold trace_of, result_of. destruct (m s) as [[s' t] r]. reflexivity. Qed.

(** C5, as the code has it: set_controls pairs indices and values with zip, up
    to the shorter of the two.  Excess values are ignored; with fewer values
    than assets only the first assets are written, and that is no error:
    set_controls returns whenever every engine call returns, whatever the
    lengths. *)
Theorem set_controls_pairs_up_to_shorter (c : controls) (s : locals * W) :
  (forallb returned (trace_of (set_controls env c s)) = true ->
   result_of (set_controls env c s) = Ok tt)
  /\ (result_of (set_controls env c s) = Ok tt ->
      exists pipes pumps,
        trace_of (set_controls env c s) =
          Call getLinkPipeIndex (Returns pipes)
          :: map status_write (zip pipes (pipe_statuses c))
          ++ Call getLinkPumpIndex (Returns pumps)
          :: map setting_write (zip pumps (pump_settings c)))
  /\ (forall (B : Type) (assets : list Z) (values : list B),
         zip assets values = zip assets (firstn (List.length assets) values)
         /\ zip assets values = zip (firstn (List.length values) assets) values
         /\ List.length (zip assets values)
            = Nat.min (List.length assets) (List.length values)).
Proof.
  pose proof (set_controls_run env c s (run_eta _ s)) as [_ H].
  split; [|split].
  - intros Hall. destruct H as [[R _]|[(e & I & F) _]]; [exact R|].
    rewrite forallb_forall in Hall. apply Hall in I. congruence.
  - intros R. destruct H as [[_ H]|[_ N]]; [exact H|].
    exfalso. eapply N. exact R.
  - intros B assets values. unfold zip. split; [apply combine_firstn_l|].
    split; [apply combine_firstn_r|apply length_combine].
Qed.

End Pairing.

(** C5 does not hold as the spec states it: a frame with too few values is applied as far
    as it goes, and set_controls returns normally. *)
Lemma short_frame_is_applied :
  (List.length (pipe_statuses short_frame) < List.length (pipe_index scenario_A))%nat
  /\ (List.length (pump_settings short_frame) < List.length (pump_index scenario_A))%nat
  /\ result_of (set_controls (rig_env scenario_A) short_frame boot) = Ok tt
  /\ trace_of (set_controls (rig_env scenario_A) short_frame boot) =
     [Call getLinkPipeIndex (Returns [1; 2]);
      Call (setLinkStatus 1 1) (Returns tt);
      Call getLinkPumpIndex (Returns [3])].
Proof. repeat split; simpl; lia. Qed.

(** ** The order of effects within one cycle *)

Section Cycle.

Variable W : Type.
Variable env : forall A : Type, call A -> W -> W * reply A.

Lemma get_controls_before : helper before_step (get_controls env).
Proof. unfold get_controls. helper_rules. Qed.

Lemma set_controls_before (c : controls) : helper before_step (set_controls env c).
Proof. unfold set_controls. helper_rules. Qed.

Lemma read_data_after : helper after_step (read_data env).
Proof. unfold read_data. helper_rules. Qed.

Lemma write_data_after (d : data) : helper after_step (write_data env d).
Proof. unfold write_data, write_block. helper_rules. Qed.

Lemma filter_all (X : Type) (p : X -> bool) (xs : list X) :
  forallb p xs = true -> filter p xs = xs.
Proof.
  induction xs as [|x xs IH]; simpl; [reflexivity|].
  intros H. apply andb_true_iff in H. destruct H as [-> H]. f_equal. auto.
Qed.

Lemma filter_control_writes (pipes pumps : list Z) (c : controls) :
  filter is_control_write
    (Call getLinkPipeIndex (Returns pipes)
     :: map status_write (zip pipes (pipe_statuses c))
     ++ Call getLinkPumpIndex (Returns pumps)
     :: map setting_write (zip pumps (pump_settings c)))
  = control_writes pipes pumps c.
Proof.
  unfold control_writes. cbn [filter is_control_write]. rewrite filter_app.
  cbn [filter is_control_write]. f_equal; apply filter_all, forallb_forall;
    intros e He; apply in_map_iff in He; destruct He as (p & <- & _); reflexivity.
Qed.

(** C3: in every cycle that reaches the hydraulic step, the trace splits at the
    one call of runHydraulicAnalysis: before it lie no telemetry reads, and the
    control writes are exactly one setLinkStatus per (pipe index, decoded
    status) pair in pipe-index order followed by one setLinkSettings per (pump
    index, decoded setting) pair in pump-index order, all of them returned;
    after it lie no control writes, so every telemetry read comes strictly
    after the step.  A cycle that fails before the step reads no telemetry. *)
Theorem cycle_order (s : locals * W) :
  (forallb before_step (trace_of (cycle env s)) = true
   /\ forall a, result_of (cycle env s) <> Ok a)
  \/ exists before rep after bits registers pipes pumps,
      trace_of (cycle env s) = before ++ Call runHydraulicAnalysis rep :: after
      /\ forallb before_step before = true
      /\ forallb after_step after = true
      /\ In (Call (read_coils 0 100) (Returns bits)) before
      /\ In (Call (read_holding_registers 0 100) (Returns registers)) before
      /\ In (Call getLinkPipeIndex (Returns pipes)) before
      /\ In (Call getLinkPumpIndex (Returns pumps)) before
      /\ filter is_control_write before
         = control_writes pipes pumps (decoded bits registers).
Proof.
  pose proof (run_eta (cycle env) s) as H. unfold cycle in H at 1.
  set (t := trace_of (cycle env s)) in *. set (r := result_of (cycle env s)) in *.
  clearbody t r.
  (* the horizon is extended *)
  apply bind_inv in H.
  destruct H as [(s1 & t1 & duration & k1 & H1 & H & ->)|[(e & H1 & ->)|(H1 & ->)]];
    apply perform_inv in H1; destruct H1 as (w1 & rep1 & _ & _ & -> & _);
    [|left; split; [reflexivity|discriminate]..].
  apply bind_inv in H.
  destruct H as [(s2 & t2 & step & k2 & H2 & H & ->)|[(e & H2 & ->)|(H2 & ->)]];
    apply perform_inv in H2; destruct H2 as (w2 & rep2 & _ & _ & -> & _);
    [|left; split; [reflexivity|discriminate]..].
  apply bind_inv in H.
  destruct H as [(s3 & t3 & [] & k3 & H3 & H & ->)|[(e & H3 & ->)|(H3 & ->)]];
    apply perform_inv in H3; destruct H3 as (w3 & rep3 & _ & _ & -> & _);
    [|left; split; [reflexivity|discriminate]..].
  (* the controls are read and applied *)
  apply bind_inv in H.
  destruct H as [(s4 & t4 & c & k4 & H4 & H & ->)|[(e & H4 & ->)|(H4 & ->)]];
    pose proof (@get_controls_before _ _ _ _ H4) as (_ & F4 & _);
    [|left; split; [cbn [app forallb]; rewrite F4; reflexivity|discriminate]..].
  apply bind_inv in H.
  destruct H as [(s5 & t5 & [] & k5 & H5 & H & ->)|[(e & H5 & ->)|(H5 & ->)]];
    pose proof (@set_controls_before _ _ _ _ _ H5) as (_ & F5 & _);
    [|left; split;
      [cbn [app forallb]; rewrite forallb_app, F4, F5; reflexivity|discriminate]..].
  (* the step, and what follows it *)
  right.
  assert (R4 : result_of (get_controls env s3) = Ok c) by (rewrite H4; reflexivity).
  destruct (get_controls_returns env s3 R4)
    as (w1' & bits & w2' & registers & _ & _ & T4 & P4 & Q4).
  unfold trace_of in T4. rewrite H4 in T4. cbn in T4. subst t4.
  assert (Hc : c = decoded bits registers).
  { destruct c as [ps qs]. cbn in P4, Q4. subst. reflexivity. }
  destruct (set_controls_run env c s4 H5) as [_ [[_ (pipes & pumps & T5)]|[_ N]]];
    [|exfalso; eapply N; reflexivity].
  assert (exists rep after,
             k5 = Call runHydraulicAnalysis rep :: after
             /\ forallb after_step after = true) as (rep & after & -> & FA).
  { apply bind_inv in H.
    destruct H as [(s6 & t6 & [] & t7 & H6 & H & ->)|[(e & H6 & ->)|(H6 & ->)]];
      apply perform_inv in H6; destruct H6 as (w6 & rep & _ & _ & -> & _);
      exists rep; [|exists []; auto..].
    exists t7. split; [reflexivity|].
    assert (K : helper after_step
                  (d <- read_data env ;; write_data env d ;;
                   perform env nextHydraulicAnalysisStep ;; perform env (sleep 1))).
    { apply helper_bind; [apply read_data_after|intros d].
      apply helper_bind; [apply write_data_after|intros _].
      helper_rules. }
    apply K in H. apply H. }
  exists ([Call getTimeSimulationDuration rep1; Call getTimeHydraulicStep rep2;
           Call (setTimeSimulationDuration (duration + step)) rep3;
           Call (read_coils 0 100) (Returns bits);
           Call (read_holding_registers 0 100) (Returns registers)] ++ t5),
    rep, after, bits, registers, pipes, pumps.
  split; [cbn [app]; reflexivity|].
  split; [cbn [app forallb]; rewrite F5; reflexivity|].
  split; [exact FA|].
  repeat (split; [rewrite T5; in_trace|]).
  cbn [app filter is_control_write]. rewrite T5, filter_control_writes, Hc. reflexivity.
Qed.

End Cycle.

(** ** Connecting to the endpoint *)

Section Connect.

Variable W : Type.
Variable env : forall A : Type, call A -> W -> W * reply A.

Lemma connect_loop_connects (n : nat) :
  forall (l : locals) (w : W) (fuel : nat),
    refuses_then_accepts env n w -> (n < fuel)%nat ->
    exists w', connect_loop env fuel (l, w) = ((l, w'), attempts_trace n, Ok tt).
Proof.
  induction n as [|n IH]; intros l w [|fuel] H Hf; try lia.
  - destruct H as [w' H]. exists w'.
    cbn [connect_loop]. unfold bind, perform. cbn [fst snd]. rewrite H. reflexivity.
  - destruct H as (w1 & w2 & H1 & H2 & H3).
    destruct (IH l w2 fuel H3 ltac:(lia)) as [w' E]. exists w'.
    cbn [connect_loop]. unfold bind at 1. unfold perform at 1. cbn [fst snd].
    rewrite H1. cbn [raised]. unfold bind at 1. unfold perform at 1.
    cbn [fst snd]. rewrite H2. cbn [raised]. rewrite E. reflexivity.
Qed.

Lemma connect_loop_waits (n : nat) :
  forall (l : locals) (w : W) (fuel : nat),
    refuses_then_accepts env n w -> (fuel <= n)%nat ->
    result_of (connect_loop env fuel (l, w)) = Pending.
Proof.
  induction n as [|n IH]; intros l w [|fuel] H Hf; try lia; try reflexivity.
  destruct H as (w1 & w2 & H1 & H2 & H3).
  specialize (IH l w2 fuel H3 ltac:(lia)).
  cbn [connect_loop]. unfold bind at 1. unfold perform at 1. cbn [fst snd].
  rewrite H1. cbn [raised]. unfold bind at 1. unfold perform at 1.
  cbn [fst snd]. rewrite H2. cbn [raised].
  unfold result_of in *. destruct (connect_loop env fuel (l, w2)) as [[s' t] r].
  cbn in *. subst. reflexivity.
Qed.

Lemma attempts_trace_counts (n : nat) :
  List.length (filter is_connect_attempt (attempts_trace n)) = S n
  /\ filter is_wait (attempts_trace n) = repeat (Call (sleep 1) (Returns tt)) n.
Proof.
  induction n as [|n [IH1 IH2]]; [split; reflexivity|].
  cbn. rewrite IH1, IH2. split; reflexivity.
Qed.

(** C4: against an endpoint that refuses the first n connection attempts and
    accepts attempt n+1, setup_client returns normally (it does not raise)
    after exactly n+1 attempts separated by n waits of 1 second each, for every
    n: there is no retry limit.  It does not return earlier: bounded to n
    attempts or fewer, it is still retrying. *)
Theorem setup_client_retries_until_connected (n : nat) (s : locals * W) (w0 : W) :
  env (ModbusTcpClient "openplc" 502) (snd s) = (w0, Returns tt) ->
  refuses_then_accepts env n w0 ->
  (forall fuel, (n < fuel)%nat ->
     result_of (setup_client env fuel s) = Ok tt
     /\ trace_of (setup_client env fuel s)
        = Call (ModbusTcpClient "openplc" 502) (Returns tt) :: attempts_trace n
     /\ List.length (filter is_connect_attempt (trace_of (setup_client env fuel s))) = S n
     /\ filter is_wait (trace_of (setup_client env fuel s))
        = repeat (Call (sleep 1) (Returns tt)) n)
  /\ (forall fuel, (fuel <= n)%nat ->
        result_of (setup_client env fuel s) = Pending).
Proof.
  intros H0 Hn. split; intros fuel Hf.
  - destruct (@connect_loop_connects n (fst s) w0 fuel Hn Hf) as [w' E].
    assert (R : setup_client env fuel s
                = ((fst s, w'),
                   Call (ModbusTcpClient "openplc" 502) (Returns tt) :: attempts_trace n,
                   Ok tt)).
    { unfold setup_client, except_Exception. unfold bind at 1. unfold perform at 1.
      rewrite H0. cbn [raised]. rewrite E. reflexivity. }
    rewrite R. unfold result_of, trace_of. cbn [fst snd].
    cbn [filter is_connect_attempt is_wait].
    destruct (attempts_trace_counts n) as [C1 C2]. auto.
  - pose proof (@connect_loop_waits n (fst s) w0 fuel Hn Hf) as P.
    unfold setup_client, except_Exception. unfold bind at 1. unfold perform at 1.
    rewrite H0. cbn [raised]. unfold result_of in *.
    destruct (connect_loop env fuel (fst s, w0)) as [[s' t] r]. cbn in *. subst.
    reflexivity.
Qed.

End Connect.

(** Scenario D: two failures, then success on the third attempt. *)
Lemma setup_client_retries_until_connected_witness :
  rig_env scenario_D (ModbusTcpClient "openplc" 502) (snd boot)
  = (advance plant0 (ModbusTcpClient "openplc" 502), Returns tt)
  /\ refuses_then_accepts (rig_env scenario_D) 2
       (advance plant0 (ModbusTcpClient "openplc" 502))
  /\ result_of (setup_client (rig_env scenario_D) 3 boot) = Ok tt
  /\ trace_of (setup_client (rig_env scenario_D) 3 boot)
     = [Call (ModbusTcpClient "openplc" 502) (Returns tt);
        Call connect (Returns false); Call (sleep 1) (Returns tt);
        Call connect (Returns false); Call (sleep 1) (Returns tt);
        Call connect (Returns true)]
  /\ result_of (setup_client (rig_env scenario_D) 2 boot) = Pending.
Proof.
  assert (H0 : rig_env scenario_D (ModbusTcpClient "openplc" 502) (snd boot)
               = (advance plant0 (ModbusTcpClient "openplc" 502), Returns tt))
    by reflexivity.
  assert (Hn : refuses_then_accepts (rig_env scenario_D) 2
                 (advance plant0 (ModbusTcpClient "openplc" 502))).
  { cbn. do 2 eexists. split; [reflexivity|]. split; [reflexivity|].
    do 2 eexists. split; [reflexivity|]. split; [reflexivity|].
    eexists. reflexivity. }
  split; [exact H0|]. split; [exact Hn|].
  destruct (@setup_client_retries_until_connected _ (rig_env scenario_D) 2 boot _ H0 Hn)
    as [Hyes Hno].
  destruct (Hyes 3%nat ltac:(lia)) as (R & T & _).
  split; [exact R|]. split; [exact T|]. apply Hno. lia.
Defined.

(** ** Writing telemetry *)

Section Telemetry.

Variable W : Type.
Variable env : forall A : Type, call A -> W -> W * reply A.

Lemma enumerate_from_cons (A : Type) (k : nat) (x : A) (xs : list A) :
  enumerate_from k (x :: xs) = (Z.of_nat k, x) :: enumerate_from (S k) xs.
Proof. reflexivity. Qed.

(** Every run of one block loop: a prefix of the values was packed and
    written, value [i] at [base + 2 i]; then the loop ended, or a call failed. *)
Lemma write_loop_run (base : Z) (values : list float) :
  forall (k : nat) (s s' : locals * W) t r,
    for_each
      (fun '(i, value) =>
         registers <- perform env (convert_to_registers value FLOAT32) ;;
         perform env (write_registers (base + i * 2) registers))
      (enumerate_from k values) s = (s', t, r) ->
    fst s' = fst s
    /\ exists packed tail,
        t = block_trace_from base k values packed ++ tail
        /\ Forall2 (packs env) (firstn (List.length packed) values) packed
        /\ ((r = Ok tt /\ tail = [] /\ List.length packed = List.length values)
            \/ ((forall a, r <> Ok a)
                /\ exists value,
                    nth_error values (List.length packed) = Some value
                    /\ failing_tail env base (k + List.length packed) value tail)).
Proof.
  induction values as [|v vs IH]; intros k s s' t r H.
  - cbv in H. inversion H; subst. split; [reflexivity|].
    exists [], []. split; [reflexivity|]. split; [constructor|]. left. auto.
  - rewrite enumerate_from_cons in H. cbn [for_each] in H.
    apply bind_inv in H.
    destruct H as [(s2 & t12 & [] & t3 & H12 & H3 & ->)|[(e & H12 & ->)|(H12 & ->)]];
      apply bind_inv in H12;
      destruct H12 as [(s1 & t1 & regs & t2 & H1 & H2 & ->)|[(e1 & H1 & E)|(H1 & E)]];
      apply perform_inv in H1; destruct H1 as (w1 & rep1 & Hw1 & -> & -> & R1);
      destruct rep1 as [regs1| |]; try discriminate; cbn in R1;
      try (inversion R1; subst regs1; clear R1;
           apply perform_inv in H2; destruct H2 as (w2 & rep2 & Hw2 & -> & -> & R2);
           destruct rep2 as [[]| |]; try discriminate).
    + (* both calls returned: the rest of the loop *)
      apply IH in H3. destruct H3 as (L & packed & tail & -> & P & E).
      split; [exact L|]. exists (regs :: packed), tail.
      split; [reflexivity|]. split.
      * cbn [List.length firstn]. constructor; [|exact P]. exists (snd s), w1. exact Hw1.
      * destruct E as [(-> & -> & Hl)|(N & value & Hv & T)].
        -- left. cbn [List.length]. auto.
        -- right. split; [exact N|]. exists value. split; [exact Hv|].
           cbn [List.length]. replace (k + S (List.length packed))%nat
             with (S k + List.length packed)%nat by lia. exact T.
    + (* the write failed *)
      split; [reflexivity|]. exists []. eexists. split; [reflexivity|].
      split; [constructor|]. right. split; [discriminate|]. exists v.
      split; [reflexivity|]. right. exists regs, (Fails msg).
      split; [exists (snd s), w1; exact Hw1|]. rewrite Nat.add_0_r. auto.
    + split; [reflexivity|]. exists []. eexists. split; [reflexivity|].
      split; [constructor|]. right. split; [discriminate|]. exists v.
      split; [reflexivity|]. right. exists regs, Interrupted.
      split; [exists (snd s), w1; exact Hw1|]. rewrite Nat.add_0_r. auto.
    + (* the conversion failed *)
      split; [reflexivity|]. exists []. eexists. split; [reflexivity|].
      split; [constructor|]. right. split; [discriminate|]. exists v.
      split; [reflexivity|]. left. exists (Fails msg). auto.
    + split; [reflexivity|]. exists []. eexists. split; [reflexivity|].
      split; [constructor|]. right. split; [discriminate|]. exists v.
      split; [reflexivity|]. left. exists Interrupted. auto.
Qed.

Lemma comprehension_run (X : Type) (getter : Z -> call X) (indices : list Z) :
  forall (s s' : locals * W) t values,
    comprehension (fun i => perform env (getter i)) indices s = (s', t, Ok values) ->
    List.length values = List.length indices /\ t = reads getter indices values.
Proof.
  induction indices as [|i indices IH]; intros s s' t values H.
  - cbv in H. inversion H; subst. split; reflexivity.
  - cbn [comprehension] in H. apply bind_inv in H.
    destruct H as [(s1 & t1 & y & t2 & H1 & H2 & ->)|[(e & _ & E)|(_ & E)]];
      try discriminate.
    apply perform_inv in H1. destruct H1 as (w1 & rep & _ & -> & -> & R).
    destruct rep as [y'| |]; try discriminate. inversion R; subst y'. clear R.
    apply bind_inv in H2.
    destruct H2 as [(s2 & t3 & ys & t4 & H2 & H3 & ->)|[(e & _ & E)|(_ & E)]];
      try discriminate.
    inversion H3; subst. apply IH in H2. destruct H2 as [L ->].
    split; [cbn; lia|]. rewrite app_nil_r. reflexivity.
Qed.

(** A successful [read_data]: three index queries, each followed by one read
    per index, in index order. *)
Lemma read_data_returns (s : locals * W) (d : data) :
  result_of (read_data env s) = Ok d ->
  exists junctions tanks pumps,
    trace_of (read_data env s) =
      Call getNodeJunctionIndex (Returns junctions)
      :: reads getNodePressure junctions (junction_pressures d)
      ++ Call getNodeTankIndex (Returns tanks)
      :: reads getNodeHydraulicHead tanks (tank_heads d)
      ++ Call getLinkPumpIndex (Returns pumps)
      :: reads getLinkFlows pumps (pump_flows d)
    /\ List.length (junction_pressures d) = List.length junctions
    /\ List.length (tank_heads d) = List.length tanks
    /\ List.length (pump_flows d) = List.length pumps.
Proof.
  unfold result_of, trace_of. destruct (read_data env s) as [[s' t] r] eqn:H.
  cbn [fst snd]. intros ->.
  unfold read_data in H. apply except_Exception_inv in H.
  destruct H as [(s0 & t0 & msg & t2 & _ & H2 & _)|(H & _)].
  { apply report_inv in H2. destruct H2 as (_ & _ & E). discriminate. }
  apply bind_inv in H.
  destruct H as [(s1 & t1 & junctions & k1 & H1 & H & ->)|[(e & _ & E)|(_ & E)]];
    try discriminate.
  apply perform_inv in H1. destruct H1 as (w1 & rep & _ & -> & -> & R1).
  destruct rep as [x| |]; try discriminate. inversion R1; subst x. clear R1.
  apply bind_inv in H.
  destruct H as [(s2 & t2 & pressures & k2 & H2 & H & ->)|[(e & _ & E)|(_ & E)]];
    try discriminate.
  apply comprehension_run in H2. destruct H2 as [L2 ->].
  apply bind_inv in H.
  destruct H as [(s3 & t3 & tanks & k3 & H3 & H & ->)|[(e & _ & E)|(_ & E)]];
    try discriminate.
  apply perform_inv in H3. destruct H3 as (w3 & rep & _ & -> & -> & R3).
  destruct rep as [x| |]; try discriminate. inversion R3; subst x. clear R3.
  apply bind_inv in H.
  destruct H as [(s4 & t4 & heads & k4 & H4 & H & ->)|[(e & _ & E)|(_ & E)]];
    try discriminate.
  apply comprehension_run in H4. destruct H4 as [L4 ->].
  apply bind_inv in H.
  destruct H as [(s5 & t5 & pumps & k5 & H5 & H & ->)|[(e & _ & E)|(_ & E)]];
    try discriminate.
  apply perform_inv in H5. destruct H5 as (w5 & rep & _ & -> & -> & R5).
  destruct rep as [x| |]; try discriminate. inversion R5; subst x. clear R5.
  apply bind_inv in H.
  destruct H as [(s6 & t6 & flows & k6 & H6 & H & ->)|[(e & _ & E)|(_ & E)]];
    try discriminate.
  apply comprehension_run in H6. destruct H6 as [L6 ->].
  inversion H; subst. cbn [junction_pressures tank_heads pump_flows].
  exists junctions, tanks, pumps. rewrite app_nil_r.
  split; [|auto]. cbn [app]. reflexivity.
Qed.

(** A successful block: every value was packed and written. *)
Lemma write_block_returns (base : Z) (values : list float) (s s' : locals * W) t :
  write_block env base values s = (s', t, Ok tt) ->
  exists packed, t = block_trace base values packed /\ Forall2 (packs env) values packed.
Proof.
  intros H. apply (write_loop_run base values 0) in H.
  destruct H as (_ & packed & tail & -> & P & [(_ & -> & L)|(N & _)]).
  - exists packed. rewrite app_nil_r. split; [reflexivity|].
    rewrite L, firstn_all in P. exact P.
  - exfalso. eapply N. reflexivity.
Qed.

(** Where the [i]-th value of a block goes. *)
Lemma block_trace_nth (base : Z) (values : list float) (packed : list (list Z)) :
  forall (k i : nat) (value : float) (registers : list Z),
    nth_error values i = Some value ->
    nth_error packed i = Some registers ->
    nth_error (block_trace_from base k values packed) (2 * i)
    = Some (Call (convert_to_registers value FLOAT32) (Returns registers))
    /\ nth_error (block_trace_from base k values packed) (2 * i + 1)
       = Some (Call (write_registers (base + Z.of_nat (k + i) * 2) registers) (Returns tt)).
Proof.
  revert packed. induction values as [|v vs IH]; intros [|p ps] k [|i] value registers Hv Hp;
    try discriminate.
  - cbn in Hv, Hp. inversion Hv; inversion Hp; subst.
    rewrite Nat.add_0_r. split; reflexivity.
  - cbn in Hv, Hp. destruct (IH ps (S k) i value registers Hv Hp) as [E1 E2].
    replace (k + S i)%nat with (S k + i)%nat by lia.
    replace (2 * S i)%nat with (S (S (2 * i))) by lia.
    split; [exact E1|exact E2].
Qed.

(** C7: a telemetry frame is read in index order (one getNodePressure per
    junction index, one getNodeHydraulicHead per tank index, one getLinkFlows per
    pump index) and written value by value: the i-th junction pressure is
    packed as FLOAT32 and written at register 100 + 2i, the i-th tank head at
    200 + 2i, the i-th pump flow at 300 + 2i, junctions first, then tanks, then
    pumps; with a codec that packs a FLOAT32 into two registers, each value
    occupies the two consecutive registers base + 2i and base + 2i + 1. *)
Theorem telemetry_layout (s1 s2 : locals * W) (d : data) :
  result_of (read_data env s1) = Ok d ->
  result_of (write_data env d s2) = Ok tt ->
  (exists junctions tanks pumps,
      trace_of (read_data env s1) =
        Call getNodeJunctionIndex (Returns junctions)
        :: reads getNodePressure junctions (junction_pressures d)
        ++ Call getNodeTankIndex (Returns tanks)
        :: reads getNodeHydraulicHead tanks (tank_heads d)
        ++ Call getLinkPumpIndex (Returns pumps)
        :: reads getLinkFlows pumps (pump_flows d)
      /\ List.length (junction_pressures d) = List.length junctions
      /\ List.length (tank_heads d) = List.length tanks
      /\ List.length (pump_flows d) = List.length pumps)
  /\ exists pj pt pp,
      trace_of (write_data env d s2) =
        block_trace 100 (junction_pressures d) pj
        ++ block_trace 200 (tank_heads d) pt
        ++ block_trace 300 (pump_flows d) pp
      /\ Forall2 (packs env) (junction_pressures d) pj
      /\ Forall2 (packs env) (tank_heads d) pt
      /\ Forall2 (packs env) (pump_flows d) pp
      /\ (forall base values packed i value registers,
             In (base, values, packed)
                [(100, junction_pressures d, pj); (200, tank_heads d, pt);
                 (300, pump_flows d, pp)] ->
             nth_error values i = Some value ->
             nth_error packed i = Some registers ->
             nth_error (block_trace base values packed) (2 * i + 1)
             = Some (Call (write_registers (base + Z.of_nat i * 2) registers) (Returns tt))
             /\ (codec_packs_by_type env ->
                 footprint (Call (write_registers (base + Z.of_nat i * 2) registers)
                                 (Returns tt))
                 = [(HoldingRegisters, base + Z.of_nat i * 2);
                    (HoldingRegisters, base + Z.of_nat i * 2 + 1)])).
Proof.
  intros Rr Rw. split; [exact (read_data_returns s1 Rr)|].
  revert Rw. unfold result_of, trace_of.
  destruct (write_data env d s2) as [[s3 t] r] eqn:H. cbn [fst snd]. intros ->.
  unfold write_data in H. apply except_Exception_inv in H.
  destruct H as [(s' & t1 & msg & t2 & _ & H2 & _)|(H & _)].
  { apply report_inv in H2. destruct H2 as (_ & _ & E). discriminate. }
  apply bind_inv in H.
  destruct H as [(sa & ta & [] & ka & Ha & H & ->)|[(e & _ & E)|(_ & E)]];
    try discriminate.
  apply bind_inv in H.
  destruct H as [(sb & tb & [] & kb & Hb & Hc & ->)|[(e & _ & E)|(_ & E)]];
    try discriminate.
  apply write_block_returns in Ha, Hb, Hc.
  destruct Ha as (pj & -> & Pj), Hb as (pt & -> & Pt), Hc as (pp & -> & Pp).
  exists pj, pt, pp. repeat (split; [solve [auto]|]).
  intros base values packed i value registers Hin Hv Hp. split.
  - destruct (block_trace_nth base values packed 0 i Hv Hp) as [_ E]. exact E.
  - intros Hcodec.
    assert (P : Forall2 (packs env) values packed).
    { cbn [In] in Hin. destruct Hin as [E|[E|[E|[]]]]; inversion E; subst; assumption. }
    assert (L : List.length registers = 2%nat).
    { clear - P Hv Hp Hcodec. revert i Hv Hp.
      induction P as [|v r vs rs Pv _ IH]; intros [|i] Hv Hp; try discriminate.
      - cbn in Hp. inversion Hp; subst. destruct Pv as (w & w' & Pv).
        apply Hcodec in Pv. exact Pv.
      - apply (IH i); assumption. }
    cbn [footprint]. rewrite L. cbn. rewrite Z.add_0_r. reflexivity.
Qed.

End Telemetry.

Lemma scenario_A_telemetry :
  result_of (read_data (rig_env scenario_A) boot) = Ok scenario_A_data
  /\ result_of (write_data (rig_env scenario_A) scenario_A_data boot) = Ok tt.
Proof. split; vm_compute; reflexivity. Qed.

Lemma telemetry_layout_witness :
  result_of (read_data (rig_env scenario_A) boot) = Ok scenario_A_data
  /\ result_of (write_data (rig_env scenario_A) scenario_A_data boot) = Ok tt
  /\ exists pj pt pp,
      trace_of (write_data (rig_env scenario_A) scenario_A_data boot) =
        block_trace 100 (junction_pressures scenario_A_data) pj
        ++ block_trace 200 (tank_heads scenario_A_data) pt
        ++ block_trace 300 (pump_flows scenario_A_data) pp
      /\ Forall2 (packs (rig_env scenario_A)) (junction_pressures scenario_A_data) pj
      /\ Forall2 (packs (rig_env scenario_A)) (tank_heads scenario_A_data) pt
      /\ Forall2 (packs (rig_env scenario_A)) (pump_flows scenario_A_data) pp
      /\ trace_of (write_data (rig_env scenario_A) scenario_A_data boot) =
         [Call (convert_to_registers 1.5%float FLOAT32) (Returns [16320; 0]);
          Call (write_registers 100 [16320; 0]) (Returns tt);
          Call (convert_to_registers 100%float FLOAT32) (Returns [17096; 0]);
          Call (write_registers 200 [17096; 0]) (Returns tt);
          Call (convert_to_registers 0.25%float FLOAT32) (Returns [16000; 0]);
          Call (write_registers 300 [16000; 0]) (Returns tt)].
Proof.
  destruct scenario_A_telemetry as [Rr Rw].
  split; [exact Rr|]. split; [exact Rw|].
  destruct (@telemetry_layout _ (rig_env scenario_A) boot boot _ Rr Rw)
    as [_ (pj & pt & pp & T & Pj & Pt & Pp & _)].
  exists pj, pt, pp. repeat (split; [assumption|]). vm_compute. reflexivity.
Defined.

(** ** The address ranges of the quantity classes *)

Section Ranges.

Variable W : Type.
Variable env : forall A : Type, call A -> W -> W * reply A.










End Ranges.




(** ** The stages of the [try] block *)

Section Stages.

Variable W : Type.
Variable env : forall A : Type, call A -> W -> W * reply A.

Lemma connect_loop_stage (fuel : nat) : helper of_setup_client (connect_loop env fuel).
Proof.
  induction fuel as [|fuel IH]; cbn [connect_loop]; [apply helper_pending|].
  apply helper_bind; [helper_rules|]. intros [|]; [apply helper_ret|].
  apply helper_bind; [helper_rules|]. intros _. exact IH.
Qed.

Lemma setup_client_stage (fuel : nat) : helper of_setup_client (setup_client env fuel).
Proof.
  unfold setup_client. apply helper_except; [|intros msg; helper_rules].
  apply helper_bind; [helper_rules|]. intros _. apply connect_loop_stage.
Qed.

Lemma setup_epanet_stage (network_file : string) :
  helper of_setup_epanet (setup_epanet env network_file).
Proof. unfold setup_epanet. helper_rules. Qed.

Lemma print_overview_stage : helper of_running (print_overview env).
Proof. unfold print_overview. helper_rules. Qed.

Lemma cycle_stage : helper of_running (cycle env).
Proof.
  unfold cycle, get_controls, set_controls, read_data, write_data, write_block.
  helper_rules.
Qed.

Lemma run_forever_stage (fuel : nat) : helper of_running (run_forever env fuel).
Proof.
  induction fuel as [|fuel IH]; cbn [run_forever]; [apply helper_pending|].
  apply helper_bind; [apply cycle_stage|]. intros _. exact IH.
Qed.

Lemma parse_arguments_stage (argv : list string) :
  helper of_running (@parse_arguments W argv).
Proof.
  unfold parse_arguments.
  destruct (negb (List.length argv =? 2)%nat || negb (endswith (nth 1 argv "") ".inp"));
    [|apply helper_ret].
  apply helper_bind; [helper_rules|]. intros _. destruct argv as [|argv0 rest];
    helper_rules.
Qed.

(** The loop of cycles never ends normally. *)
Lemma run_forever_never_returns (fuel : nat) (s s' : locals * W) t r :
  run_forever env fuel s = (s', t, r) -> is_ok r = false.
Proof.
  revert s s' t r. induction fuel as [|fuel IH]; intros s s' t r H.
  - inversion H. reflexivity.
  - cbn [run_forever] in H. apply bind_inv in H.
    destruct H as [(s1 & t1 & a & t2 & _ & H & _)|[(e & _ & ->)|(_ & ->)]];
      [eapply IH; exact H|reflexivity..].
Qed.

(** The connection loop ends normally exactly when an attempt was accepted. *)
Lemma connect_loop_connected (fuel : nat) (s s' : locals * W) t r :
  connect_loop env fuel s = (s', t, r) -> existsb connected t = is_ok r.
Proof.
  revert s s' t r. induction fuel as [|fuel IH]; intros s s' t r H.
  - inversion H. reflexivity.
  - cbn [connect_loop] in H. apply bind_inv in H.
    destruct H as [(s1 & t1 & ok & t2 & H1 & H & ->)|[(e & H1 & ->)|(H1 & ->)]];
      apply perform_inv in H1; destruct H1 as (w1 & rep & _ & _ & -> & R);
      destruct rep as [b| |]; try discriminate; try reflexivity.
    inversion R; subst b. destruct ok.
    + inversion H; subst. reflexivity.
    + apply bind_inv in H.
      destruct H as [(s2 & t3 & [] & t4 & H2 & H & ->)|[(e & H2 & ->)|(H2 & ->)]];
        apply perform_inv in H2; destruct H2 as (w2 & rep & _ & _ & -> & R2);
        destruct rep as [[]| |]; try discriminate; try reflexivity.
      apply IH in H. cbn. exact H.
Qed.

Lemma setup_client_connected (fuel : nat) (s s' : locals * W) t r :
  setup_client env fuel s = (s', t, r) -> existsb connected t = is_ok r.
Proof.
  unfold setup_client. intros H. apply except_Exception_inv in H.
  assert (B : forall s s' t r,
             (perform env (ModbusTcpClient "openplc" 502) ;; connect_loop env fuel) s
             = (s', t, r) -> existsb connected t = is_ok r).
  { clear. intros s s' t r H. apply bind_inv in H.
    destruct H as [(s1 & t1 & [] & t2 & H1 & H & ->)|[(e & H1 & ->)|(H1 & ->)]];
      apply perform_inv in H1; destruct H1 as (w1 & rep & _ & _ & -> & R);
      destruct rep as [[]| |]; try discriminate; try reflexivity.
    apply connect_loop_connected in H. cbn. exact H. }
  destruct H as [(s1 & t1 & msg & t2 & H1 & H2 & ->)|(H1 & _)].
  - apply B in H1. apply report_inv in H2. destruct H2 as (_ & -> & ->).
    rewrite existsb_app, H1. reflexivity.
  - apply B in H1. exact H1.
Qed.

(** The engine set-up ends normally exactly when its last call returned. *)
Lemma setup_epanet_ready (network_file : string) (s s' : locals * W) t r :
  setup_epanet env network_file s = (s', t, r) -> existsb engine_ready t = is_ok r.
Proof.
  unfold setup_epanet. intros H. apply except_Exception_inv in H.
  assert (B : forall s s' t r,
             (perform env (epanet network_file) ;;
              perform env (setTimeSimulationDuration 10) ;;
              perform env (setTimeHydraulicStep 1)) s = (s', t, r) ->
             existsb engine_ready t = is_ok r).
  { clear. intros s s' t r H. apply bind_inv in H.
    destruct H as [(s1 & t1 & [] & t2 & H1 & H & ->)|[(e & H1 & ->)|(H1 & ->)]];
      apply perform_inv in H1; destruct H1 as (w1 & rep & _ & _ & -> & R);
      destruct rep as [[]| |]; try discriminate; try reflexivity.
    apply bind_inv in H.
    destruct H as [(s2 & t3 & [] & t4 & H2 & H & ->)|[(e & H2 & ->)|(H2 & ->)]];
      apply perform_inv in H2; destruct H2 as (w2 & rep & _ & _ & -> & R2);
      destruct rep as [[]| |]; try discriminate; try reflexivity.
    apply perform_inv in H. destruct H as (w3 & rep & _ & _ & -> & ->).
    destruct rep as [[]| |]; reflexivity. }
  destruct H as [(s1 & t1 & msg & t2 & H1 & H2 & ->)|(H1 & _)].
  - apply B in H1. apply report_inv in H2. destruct H2 as (_ & -> & ->).
    rewrite existsb_app, H1. reflexivity.
  - apply B in H1. exact H1.
Qed.

End Stages.

(** ** The [try] block *)

Section TryBlock.

Variable W : Type.
Variable env : forall A : Type, call A -> W -> W * reply A.

Lemma main_try_run (fuel : nat) (network_file : string) (s s' : locals * W) t r :
  main_try env fuel network_file s = (s', t, r) ->
  fst s = no_locals ->
  try_block_facts (fst s') t r.
Proof.
  unfold main_try, try_block_facts. intros H L0.
  (* client = setup_client() *)
  apply bind_inv in H.
  destruct H as [(s1 & t1 & [] & k1 & H1 & H & ->)|[(e & H1 & ->)|(H1 & ->)]];
    pose proof (@setup_client_connected W env _ _ _ _ _ H1) as C1;
    apply setup_client_stage in H1; destruct H1 as (L1 & F1 & I1 & X1);
    apply of_setup_client_facts in F1; destruct F1 as (Q1 & E1 & A1);
    rewrite L0 in L1;
    [|rewrite L1, ?Q1, ?I1, ?E1, ?A1, ?C1; cbn; repeat split; auto; discriminate..].
  apply bind_inv in H.
  destruct H as [(s2 & t2 & [] & k2 & H2 & H & ->)|[(e & H2 & _)|(H2 & _)]];
    [|inversion H2..].
  inversion H2; subst s2 t2; clear H2. rewrite L1 in H. cbn [en no_locals] in H.
  (* en = setup_epanet(network_file) *)
  apply bind_inv in H.
  destruct H as [(s3 & t3 & [] & k3 & H3 & H & ->)|[(e & H3 & ->)|(H3 & ->)]];
    pose proof (@setup_epanet_ready W env _ _ _ _ _ H3) as E3;
    apply setup_epanet_stage in H3; destruct H3 as (L3 & F3 & I3 & X3);
    apply of_setup_epanet_facts in F3; destruct F3 as (Q3 & C3 & A3);
    cbn [fst] in L3;
    [|rewrite L3, !forallb_app, !existsb_app, ?Q1, ?I1, ?E1, ?A1, ?C1,
        ?Q3, ?I3, ?E3, ?A3, ?C3; cbn; repeat split; auto; discriminate..].
  apply bind_inv in H.
  destruct H as [(s4 & t4 & [] & k4 & H4 & H & ->)|[(e & H4 & _)|(H4 & _)]];
    [|inversion H4..].
  inversion H4; subst s4 t4; clear H4. rewrite L3 in H. cbn [client] in H.
  (* print_overview(en) *)
  apply bind_inv in H.
  destruct H as [(s5 & t5 & [] & k5 & H5 & H & ->)|[(e & H5 & ->)|(H5 & ->)]];
    apply print_overview_stage in H5; destruct H5 as (L5 & F5 & I5 & X5);
    apply of_running_facts in F5; destruct F5 as (Q5 & C5 & E5 & A5);
    cbn [fst] in L5;
    [|rewrite L5, !forallb_app, !existsb_app, ?Q1, ?I1, ?E1, ?A1, ?C1,
        ?Q3, ?I3, ?E3, ?A3, ?C3, ?Q5, ?I5, ?E5, ?A5, ?C5;
      cbn; repeat split; auto; discriminate..].
  (* en.openHydraulicAnalysis() *)
  apply bind_inv in H.
  destruct H as [(s6 & t6 & [] & k6 & H6 & H & ->)|[(e & H6 & ->)|(H6 & ->)]];
    apply (helper_perform env of_running openHydraulicAnalysis (fun _ => eq_refl)) in H6;
    destruct H6 as (L6 & F6 & I6 & X6);
    apply of_running_facts in F6; destruct F6 as (Q6 & C6 & E6 & A6);
    rewrite L5 in L6;
    [|rewrite L6, !forallb_app, !existsb_app, ?Q1, ?I1, ?E1, ?A1, ?C1,
        ?Q3, ?I3, ?E3, ?A3, ?C3, ?Q5, ?I5, ?E5, ?A5, ?C5, ?Q6, ?I6, ?E6, ?A6, ?C6;
      cbn; repeat split; auto; discriminate..].
  (* en.initializeHydraulicAnalysis() *)
  apply bind_inv in H.
  destruct H as [(s7 & t7 & [] & k7 & H7 & H & ->)|[(e & H7 & ->)|(H7 & ->)]];
    apply (helper_perform env of_start initializeHydraulicAnalysis (fun _ => eq_refl)) in H7;
    destruct H7 as (L7 & F7 & I7 & X7);
    apply of_start_facts in F7; destruct F7 as (Q7 & C7 & E7);
    rewrite L6 in L7;
    [|rewrite L7, !forallb_app, !existsb_app, ?Q1, ?I1, ?E1, ?A1, ?C1,
        ?Q3, ?I3, ?E3, ?A3, ?C3, ?Q5, ?I5, ?E5, ?A5, ?C5, ?Q6, ?I6, ?E6, ?A6, ?C6,
        ?Q7, ?I7, ?E7, ?C7;
      cbn; repeat split; auto; discriminate..].
  (* while True *)
  pose proof (@run_forever_never_returns W env _ _ _ _ _ H) as N8.
  apply run_forever_stage in H. destruct H as (L8 & F8 & I8 & X8).
  apply of_running_facts in F8. destruct F8 as (Q8 & C8 & E8 & A8).
  rewrite L7 in L8.
  rewrite L8, !forallb_app, !existsb_app, ?Q1, ?I1, ?E1, ?A1, ?C1,
    ?Q3, ?I3, ?E3, ?A3, ?C3, ?Q5, ?I5, ?E5, ?A5, ?C5, ?Q6, ?I6, ?E6, ?A6, ?C6,
    ?Q7, ?I7, ?E7, ?C7, ?Q8, ?I8, ?E8, ?A8, ?C8.
  cbn. repeat split; auto.
Qed.

End TryBlock.

(** ** The [finally] block and the whole of [main] *)

Section Main.

Variable W : Type.
Variable env : forall A : Type, call A -> W -> W * reply A.

Lemma report_run (A : Type) (line : string) (code : Z) (s : locals * W) :
  (print line ;; sys_exit code) s = (s, [Printed line], @Raise A (SystemExit code)).
Proof. reflexivity. Qed.

Lemma main_finally_run (s s' : locals * W) t r :
  main_finally env s = (s', t, r) ->
  exists r1 r2 r3,
    t = drain_trace (fst s) r1 r2 r3 /\ r = drain_result (fst s) r1 r2 r3.
Proof.
  unfold main_finally, drain_trace, drain_result, bind, get_locals, perform, ret.
  destruct s as [[[|] [|]] w]; cbn [fst snd client en].
  - destruct (env close w) as [w1 [[]| |]]; cbn.
    + destruct (env closeHydraulicAnalysis w1) as [w2 [[]| |]]; cbn.
      * destruct (env unload w2) as [w3 rep3]. intros H; inversion H; subst.
        exists (Returns tt), (Returns tt), rep3. auto.
      * intros H; inversion H; subst.
        exists (Returns tt), (Fails msg), (Returns tt). auto.
      * intros H; inversion H; subst.
        exists (Returns tt), Interrupted, (Returns tt). auto.
    + intros H; inversion H; subst. exists (Fails msg), (Returns tt), (Returns tt). auto.
    + intros H; inversion H; subst. exists Interrupted, (Returns tt), (Returns tt). auto.
  - destruct (env close w) as [w1 [[]| |]]; cbn; intros H; inversion H; subst.
    + exists (Returns tt), (Returns tt), (Returns tt). auto.
    + exists (Fails msg), (Returns tt), (Returns tt). auto.
    + exists Interrupted, (Returns tt), (Returns tt). auto.
  - destruct (env closeHydraulicAnalysis w) as [w2 [[]| |]]; cbn.
    + destruct (env unload w2) as [w3 rep3]. intros H; inversion H; subst.
      exists (Returns tt), (Returns tt), rep3. auto.
    + intros H; inversion H; subst.
      exists (Returns tt), (Fails msg), (Returns tt). auto.
    + intros H; inversion H; subst.
      exists (Returns tt), Interrupted, (Returns tt). auto.
  - intros H; inversion H; subst.
    exists (Returns tt), (Returns tt), (Returns tt). auto.
Qed.

Lemma main_run (fuel : nat) (argv : list string) (s s' : locals * W) t r :
  main env fuel argv s = (s', t, r) ->
  refused_arguments t r \/ past_arguments t r.
Proof.
  unfold main. intros H. apply bind_inv in H.
  destruct H as [(s0 & t0 & [] & k0 & H0 & H & ->)|[(e & H0 & _)|(H0 & _)]];
    [|inversion H0..].
  inversion H0; subst s0 t0; clear H0. cbn [app].
  apply bind_inv in H.
  destruct H as [(s1 & t1 & nf & k1 & H1 & H & ->)|[(e & H1 & ->)|(H1 & ->)]].
  - (* the arguments were accepted: nothing was printed *)
    right.
    assert (T1 : t1 = [] /\ fst s1 = no_locals).
    { unfold parse_arguments in H1.
      destruct (negb (List.length argv =? 2)%nat || negb (endswith (nth 1 argv "") ".inp")).
      - apply bind_inv in H1.
        destruct H1 as [(? & ? & ? & ? & Hp & Hq & ?)|[(? & Hp & ?)|(Hp & ?)]];
          [|inversion Hp..].
        destruct argv; [inversion Hq|].
        apply bind_inv in Hq.
        destruct Hq as [(? & ? & ? & ? & _ & Hq & ?)|[(? & Hq & ?)|(Hq & ?)]];
          inversion Hq.
      - inversion H1; subst. auto. }
    destruct T1 as [-> L1]. cbn [app].
    unfold try_except_finally in H.
    destruct (main_try env fuel nf s1) as [[s2 tb] rb] eqn:Hb.
    apply main_try_run in Hb; [|exact L1].
    exists (fst s2), tb, rb. split; [exact Hb|].
    destruct rb as [[]|[msg| |code]|].
    + destruct Hb as (_ & _ & _ & N & _). discriminate.
    + rewrite report_run in H. cbn beta iota zeta in H.
      destruct (main_finally env s2) as [[s3 td] rd] eqn:Hd.
      inversion H; subst. apply main_finally_run in Hd.
      destruct Hd as (r1 & r2 & r3 & -> & ->).
      right. split; [discriminate|]. exists r1, r2, r3. auto.
    + rewrite report_run in H. cbn beta iota zeta in H.
      destruct (main_finally env s2) as [[s3 td] rd] eqn:Hd.
      inversion H; subst. apply main_finally_run in Hd.
      destruct Hd as (r1 & r2 & r3 & -> & ->).
      right. split; [discriminate|]. exists r1, r2, r3. auto.
    + cbn beta iota zeta in H.
      destruct (main_finally env s2) as [[s3 td] rd] eqn:Hd.
      inversion H; subst. apply main_finally_run in Hd.
      destruct Hd as (r1 & r2 & r3 & -> & ->).
      right. split; [discriminate|]. exists r1, r2, r3. auto.
    + cbn beta iota zeta in H. inversion H; subst. left. rewrite app_nil_r. auto.
  - (* the arguments were refused *)
    left. unfold parse_arguments in H1.
    destruct (negb (List.length argv =? 2)%nat || negb (endswith (nth 1 argv "") ".inp"));
      [|inversion H1].
    apply bind_inv in H1.
    destruct H1 as [(? & ? & [] & ? & Hp & Hq & ->)|[(? & Hp & ?)|(Hp & ?)]];
      [|inversion Hp..].
    inversion Hp; subst. destruct argv as [|argv0 rest].
    + inversion Hq; subst. split; [|split; [reflexivity|right; eauto]].
      intros e0 [<-|[]]. eauto.
    + apply bind_inv in Hq.
      destruct Hq as [(? & ? & [] & ? & Hq & Hr & ->)|[(? & Hq & ?)|(Hq & ?)]];
        [|inversion Hq..].
      inversion Hq; subst. inversion Hr; subst.
      split; [|split; [reflexivity|left; reflexivity]].
      intros e0 [<-|[<-|[]]]; eauto.
  - exfalso. unfold parse_arguments in H1.
    destruct (negb (List.length argv =? 2)%nat || negb (endswith (nth 1 argv "") ".inp"));
      [|inversion H1].
    apply bind_inv in H1.
    destruct H1 as [(? & ? & [] & ? & Hp & Hq & ?)|[(? & Hp & ?)|(Hp & ?)]];
      [|inversion Hp..].
    destruct argv; [inversion Hq|].
    apply bind_inv in Hq.
    destruct Hq as [(? & ? & ? & ? & _ & Hq & ?)|[(? & Hq & ?)|(Hq & ?)]];
      inversion Hq.
Qed.

End Main.

(** ** How the process ends *)

Section Exit.

Variable W : Type.
Variable env : forall A : Type, call A -> W -> W * reply A.

(** C8, as the code has it: when no draining call raises, the process exits
    with status 0 exactly when a KeyboardInterrupt was delivered (an interrupt
    does end the process, and then, and only then, the stopped-by-user line is
    printed), and a process that ends in any other way exits with status 1;
    after an interrupt during the cycles, the last events are that line and
    then one close of the link, one closeHydraulicAnalysis and one unload, and
    no draining call comes earlier. *)
Theorem exit_status_after_clean_draining (fuel : nat) (argv : list string)
        (s : locals * W) :
  drains_cleanly (trace_of (main env fuel argv s)) = true ->
  (exit_status (result_of (main env fuel argv s)) = Some 0
   <-> existsb interrupts (trace_of (main env fuel argv s)) = true)
  /\ (result_of (main env fuel argv s) <> Pending ->
      existsb interrupts (trace_of (main env fuel argv s)) = false ->
      exit_status (result_of (main env fuel argv s)) = Some 1)
  /\ existsb says_stopped (trace_of (main env fuel argv s))
     = existsb interrupts (trace_of (main env fuel argv s))
  /\ (existsb interrupts (trace_of (main env fuel argv s)) = true ->
      existsb analysis_started (trace_of (main env fuel argv s)) = true ->
      exists body,
        trace_of (main env fuel argv s)
        = body ++ [Printed stopped_by_user;
                   Call close (Returns tt);
                   Call closeHydraulicAnalysis (Returns tt);
                   Call unload (Returns tt)]
        /\ existsb is_drain body = false).
Proof.
  pose proof (@main_run W env fuel argv s _ _ _ (run_eta _ s)) as H.
  set (t := trace_of (main env fuel argv s)) in *.
  set (r := result_of (main env fuel argv s)) in *. clearbody t r.
  intros DC. destruct H as [(Pr & Q & R)|(l & tb & rb & Fb & H)].
  - (* the arguments were refused *)
    apply only_prints in Pr. destruct Pr as (I & _).
    apply quiet_facts in Q. destruct Q as (_ & S & _).
    rewrite I, S. destruct R as [->|[msg ->]]; cbn;
      (split; [split; discriminate|]); (split; [reflexivity|]);
      (split; [reflexivity|discriminate]).
  - destruct Fb as (Qb & Ib & Xb & Nb & Cb & Eb & Ab).
    apply quiet_facts in Qb. destruct Qb as (Db & Sb & _).
    destruct H as [(-> & -> & ->)|(NPb & r1 & r2 & r3 & -> & ->)].
    { (* still running: no interrupt was delivered *)
      rewrite Ib, Sb. cbn.
      split; [split; discriminate|]. split; [congruence|].
      split; [reflexivity|discriminate]. }
    destruct (handler_trace_facts rb) as (Ih & Dh & _ & _ & Ah & _ & Sh).
    destruct (drain_trace_is_drain l r1 r2 r3) as (Dd & Sd & _ & _ & Ad).
    rewrite !drains_cleanly_app in DC.
    apply andb_true_iff in DC. destruct DC as [_ DC].
    apply andb_true_iff in DC. destruct DC as [_ DC].
    rewrite (@drained_returned _ Dd) in DC.
    destruct (drain_trace_clean l r1 r2 r3 DC) as (Rd & Id & Td).
    rewrite Rd. cbn [after_finally].
    rewrite !existsb_app, Ib, Ih, Id, Sb, Sh, Sd, Ah, Ad, !orb_false_r.
    destruct rb as [[]|[msg| |code]|]; cbn in *; try discriminate; try congruence.
    + (* an Exception reached main's handler *)
      repeat split; try discriminate; auto.
    + (* KeyboardInterrupt *)
      split; [split; reflexivity|]. split; [discriminate|]. split; [reflexivity|].
      intros _ A. destruct (Ab A) as [Cl El].
      exists tb. rewrite Td, Cl, El. split; [reflexivity|exact Db].
    + (* sys.exit(1) of a helper *)
      subst code. repeat split; try discriminate; auto.
Qed.

(** C9, as the code has it: once the try block is entered the finally block
    always runs, however the block ended: the link is closed whenever a
    connection was established, the engine's analysis is torn down whenever
    the engine was set up (unless closing the link raised), and the engine is
    unloaded whenever the teardown returned.  The draining calls are not
    guarded: when all of them return, the process ends with the close of the
    link (if it was connected) followed by the teardown and the unload of the
    engine (if it was set up), and the exit status is the one decided before
    draining (0 after an interrupt, 1 otherwise); when one raises, it is the
    last event of the process (the remaining draining actions are skipped)
    and its exception, uncaught, is the outcome. *)
Theorem draining_stops_at_first_error (fuel : nat) (argv : list string)
        (s : locals * W) :
  result_of (main env fuel argv s) <> Pending ->
  (existsb connected (trace_of (main env fuel argv s)) = true ->
   existsb is_close (trace_of (main env fuel argv s)) = true)
  /\ (existsb engine_ready (trace_of (main env fuel argv s)) = true ->
      existsb is_teardown (trace_of (main env fuel argv s)) = true
      \/ existsb close_failed (trace_of (main env fuel argv s)) = true)
  /\ (existsb teardown_returned (trace_of (main env fuel argv s)) = true ->
      existsb is_unload (trace_of (main env fuel argv s)) = true)
  /\ (drains_cleanly (trace_of (main env fuel argv s)) = true ->
      exit_status (result_of (main env fuel argv s))
      = Some (if existsb interrupts (trace_of (main env fuel argv s)) then 0 else 1)
      /\ exists body,
          trace_of (main env fuel argv s)
          = body
            ++ (if existsb connected (trace_of (main env fuel argv s))
                then [Call close (Returns tt)] else [])
            ++ (if existsb engine_ready (trace_of (main env fuel argv s))
                then [Call closeHydraulicAnalysis (Returns tt); Call unload (Returns tt)]
                else [])
          /\ existsb is_drain body = false)
  /\ (drains_cleanly (trace_of (main env fuel argv s)) = false ->
      exists body (c : call unit) rep,
        trace_of (main env fuel argv s) = body ++ [Call c rep]
        /\ drains_cleanly body = true
        /\ is_drain (Call c rep) = true
        /\ returned (Call c rep) = false
        /\ result_of (main env fuel argv s) = raised rep).
Proof.
  pose proof (@main_run W env fuel argv s _ _ _ (run_eta _ s)) as H.
  set (t := trace_of (main env fuel argv s)) in *.
  set (r := result_of (main env fuel argv s)) in *. clearbody t r.
  intros NP. destruct H as [(Pr & Q & R)|(l & tb & rb & Fb & H)].
  - (* the arguments were refused: there is nothing to drain *)
    apply only_prints in Pr. destruct Pr as (I & C & E & _).
    apply quiet_facts in Q. destruct Q as (D & _ & _ & T).
    rewrite I, C, E, (quiet_drains_cleanly _ D), (no_teardown_returned _ T).
    split; [discriminate|]. split; [discriminate|]. split; [discriminate|].
    split; [|discriminate]. intros _.
    split; [destruct R as [->|[msg ->]]; reflexivity|].
    exists t. rewrite !app_nil_r. auto.
  - destruct H as [(_ & _ & ->)|(NPb & r1 & r2 & r3 & -> & ->)]; [congruence|].
    destruct Fb as (Qb & Ib & Xb & Nb & Cb & Eb & Ab).
    apply quiet_facts in Qb. destruct Qb as (Db & Sb & Kb & Tb).
    destruct (handler_trace_facts rb) as (Ih & Dh & Ch & Eh & Ah & Kh & Sh).
    destruct (drain_trace_is_drain l r1 r2 r3) as (Dd & Sd & Cd & Ed & Ad).
    destruct (drain_trace_reaches l r1 r2 r3) as (Reach1 & Reach2 & _).
    destruct (no_drain_no_unload _ Dh) as (_ & Th & _).
    rewrite !drains_cleanly_app, (quiet_drains_cleanly _ Db),
      (quiet_drains_cleanly _ Dh), (@drained_returned _ Dd).
    rewrite !existsb_app, Ch, Cd, Eh, Ed, Ih, Ib, <- Cb, <- Eb,
      (no_teardown_returned _ Tb), (no_teardown_returned _ Th), !orb_false_r.
    cbn [andb orb].
    split; [|split; [|split; [|split]]].
    + intros Cl. rewrite (Reach1 Cl), !orb_true_r. reflexivity.
    + intros El. destruct (Reach2 El) as [T|F]; [left|right];
        rewrite ?T, ?F, !orb_true_r; reflexivity.
    + intros TR. rewrite (drain_trace_unloads l r1 r2 r3 TR), !orb_true_r.
      reflexivity.
    + intros DC. destruct (drain_trace_clean l r1 r2 r3 DC) as (Rd & Id & Td).
      rewrite Rd, Id, orb_false_r. cbn [after_finally]. split.
      * destruct rb as [[]|[msg| |code]|]; cbn in *; try discriminate; try congruence.
      * exists (tb ++ handler_trace rb). rewrite Td, <- !app_assoc.
        split; [reflexivity|]. rewrite existsb_app, Db, Dh. reflexivity.
    + intros DC. destruct (drain_trace_failed l r1 r2 r3 DC)
        as (body & c & rep & -> & Rb & Dc & Fc & ->).
      exists (tb ++ handler_trace rb ++ body), c, rep.
      split; [rewrite <- !app_assoc; reflexivity|].
      split.
      { rewrite !drains_cleanly_app, (quiet_drains_cleanly _ Db),
          (quiet_drains_cleanly _ Dh). cbn [andb].
        unfold drains_cleanly. apply forallb_forall. intros e He.
        rewrite forallb_forall in Rb. rewrite (Rb e He). apply orb_true_r. }
      split; [exact Dc|]. split; [exact Fc|].
      destruct rep as [[]| |]; [discriminate|reflexivity..].
Qed.

End Exit.

(** ** Shutdown scenarios on the rig *)

(** Scenario C: an interrupt between cycles; exit status 0, and the link and
    the engine are each released once. *)
Lemma exit_status_after_clean_draining_witness :
  result_of (main (rig_env scenario_C) 2 command_line boot) <> Pending
  /\ drains_cleanly (trace_of (main (rig_env scenario_C) 2 command_line boot)) = true
  /\ exit_status (result_of (main (rig_env scenario_C) 2 command_line boot)) = Some 0
  /\ exists body,
      trace_of (main (rig_env scenario_C) 2 command_line boot)
      = body ++ [Printed stopped_by_user;
                 Call close (Returns tt);
                 Call closeHydraulicAnalysis (Returns tt);
                 Call unload (Returns tt)]
      /\ existsb is_drain body = false.
Proof.
  assert (NP : result_of (main (rig_env scenario_C) 2 command_line boot) <> Pending).
  { intros E. vm_compute in E. discriminate E. }
  assert (DC : drains_cleanly (trace_of (main (rig_env scenario_C) 2 command_line boot))
               = true).
  { vm_compute. reflexivity. }
  destruct (@exit_status_after_clean_draining _ (rig_env scenario_C) 2 command_line boot
              DC) as (E0 & _ & _ & Last).
  split; [exact NP|]. split; [exact DC|]. split.
  - apply E0. vm_compute. reflexivity.
  - apply Last; vm_compute; reflexivity.
Defined.

(** C8 does not hold as the spec states it: the user interrupts between cycles, closing the
    link raises, and the process ends with the uncaught exception (status 1,
    not 0) without ever tearing the analysis down. *)
Lemma interrupt_then_close_raises :
  existsb interrupts (trace_of (main (rig_env close_raises) 2 command_line boot)) = true
  /\ existsb analysis_started
       (trace_of (main (rig_env close_raises) 2 command_line boot)) = true
  /\ existsb says_stopped
       (trace_of (main (rig_env close_raises) 2 command_line boot)) = true
  /\ result_of (main (rig_env close_raises) 2 command_line boot)
     = Raise (PyException "connection reset")
  /\ exit_status (result_of (main (rig_env close_raises) 2 command_line boot)) = Some 1
  /\ filter is_close (trace_of (main (rig_env close_raises) 2 command_line boot))
     = [Call close (Fails "connection reset")]
  /\ filter is_teardown (trace_of (main (rig_env close_raises) 2 command_line boot)) = [].
Proof. repeat split; vm_compute; reflexivity. Qed.

(** The analysis teardown raises after an interrupt: the link was closed, the
    failing teardown is the last event and its exception is the outcome.  In
    scenario C every draining call returns: the run ends with the close, the
    teardown and the unload, with status 0. *)
Lemma draining_stops_at_first_error_witness :
  result_of (main (rig_env teardown_raises) 2 command_line boot) <> Pending
  /\ drains_cleanly (trace_of (main (rig_env teardown_raises) 2 command_line boot)) = false
  /\ existsb is_close (trace_of (main (rig_env teardown_raises) 2 command_line boot)) = true
  /\ (exists body (c : call unit) rep,
         trace_of (main (rig_env teardown_raises) 2 command_line boot) = body ++ [Call c rep]
         /\ drains_cleanly body = true
         /\ is_drain (Call c rep) = true
         /\ returned (Call c rep) = false
         /\ result_of (main (rig_env teardown_raises) 2 command_line boot) = raised rep)
  /\ result_of (main (rig_env scenario_C) 2 command_line boot) <> Pending
  /\ drains_cleanly (trace_of (main (rig_env scenario_C) 2 command_line boot)) = true
  /\ existsb is_unload (trace_of (main (rig_env scenario_C) 2 command_line boot)) = true
  /\ exit_status (result_of (main (rig_env scenario_C) 2 command_line boot)) = Some 0
  /\ exists body,
      trace_of (main (rig_env scenario_C) 2 command_line boot)
      = body ++ [Call close (Returns tt);
                 Call closeHydraulicAnalysis (Returns tt);
                 Call unload (Returns tt)]
      /\ existsb is_drain body = false.
Proof.
  assert (NP : result_of (main (rig_env teardown_raises) 2 command_line boot) <> Pending).
  { intros E. vm_compute in E. discriminate E. }
  assert (NC : result_of (main (rig_env scenario_C) 2 command_line boot) <> Pending).
  { intros E. vm_compute in E. discriminate E. }
  destruct (@draining_stops_at_first_error _ (rig_env teardown_raises) 2 command_line boot
              NP) as (Cl & _ & _ & _ & Fail).
  destruct (@draining_stops_at_first_error _ (rig_env scenario_C) 2 command_line boot
              NC) as (_ & _ & Un & Clean & _).
  assert (DC : drains_cleanly (trace_of (main (rig_env scenario_C) 2 command_line boot))
               = true) by (vm_compute; reflexivity).
  assert (Co : existsb connected (trace_of (main (rig_env scenario_C) 2 command_line boot))
               = true) by (vm_compute; reflexivity).
  assert (En : existsb engine_ready
                 (trace_of (main (rig_env scenario_C) 2 command_line boot))
               = true) by (vm_compute; reflexivity).
  assert (Ir : existsb interrupts
                 (trace_of (main (rig_env scenario_C) 2 command_line boot))
               = true) by (vm_compute; reflexivity).
  split; [exact NP|]. split; [vm_compute; reflexivity|].
  split; [apply Cl; vm_compute; reflexivity|].
  split; [apply Fail; vm_compute; reflexivity|].
  split; [exact NC|]. split; [exact DC|].
  split; [apply Un; vm_compute; reflexivity|].
  destruct (Clean DC) as (St & body & T & D). rewrite Co, En in T. rewrite Ir in St.
  split; [exact St|]. exists body. split; [exact T|exact D].
Defined.

(** C9 does not hold as the spec states it: after an interrupt (exit status 0 pending) the
    analysis teardown raises; the exception is not only reported, it escapes:
    unload is never called and the process ends with status 1, where the same
    run with a clean teardown goes on to unload the engine and ends with
    status 0. *)
Lemma teardown_error_escapes :
  result_of (main (rig_env teardown_raises) 2 command_line boot)
  = Raise (PyException "analysis not open")
  /\ filter is_drain (trace_of (main (rig_env teardown_raises) 2 command_line boot))
     = [Call close (Returns tt);
        Call closeHydraulicAnalysis (Fails "analysis not open")]
  /\ filter is_unload (trace_of (main (rig_env teardown_raises) 2 command_line boot)) = []
  /\ exit_status (result_of (main (rig_env teardown_raises) 2 command_line boot)) = Some 1
  /\ filter is_drain (trace_of (main (rig_env scenario_C) 2 command_line boot))
     = [Call close (Returns tt);
        Call closeHydraulicAnalysis (Returns tt);
        Call unload (Returns tt)]
  /\ exit_status (result_of (main (rig_env scenario_C) 2 command_line boot)) = Some 0.
Proof. repeat split; vm_compute; reflexivity. Qed.

(** * Further properties of the script *)

(** ** Rules for pieces that fail fast *)

Ltac known_prefix :=
  cbn [In helper_prefixes]; repeat (first [left; reflexivity | right]).

Section FailFast.

Variable W : Type.
Variable env : forall A : Type, call A -> W -> W * reply A.

Lemma faithful_ret (A : Type) (a : A) : faithful (@ret W A a).
Proof. intros s s' t r H. inversion H; subst. reflexivity. Qed.

Lemma faithful_pending (A : Type) : faithful (@pending W A).
Proof. intros s s' t r H. inversion H; subst. reflexivity. Qed.

Lemma faithful_print (line : string) : faithful (@print W line).
Proof. intros s s' t r H. inversion H; subst. reflexivity. Qed.

Lemma faithful_perform (A : Type) (c : call A) : faithful (perform env c).
Proof.
  intros s s' t r H. apply perform_inv in H.
  destruct H as (w' & rep & _ & -> & -> & ->).
  destruct rep as [a|msg|]; cbn; [reflexivity|..];
    exists [], A, c; eexists; repeat split; reflexivity.
Qed.

Lemma ends_raising_app (t1 t2 : trace) (e : exn) :
  forallb returned t1 = true -> ends_raising t2 e -> ends_raising (t1 ++ t2) e.
Proof.
  intros F (t0 & A & c & rep & -> & F0 & E).
  exists (t1 ++ t0), A, c, rep. rewrite app_assoc, forallb_app, F, F0. auto.
Qed.

Lemma reported_app (prefix : string) (t1 t2 : trace) :
  forallb returned t1 = true -> reported prefix t2 -> reported prefix (t1 ++ t2).
Proof.
  intros F (t0 & A & c & msg & -> & F0).
  exists (t1 ++ t0), A, c, msg. rewrite app_assoc, forallb_app, F, F0. auto.
Qed.

Lemma faithful_bind (A B : Type) (m : M W A) (f : A -> M W B) :
  faithful m -> (forall a, faithful (f a)) -> faithful (bind m f).
Proof.
  intros Hm Hf s s' t r H. apply bind_inv in H.
  destruct H as [(s1 & t1 & a & t2 & H1 & H2 & ->)|[(e & H1 & ->)|(H1 & ->)]].
  - apply Hm in H1. apply Hf in H2. cbn in H1.
    destruct r as [b|e|]; [rewrite forallb_app, H1, H2; reflexivity
                          |apply ends_raising_app; assumption
                          |rewrite forallb_app, H1, H2; reflexivity].
  - apply Hm in H1. exact H1.
  - apply Hm in H1. exact H1.
Qed.

Lemma faithful_for_each (X : Type) (body : X -> M W unit) (xs : list X) :
  (forall x, faithful (body x)) -> faithful (for_each body xs).
Proof.
  intros Hb. induction xs as [|x xs IH]; cbn [for_each];
    [apply faithful_ret|apply faithful_bind; auto].
Qed.

Lemma faithful_comprehension (X Y : Type) (f : X -> M W Y) (xs : list X) :
  (forall x, faithful (f x)) -> faithful (comprehension f xs).
Proof.
  intros Hf. induction xs as [|x xs IH]; cbn [comprehension]; [apply faithful_ret|].
  apply faithful_bind; auto. intros y. apply faithful_bind; auto.
  intros ys. apply faithful_ret.
Qed.

Lemma faithful_connect_loop (fuel : nat) : faithful (connect_loop env fuel).
Proof.
  induction fuel as [|fuel IH]; cbn [connect_loop]; [apply faithful_pending|].
  apply faithful_bind; [apply faithful_perform|]. intros [|]; [apply faithful_ret|].
  apply faithful_bind; [apply faithful_perform|]. intros _. exact IH.
Qed.

(** The handler every helper has. *)
Lemma reports_intro (A : Type) (prefix : string) (body : M W A) :
  faithful body ->
  reports prefix
    (except_Exception body
       (fun e => print (String.append prefix e) ;; sys_exit 1)).
Proof.
  intros Hb s s' t r H. apply except_Exception_inv in H.
  destruct H as [(s1 & t1 & msg & t2 & H1 & H2 & ->)|(H1 & N)].
  - apply Hb in H1. apply report_inv in H2. destruct H2 as (_ & -> & ->).
    split; [reflexivity|].
    destruct H1 as (t0 & B & c & rep & -> & F0 & E).
    destruct rep as [b|msg'|]; try discriminate. inversion E; subst msg'.
    exists t0, B, c, msg. rewrite <- app_assoc. auto.
  - apply Hb in H1. destruct r as [a|[msg| |code]|]; try exact H1.
    + exfalso. eapply N. reflexivity.
    + destruct H1 as (t0 & B & c & rep & _ & _ & E). destruct rep; discriminate.
Qed.

Lemma failfast_of_faithful (A : Type) (m : M W A) : faithful m -> failfast m.
Proof.
  intros Hm s s' t r H. apply Hm in H. destruct r as [a|[msg| |code]|]; try exact H.
  destruct H as (t0 & B & c & rep & _ & _ & E). destruct rep; discriminate.
Qed.

Lemma failfast_of_reports (A : Type) (prefix : string) (m : M W A) :
  In prefix helper_prefixes -> reports prefix m -> failfast m.
Proof.
  intros Hp Hm s s' t r H. apply Hm in H. destruct r as [a|[msg| |code]|]; try exact H.
  - destruct H.
  - destruct H as [-> H]. split; [reflexivity|]. exists prefix. auto.
Qed.

Lemma failfast_bind (A B : Type) (m : M W A) (f : A -> M W B) :
  failfast m -> (forall a, failfast (f a)) -> failfast (bind m f).
Proof.
  intros Hm Hf s s' t r H. apply bind_inv in H.
  destruct H as [(s1 & t1 & a & t2 & H1 & H2 & ->)|[(e & H1 & ->)|(H1 & ->)]].
  - apply Hm in H1. apply Hf in H2. cbn in H1.
    destruct r as [b|[msg| |code]|];
      try (rewrite forallb_app, H1, H2; reflexivity);
      try (apply ends_raising_app; assumption).
    destruct H2 as [-> (prefix & Hp & H2)]. split; [reflexivity|].
    exists prefix. split; [exact Hp|]. apply reported_app; assumption.
  - apply Hm in H1. exact H1.
  - apply Hm in H1. exact H1.
Qed.

End FailFast.

Ltac by_report L := eapply failfast_of_reports; [|apply L]; known_prefix.

Ltac faithful_rules :=
  repeat first
    [ apply faithful_ret
    | apply faithful_pending
    | apply faithful_print
    | apply faithful_perform
    | apply faithful_connect_loop
    | apply faithful_for_each; intros []
    | apply faithful_comprehension; intros ?
    | apply faithful_bind; [|intros ?] ].

(** ** The helpers report and exit *)

Section Reports.

Variable W : Type.
Variable env : forall A : Type, call A -> W -> W * reply A.

Lemma setup_client_reports (fuel : nat) :
  reports "Failed to setup and establish a Modbus TCP client connection: "
          (setup_client env fuel).
Proof. unfold setup_client. apply reports_intro. faithful_rules. Qed.

Lemma setup_epanet_reports (network_file : string) :
  reports "Failed to setup EPANET with specified network (.inp) file: "
          (setup_epanet env network_file).
Proof. unfold setup_epanet. apply reports_intro. faithful_rules. Qed.

Lemma print_overview_reports :
  reports "Failed to print overview of total number nodes and links in EPANET network: "
          (print_overview env).
Proof. unfold print_overview. apply reports_intro. faithful_rules. Qed.

Lemma get_controls_reports :
  reports "Failed to get controls from OpenPLC: " (get_controls env).
Proof. unfold get_controls. apply reports_intro. faithful_rules. Qed.

Lemma set_controls_reports (c : controls) :
  reports "Failed to set OpenPLC controls to EPANET network: " (set_controls env c).
Proof. unfold set_controls. apply reports_intro. faithful_rules. Qed.

Lemma read_data_reports :
  reports "Failed to read data from EPANET network: " (read_data env).
Proof. unfold read_data. apply reports_intro. faithful_rules. Qed.

Lemma write_data_reports (d : data) :
  reports "Failed to write EPANET network data to OpenPLC: " (write_data env d).
Proof. unfold write_data, write_block. apply reports_intro. faithful_rules. Qed.

(** X3: the three helpers that talk to the link never let an Exception
    escape.  Each returns only if every call it made returned; when a call
    raises an Exception, that call is the helper's last call, the helper
    prints its own line ending in the exception's text and exits with status
    1; a KeyboardInterrupt passes through unreported, the interrupted call
    being the last event. *)
Theorem link_helpers_report_and_exit :
  (forall fuel,
      reports "Failed to setup and establish a Modbus TCP client connection: "
              (setup_client env fuel))
  /\ reports "Failed to get controls from OpenPLC: " (get_controls env)
  /\ (forall d,
         reports "Failed to write EPANET network data to OpenPLC: " (write_data env d)).
Proof.
  split; [exact setup_client_reports|].
  split; [exact get_controls_reports|exact write_data_reports].
Qed.

(** X4: the four helpers that talk to the engine behave the same way: no
    Exception escapes, the failing call is the last one, the helper's own
    line is printed with the exception's text, and the exit status is 1. *)
Theorem engine_helpers_report_and_exit :
  (forall network_file,
      reports "Failed to setup EPANET with specified network (.inp) file: "
              (setup_epanet env network_file))
  /\ reports "Failed to print overview of total number nodes and links in EPANET network: "
             (print_overview env)
  /\ (forall c,
         reports "Failed to set OpenPLC controls to EPANET network: " (set_controls env c))
  /\ reports "Failed to read data from EPANET network: " (read_data env).
Proof.
  split; [exact setup_epanet_reports|]. split; [exact print_overview_reports|].
  split; [exact set_controls_reports|exact read_data_reports].
Qed.

End Reports.

(** ** Pieces that always end *)

Section Finite.

Variable W : Type.
Variable env : forall A : Type, call A -> W -> W * reply A.

Lemma finite_ret (A : Type) (a : A) : finite (@ret W A a).
Proof. intros s s' t r H. inversion H; subst. discriminate. Qed.

Lemma finite_print (line : string) : finite (@print W line).
Proof. intros s s' t r H. inversion H; subst. discriminate. Qed.

Lemma finite_exit (A : Type) (code : Z) : finite (@sys_exit W A code).
Proof. intros s s' t r H. inversion H; subst. discriminate. Qed.

Lemma finite_perform (A : Type) (c : call A) : finite (perform env c).
Proof.
  intros s s' t r H. apply perform_inv in H.
  destruct H as (w' & rep & _ & _ & _ & ->). destruct rep; discriminate.
Qed.

Lemma finite_bind (A B : Type) (m : M W A) (f : A -> M W B) :
  finite m -> (forall a, finite (f a)) -> finite (bind m f).
Proof.
  intros Hm Hf s s' t r H. apply bind_inv in H.
  destruct H as [(s1 & t1 & a & t2 & H1 & H2 & ->)|[(e & H1 & ->)|(H1 & ->)]].
  - apply Hf in H2. exact H2.
  - discriminate.
  - apply Hm in H1. congruence.
Qed.

Lemma finite_except (A : Type) (m : M W A) (h : string -> M W A) :
  finite m -> (forall msg, finite (h msg)) -> finite (except_Exception m h).
Proof.
  intros Hm Hh s s' t r H. apply except_Exception_inv in H.
  destruct H as [(s1 & t1 & msg & t2 & H1 & H2 & ->)|(H1 & _)].
  - apply Hh in H2. exact H2.
  - apply Hm in H1. exact H1.
Qed.

Lemma finite_for_each (X : Type) (body : X -> M W unit) (xs : list X) :
  (forall x, finite (body x)) -> finite (for_each body xs).
Proof.
  intros Hb. induction xs as [|x xs IH]; cbn [for_each];
    [apply finite_ret|apply finite_bind; auto].
Qed.

Lemma finite_comprehension (X Y : Type) (f : X -> M W Y) (xs : list X) :
  (forall x, finite (f x)) -> finite (comprehension f xs).
Proof.
  intros Hf. induction xs as [|x xs IH]; cbn [comprehension]; [apply finite_ret|].
  apply finite_bind; auto. intros y. apply finite_bind; auto.
  intros ys. apply finite_ret.
Qed.

End Finite.

Ltac finite_rules :=
  repeat first
    [ apply finite_ret
    | apply finite_print
    | apply finite_exit
    | apply finite_perform
    | apply finite_except; [|intros ?]
    | apply finite_for_each; intros []
    | apply finite_comprehension; intros ?
    | apply finite_bind; [|intros ?] ].

(** ** One complete cycle *)

Section CompleteCycle.

Variable W : Type.
Variable env : forall A : Type, call A -> W -> W * reply A.

Lemma bind_ok_inv (A B : Type) (m : M W A) (f : A -> M W B) s s' t (b : B) :
  bind m f s = (s', t, Ok b) ->
  exists s1 t1 a t2, m s = (s1, t1, Ok a) /\ f a s1 = (s', t2, Ok b) /\ t = t1 ++ t2.
Proof.
  intros H. apply bind_inv in H.
  destruct H as [H|[(e & _ & E)|(_ & E)]]; [exact H|discriminate..].
Qed.

Lemma perform_ok_inv (A : Type) (c : call A) s s' t (a : A) :
  perform env c s = (s', t, Ok a) -> t = [Call c (Returns a)].
Proof.
  intros H. apply perform_inv in H. destruct H as (w' & rep & _ & _ & -> & R).
  destruct rep; try discriminate. inversion R. reflexivity.
Qed.

Lemma cycle_finite : finite (cycle env).
Proof.
  unfold cycle, get_controls, set_controls, read_data, write_data, write_block.
  finite_rules.
Qed.

Lemma cycle_failfast : failfast (cycle env).
Proof.
  unfold cycle.
  repeat (apply failfast_bind;
          [first [ apply failfast_of_faithful, faithful_perform
                 | by_report (get_controls_reports env)
                 | by_report (set_controls_reports env)
                 | by_report (read_data_reports env)
                 | by_report (write_data_reports env) ]
          |intros ?]).
  apply failfast_of_faithful, faithful_perform.
Qed.

Lemma raising_not_returned (t : trace) (e : exn) :
  ends_raising t e -> forallb returned t = false.
Proof.
  intros (t0 & A & c & rep & -> & _ & E). rewrite forallb_app.
  destruct rep; try discriminate; cbn; apply andb_false_r.
Qed.

Lemma reported_not_returned (prefix : string) (t : trace) :
  reported prefix t -> forallb returned t = false.
Proof.
  intros (t0 & A & c & msg & -> & _). rewrite forallb_app. cbn. apply andb_false_r.
Qed.

Lemma write_data_returns (d : data) (s s' : locals * W) t :
  write_data env d s = (s', t, Ok tt) ->
  exists pj pt pp,
    t = block_trace 100 (junction_pressures d) pj
        ++ block_trace 200 (tank_heads d) pt
        ++ block_trace 300 (pump_flows d) pp
    /\ List.length pj = List.length (junction_pressures d)
    /\ List.length pt = List.length (tank_heads d)
    /\ List.length pp = List.length (pump_flows d).
Proof.
  unfold write_data. intros H. apply except_Exception_inv in H.
  destruct H as [(s0 & t0 & msg & t2 & _ & H2 & _)|(H & _)].
  { apply report_inv in H2. destruct H2 as (_ & _ & E). discriminate. }
  apply bind_ok_inv in H. destruct H as (sa & ta & [] & ka & Ha & H & ->).
  apply bind_ok_inv in H. destruct H as (sb & tb & [] & kb & Hb & Hc & ->).
  apply write_block_returns in Ha, Hb, Hc.
  destruct Ha as (pj & -> & Fj), Hb as (pt & -> & Ft), Hc as (pp & -> & Fp).
  apply Forall2_length in Fj, Ft, Fp.
  exists pj, pt, pp. auto.
Qed.

(** X5: a cycle completes exactly when every call it makes returns (it has
    no failure of its own), and a completed cycle is precisely: the horizon
    set to the duration read plus the hydraulic step read, the two control
    blocks read and applied, one run of the solver, the telemetry read (one
    measurement for every index the engine listed) and written (one packed
    pair of registers for every measurement), one advance of the clock, and a
    last sleep of one second. *)
Theorem cycle_completes_when_calls_return (s : locals * W) :
  (result_of (cycle env s) = Ok tt
   <-> forallb returned (trace_of (cycle env s)) = true)
  /\ (result_of (cycle env s) = Ok tt ->
      exists i, complete i /\ trace_of (cycle env s) = cycle_trace i).
Proof.
  pose proof (run_eta (cycle env) s) as H.
  set (t := trace_of (cycle env s)) in *. set (r := result_of (cycle env s)) in *.
  set (s' := fst (fst (cycle env s))) in *. clearbody t r s'.
  split; [split|].
  - intros ->. exact (cycle_failfast _ H).
  - intros F. pose proof (cycle_failfast _ H) as Q. pose proof (cycle_finite _ H) as N.
    destruct r as [[]|[msg| |code]|]; [reflexivity|..|congruence].
    + apply raising_not_returned in Q. congruence.
    + apply raising_not_returned in Q. congruence.
    + destruct Q as [_ (prefix & _ & Q)]. apply reported_not_returned in Q. congruence.
  - intros ->. unfold cycle in H.
    apply bind_ok_inv in H. destruct H as (s1 & t1 & d & k1 & H1 & H & ->).
    apply perform_ok_inv in H1. subst t1.
    apply bind_ok_inv in H. destruct H as (s2 & t2 & h & k2 & H2 & H & ->).
    apply perform_ok_inv in H2. subst t2.
    apply bind_ok_inv in H. destruct H as (s3 & t3 & [] & k3 & H3 & H & ->).
    apply perform_ok_inv in H3. subst t3.
    apply bind_ok_inv in H. destruct H as (s4 & t4 & c & k4 & H4 & H & ->).
    assert (R4 : result_of (get_controls env s3) = Ok c) by (rewrite H4; reflexivity).
    destruct (get_controls_returns env s3 R4)
      as (w1 & bits & w2 & registers & _ & _ & T4 & P4 & Q4).
    unfold trace_of in T4. rewrite H4 in T4. cbn in T4. subst t4.
    assert (Hc : c = decoded bits registers).
    { destruct c as [ps qs]. cbn in P4, Q4. subst. reflexivity. }
    apply bind_ok_inv in H. destruct H as (s5 & t5 & [] & k5 & H5 & H & ->).
    destruct (set_controls_run env c s4 H5) as [_ [[_ (pipes & pumps & T5)]|[_ N]]];
      [|exfalso; eapply N; reflexivity].
    apply bind_ok_inv in H. destruct H as (s6 & t6 & [] & k6 & H6 & H & ->).
    apply perform_ok_inv in H6. subst t6.
    apply bind_ok_inv in H. destruct H as (s7 & t7 & dat & k7 & H7 & H & ->).
    assert (R7 : result_of (read_data env s6) = Ok dat) by (rewrite H7; reflexivity).
    destruct (read_data_returns env s6 R7)
      as (junctions & tanks & fpumps & T7 & Lj & Lt & Lf).
    unfold trace_of in T7. rewrite H7 in T7. cbn [fst snd] in T7. subst t7.
    apply bind_ok_inv in H. destruct H as (s8 & t8 & [] & k8 & H8 & H & ->).
    apply write_data_returns in H8.
    destruct H8 as (pj & pt & pp & -> & Pj & Pt & Pp).
    apply bind_ok_inv in H. destruct H as (s9 & t9 & [] & k9 & H9 & H & ->).
    apply perform_ok_inv in H9. subst t9.
    apply perform_ok_inv in H. subst k9.
    exists {| duration_read := d; step_read := h; bits_read := bits;
              registers_read := registers; pipes_read := pipes; pumps_read := pumps;
              junctions_read := junctions; tanks_read := tanks;
              flow_pumps_read := fpumps; telemetry_read := dat;
              pressures_packed := pj; heads_packed := pt; flows_packed := pp |}.
    split; [unfold complete; cbn; auto 10|].
    unfold cycle_trace. cbn [duration_read step_read bits_read registers_read pipes_read
      pumps_read junctions_read tanks_read flow_pumps_read telemetry_read
      pressures_packed heads_packed flows_packed].
    rewrite T5, Hc. cbn [app]. rewrite <- !app_assoc. reflexivity.
Qed.

End CompleteCycle.

(** ** The command line *)

Section CommandLine.

Variable W : Type.
Variable env : forall A : Type, call A -> W -> W * reply A.

Lemma length_append (p x : string) :
  String.length (String.append p x) = (String.length p + String.length x)%nat.
Proof. induction p as [|a p IH]; cbn; [reflexivity|]. rewrite IH. reflexivity. Qed.

Lemma substring_whole (x : string) : substring 0 (String.length x) x = x.
Proof. induction x as [|a x IH]; cbn; [reflexivity|]. rewrite IH. reflexivity. Qed.

Lemma substring_after (p x : string) (k : nat) :
  substring (String.length p) k (String.append p x) = substring 0 k x.
Proof. induction p as [|a p IH]; cbn; [reflexivity|exact IH]. Qed.

Lemma substring_split (s : string) :
  forall m, (m <= String.length s)%nat ->
  s = String.append (substring 0 m s) (substring m (String.length s - m) s).
Proof.
  induction s as [|a s IH]; intros [|m] Hm; cbn in *; try lia; try reflexivity.
  - rewrite substring_whole. reflexivity.
  - f_equal. apply IH. lia.
Qed.

(** [s.endswith(suffix)] holds exactly of the strings that end with [suffix]. *)
Lemma endswith_spec (s suffix : string) :
  endswith s suffix = true <-> exists p, s = String.append p suffix.
Proof.
  unfold endswith. rewrite andb_true_iff, Nat.leb_le, String.eqb_eq. split.
  - intros [Hk E].
    exists (substring 0 (String.length s - String.length suffix)%nat s).
    pose proof (@substring_split s (String.length s - String.length suffix)%nat
                  ltac:(lia)) as S.
    replace (String.length s - (String.length s - String.length suffix))%nat
      with (String.length suffix) in S by lia.
    rewrite E in S. exact S.
  - intros [p ->]. rewrite length_append. split; [lia|].
    replace (String.length p + String.length suffix - String.length suffix)%nat
      with (String.length p) by lia.
    rewrite substring_after. apply substring_whole.
Qed.

Lemma bind_ok_run (A B : Type) (m : M W A) (f : A -> M W B) s s1 t1 (a : A) :
  m s = (s1, t1, Ok a) ->
  bind m f s = (let '(s2, t2, r2) := f a s1 in (s2, t1 ++ t2, r2)).
Proof. intros H. unfold bind. rewrite H. reflexivity. Qed.

Lemma bind_raise_run (A B : Type) (m : M W A) (f : A -> M W B) s s1 t1 (e : exn) :
  m s = (s1, t1, Raise e) -> bind m f s = (s1, t1, Raise e).
Proof. intros H. unfold bind. rewrite H. reflexivity. Qed.

Lemma parse_arguments_test (argv : list string) :
  negb (List.length argv =? 2)%nat || negb (endswith (nth 1 argv "") ".inp")
  = negb (acceptable argv).
Proof. unfold acceptable. rewrite negb_andb. reflexivity. Qed.

Lemma parse_arguments_accepted (argv : list string) (s : locals * W) :
  acceptable argv = true ->
  parse_arguments argv s = (s, [], Ok (nth 1 argv "")).
Proof.
  intros H. unfold parse_arguments. rewrite parse_arguments_test, H. reflexivity.
Qed.

Lemma parse_arguments_refused (program : string) (rest : list string) (s : locals * W) :
  acceptable (program :: rest) = false ->
  parse_arguments (program :: rest) s
  = (s, usage_lines program, Raise (SystemExit 1)).
Proof.
  intros H. unfold parse_arguments. rewrite parse_arguments_test, H. reflexivity.
Qed.

(** X1: parse_arguments accepts exactly the command lines made of the program
    name and one argument that ends in ".inp", and then returns that argument
    without printing anything; every other command line gets the two usage
    lines (the second naming the program) and exit status 1; an empty
    sys.argv gets the first usage line and the IndexError of sys.argv[0].
    No collaborator is called in any case. *)
Theorem parse_arguments_accepts_one_inp_file (argv : list string) (s : locals * W) :
  (acceptable argv = true
   <-> exists program stem, argv = [program; String.append stem ".inp"])
  /\ (acceptable argv = true ->
      parse_arguments argv s = (s, [], Ok (nth 1 argv "")))
  /\ (forall program rest,
         argv = program :: rest -> acceptable argv = false ->
         parse_arguments argv s = (s, usage_lines program, Raise (SystemExit 1)))
  /\ (argv = [] ->
      parse_arguments argv s
      = (s, [Printed "Run EPANET simulation with Modbus controls."],
         Raise (PyException "list index out of range"))).
Proof.
  split; [|split; [|split]].
  - unfold acceptable. rewrite andb_true_iff, Nat.eqb_eq, endswith_spec. split.
    + intros [L [stem E]]. destruct argv as [|a [|b [|c rest]]]; try discriminate.
      cbn in E. subst b. exists a, stem. reflexivity.
    + intros (program & stem & ->). split; [reflexivity|]. exists stem. reflexivity.
  - apply parse_arguments_accepted.
  - intros program rest -> H. apply parse_arguments_refused. exact H.
  - intros ->. reflexivity.
Qed.

(** X2: a command line that parse_arguments refuses ends main before the try
    block: the whole run is the two usage lines, no connection is attempted,
    nothing is drained, and the exit status is 1. *)
Theorem main_refuses_bad_command_line (fuel : nat) (program : string)
        (rest : list string) (s : locals * W) :
  acceptable (program :: rest) = false ->
  trace_of (main env fuel (program :: rest) s) = usage_lines program
  /\ result_of (main env fuel (program :: rest) s) = Raise (SystemExit 1)
  /\ exit_status (result_of (main env fuel (program :: rest) s)) = Some 1.
Proof.
  intros H.
  assert (E : main env fuel (program :: rest) s
              = ((no_locals, snd s), usage_lines program, Raise (SystemExit 1))).
  { unfold main.
    erewrite bind_ok_run by reflexivity. cbv beta.
    erewrite bind_raise_run; [reflexivity|].
    apply parse_arguments_refused. exact H. }
  rewrite E. cbn. auto.
Qed.

End CommandLine.

Lemma main_refuses_bad_command_line_witness :
  acceptable ["epanet.py"; "network.txt"] = false
  /\ trace_of (main (rig_env scenario_A) 2 ["epanet.py"; "network.txt"] boot)
     = usage_lines "epanet.py"
  /\ result_of (main (rig_env scenario_A) 2 ["epanet.py"; "network.txt"] boot)
     = Raise (SystemExit 1).
Proof.
  assert (H : acceptable ["epanet.py"; "network.txt"] = false) by reflexivity.
  split; [exact H|].
  destruct (@main_refuses_bad_command_line _ (rig_env scenario_A) 2 "epanet.py"
              ["network.txt"] boot H) as (T & R & _).
  split; assumption.
Defined.

(** ** Runs of [main] on an accepted command line *)

Section Accepted.

Variable W : Type.
Variable env : forall A : Type, call A -> W -> W * reply A.

Lemma main_refused_run (fuel : nat) (program : string) (rest : list string)
      (s : locals * W) :
  acceptable (program :: rest) = false ->
  main env fuel (program :: rest) s
  = ((no_locals, snd s), usage_lines program, Raise (SystemExit 1)).
Proof.
  intros H. unfold main.
  erewrite bind_ok_run by reflexivity. cbv beta.
  erewrite bind_raise_run; [reflexivity|].
  apply parse_arguments_refused. exact H.
Qed.

(** The [try] block, the handler of what ended it, and the [finally] block. *)
Lemma main_accepted_run (fuel : nat) (argv : list string) (s : locals * W) :
  acceptable argv = true ->
  exists s2 tb rb,
    main_try env fuel (nth 1 argv "") (no_locals, snd s) = (s2, tb, rb)
    /\ ((rb = Pending
         /\ trace_of (main env fuel argv s) = tb
         /\ result_of (main env fuel argv s) = Pending)
        \/ (rb <> Pending
            /\ exists r1 r2 r3,
                trace_of (main env fuel argv s)
                = tb ++ handler_trace rb ++ drain_trace (fst s2) r1 r2 r3
                /\ result_of (main env fuel argv s)
                   = after_finally (handler_result rb)
                                   (drain_result (fst s2) r1 r2 r3))).
Proof.
  intros H. unfold main.
  erewrite bind_ok_run by reflexivity. cbv beta.
  erewrite bind_ok_run by (apply parse_arguments_accepted; exact H).
  cbv beta. cbn [app].
  unfold try_except_finally.
  destruct (main_try env fuel (nth 1 argv "") (no_locals, snd s)) as [[s2 tb] rb] eqn:Hb.
  exists s2, tb, rb. split; [reflexivity|].
  pose proof (@main_try_run W env _ _ _ _ _ _ Hb eq_refl) as (_ & _ & _ & N & _).
  destruct rb as [[]|[msg| |code]|]; [discriminate|..].
  - rewrite report_run. cbn beta iota zeta.
    destruct (main_finally env s2) as [[s3 td] rd] eqn:Hd.
    apply main_finally_run in Hd. destruct Hd as (r1 & r2 & r3 & -> & ->).
    right. split; [discriminate|]. exists r1, r2, r3. split; reflexivity.
  - rewrite report_run. cbn beta iota zeta.
    destruct (main_finally env s2) as [[s3 td] rd] eqn:Hd.
    apply main_finally_run in Hd. destruct Hd as (r1 & r2 & r3 & -> & ->).
    right. split; [discriminate|]. exists r1, r2, r3. split; reflexivity.
  - cbn beta iota zeta.
    destruct (main_finally env s2) as [[s3 td] rd] eqn:Hd.
    apply main_finally_run in Hd. destruct Hd as (r1 & r2 & r3 & -> & ->).
    right. split; [discriminate|]. exists r1, r2, r3. split; reflexivity.
  - cbn beta iota zeta. left. unfold trace_of, result_of. cbn [fst snd].
    rewrite app_nil_r. auto.
Qed.

Lemma run_forever_failfast (fuel : nat) : failfast (run_forever env fuel).
Proof.
  induction fuel as [|fuel IH]; cbn [run_forever].
  - apply failfast_of_faithful, faithful_pending.
  - apply failfast_bind; [apply cycle_failfast|intros _; exact IH].
Qed.

Lemma assign_faithful :
  faithful (@assign_client W) /\ faithful (@assign_en W).
Proof. split; intros s s' t r H; inversion H; subst; reflexivity. Qed.

Lemma main_try_failfast (fuel : nat) (network_file : string) :
  failfast (main_try env fuel network_file).
Proof.
  unfold main_try.
  apply failfast_bind;
    [by_report (setup_client_reports env)|intros _].
  apply failfast_bind; [apply failfast_of_faithful, assign_faithful|intros _].
  apply failfast_bind;
    [by_report (setup_epanet_reports env)
    |intros _].
  apply failfast_bind; [apply failfast_of_faithful, assign_faithful|intros _].
  apply failfast_bind;
    [by_report (print_overview_reports env)|intros _].
  apply failfast_bind; [apply failfast_of_faithful, faithful_perform|intros _].
  apply failfast_bind; [apply failfast_of_faithful, faithful_perform|intros _].
  apply run_forever_failfast.
Qed.

End Accepted.

(** ** How a run ends *)

Lemma raising_call_acquires_nothing (A : Type) (c : call A) (rep : reply A) :
  returned (Call c rep) = false ->
  connected (Call c rep) = false /\ engine_ready (Call c rep) = false.
Proof. destruct rep as [a| |]; [discriminate|destruct c; cbn; auto..]. Qed.

Lemma frame_after_raise (l : locals) (t0 tail : trace) :
  client l = existsb connected (t0 ++ tail) ->
  en l = existsb engine_ready (t0 ++ tail) ->
  existsb connected tail = false ->
  existsb engine_ready tail = false ->
  l = frame_after t0.
Proof.
  rewrite !existsb_app. intros Lc Le Hc He. rewrite Hc, orb_false_r in Lc.
  rewrite He, orb_false_r in Le.
  destruct l as [cl e]. cbn in Lc, Le. subst. reflexivity.
Qed.

Section Ending.

Variable W : Type.
Variable env : forall A : Type, call A -> W -> W * reply A.

(** X6: on an accepted command line, a process that ends (its calls
    returning, raising an Exception or being interrupted) has made calls that
    all returned, then one call that raised, then printed one line (the
    stopped-by-user line after an interrupt, otherwise one of the eight
    "Failed to ..." lines of the script followed by the exception's text),
    then drained what the calls before the raise had acquired; nothing else
    happens after the first raise.  The status in flight when draining starts
    is 0 after the interrupt and 1 after the exception. *)
Theorem main_ends_at_the_first_raise (fuel : nat) (argv : list string) (s : locals * W) :
  acceptable argv = true ->
  result_of (main env fuel argv s) <> Pending ->
  exists body (A : Type) (c : call A) (rep : reply A) line r1 r2 r3,
    trace_of (main env fuel argv s)
    = body ++ [Call c rep; Printed line] ++ drain_trace (frame_after body) r1 r2 r3
    /\ forallb returned body = true
    /\ existsb is_drain body = false
    /\ ((rep = Interrupted
         /\ line = stopped_by_user
         /\ result_of (main env fuel argv s)
            = after_finally (Raise (SystemExit 0))
                            (drain_result (frame_after body) r1 r2 r3))
        \/ (exists msg prefix,
               rep = Fails msg
               /\ In prefix (main_prefix :: helper_prefixes)
               /\ line = String.append prefix msg
               /\ result_of (main env fuel argv s)
                  = after_finally (Raise (SystemExit 1))
                                  (drain_result (frame_after body) r1 r2 r3))).
Proof.
  intros Hacc NP.
  destruct (main_accepted_run env fuel argv s Hacc) as (s2 & tb & rb & Hb & H).
  destruct H as [(_ & _ & E)|(NPb & r1 & r2 & r3 & -> & ->)]; [congruence|].
  pose proof (main_try_failfast env fuel _ _ Hb) as FF.
  pose proof (@main_try_run W env _ _ _ _ _ _ Hb eq_refl)
    as (Q & _ & _ & N & Lc & Le & _).
  apply quiet_facts in Q. destruct Q as (D & _).
  destruct rb as [[]|[msg| |code]|]; try discriminate; try congruence.
  - (* an Exception reached main's handler *)
    destruct FF as (t0 & A & c & rep & -> & F0 & E).
    destruct rep as [a|msg'|]; try discriminate. inversion E; subst msg'.
    rewrite existsb_app in D. apply orb_false_iff in D. destruct D as [D _].
    rewrite (@frame_after_raise (fst s2) t0 [Call c (Fails msg)] Lc Le)
      by (cbn; rewrite ?orb_false_r;
          apply (@raising_call_acquires_nothing _ c (Fails msg) eq_refl)).
    exists t0, A, c, (Fails msg), (String.append main_prefix msg), r1, r2, r3.
    split; [cbn [handler_trace]; rewrite <- !app_assoc; reflexivity|].
    split; [exact F0|]. split; [exact D|].
    right. exists msg, main_prefix. cbn [In]. auto.
  - (* KeyboardInterrupt *)
    destruct FF as (t0 & A & c & rep & -> & F0 & E).
    destruct rep as [a|msg'|]; try discriminate.
    rewrite existsb_app in D. apply orb_false_iff in D. destruct D as [D _].
    rewrite (@frame_after_raise (fst s2) t0 [Call c Interrupted] Lc Le)
      by (cbn; rewrite ?orb_false_r;
          apply (@raising_call_acquires_nothing _ c Interrupted eq_refl)).
    exists t0, A, c, Interrupted, stopped_by_user, r1, r2, r3.
    split; [cbn [handler_trace]; rewrite <- !app_assoc; reflexivity|].
    split; [exact F0|]. split; [exact D|]. left. auto.
  - (* a helper reported and exited *)
    destruct FF as [-> (prefix & Hp & t0 & A & c & msg & -> & F0)].
    rewrite existsb_app in D. apply orb_false_iff in D. destruct D as [D _].
    rewrite (@frame_after_raise (fst s2) t0
               [Call c (Fails msg); Printed (String.append prefix msg)] Lc Le)
      by (cbn; rewrite ?orb_false_r;
          apply (@raising_call_acquires_nothing _ c (Fails msg) eq_refl)).
    exists t0, A, c, (Fails msg), (String.append prefix msg), r1, r2, r3.
    split; [cbn [handler_trace]; rewrite <- !app_assoc; reflexivity|].
    split; [exact F0|]. split; [exact D|].
    right. exists msg, prefix. cbn [In]. auto.
Qed.

End Ending.

(** Scenario B: the read of the holding registers fails in the first cycle;
    get_controls reports it, and the run drains the link and the engine it had
    acquired and exits with status 1. *)
Lemma main_ends_at_the_first_raise_witness :
  acceptable command_line = true
  /\ result_of (main (rig_env scenario_B) 2 command_line boot) <> Pending
  /\ exit_status (result_of (main (rig_env scenario_B) 2 command_line boot)) = Some 1
  /\ exists body (A : Type) (c : call A) (rep : reply A) line r1 r2 r3,
      trace_of (main (rig_env scenario_B) 2 command_line boot)
      = body ++ [Call c rep; Printed line] ++ drain_trace (frame_after body) r1 r2 r3
      /\ forallb returned body = true
      /\ existsb is_drain body = false
      /\ (rep = Interrupted
          \/ exists msg prefix,
              rep = Fails msg
              /\ In prefix (main_prefix :: helper_prefixes)
              /\ line = String.append prefix msg).
Proof.
  assert (Hacc : acceptable command_line = true) by reflexivity.
  assert (NP : result_of (main (rig_env scenario_B) 2 command_line boot) <> Pending).
  { intros E. vm_compute in E. discriminate E. }
  split; [exact Hacc|]. split; [exact NP|]. split; [vm_compute; reflexivity|].
  destruct (@main_ends_at_the_first_raise _ (rig_env scenario_B) 2 command_line boot
              Hacc NP)
    as (body & A & c & rep & line & r1 & r2 & r3 & T & F & D & R).
  exists body, A, c, rep, line, r1, r2, r3.
  split; [exact T|]. split; [exact F|]. split; [exact D|].
  destruct R as [(R & _)|(msg & prefix & R & P & L & _)];
    [left; exact R|right; exists msg, prefix; auto].
Defined.

(** ** What the [finally] block touches *)

Lemma occurrences_app (p : event -> bool) (t u : trace) :
  occurrences p (t ++ u) = (occurrences p t + occurrences p u)%nat.
Proof. unfold occurrences. rewrite filter_app, length_app. reflexivity. Qed.

Lemma occurrences_none (p : event -> bool) (t : trace) :
  existsb p t = false -> occurrences p t = 0%nat.
Proof.
  unfold occurrences. induction t as [|e t IH]; [reflexivity|].
  cbn [existsb filter]. intros H. apply orb_false_iff in H. destruct H as [-> H].
  exact (IH H).
Qed.

Lemma drain_trace_guarded (l : locals) (r1 r2 r3 : reply unit) :
  (existsb is_close (drain_trace l r1 r2 r3) = true -> client l = true)
  /\ (existsb is_teardown (drain_trace l r1 r2 r3) = true -> en l = true)
  /\ (existsb is_unload (drain_trace l r1 r2 r3) = true ->
      existsb teardown_returned (drain_trace l r1 r2 r3) = true)
  /\ (occurrences is_close (drain_trace l r1 r2 r3) <= 1)%nat
  /\ (occurrences is_teardown (drain_trace l r1 r2 r3) <= 1)%nat
  /\ (occurrences is_unload (drain_trace l r1 r2 r3) <= 1)%nat.
Proof.
  drain_cases l r1 r2 r3; cbn; repeat split; auto; try discriminate.
Qed.

Section Guarded.

Variable W : Type.
Variable env : forall A : Type, call A -> W -> W * reply A.

(** X7: the process drains only what it acquired, and each thing once: the
    link is closed only if a connection attempt succeeded, the analysis is
    torn down only if the engine was set up, the engine is unloaded only
    after a teardown that returned, and none of the three calls is made
    twice. *)
Theorem main_drains_only_what_it_acquired (fuel : nat) (argv : list string)
        (s : locals * W) :
  (existsb is_close (trace_of (main env fuel argv s)) = true ->
   existsb connected (trace_of (main env fuel argv s)) = true)
  /\ (existsb is_teardown (trace_of (main env fuel argv s)) = true ->
      existsb engine_ready (trace_of (main env fuel argv s)) = true)
  /\ (existsb is_unload (trace_of (main env fuel argv s)) = true ->
      existsb teardown_returned (trace_of (main env fuel argv s)) = true)
  /\ (occurrences is_close (trace_of (main env fuel argv s)) <= 1)%nat
  /\ (occurrences is_teardown (trace_of (main env fuel argv s)) <= 1)%nat
  /\ (occurrences is_unload (trace_of (main env fuel argv s)) <= 1)%nat.
Proof.
  pose proof (@main_run W env fuel argv s _ _ _ (run_eta _ s)) as H.
  set (t := trace_of (main env fuel argv s)) in *.
  set (r := result_of (main env fuel argv s)) in *. clearbody t r.
  assert (Q : forall u : trace,
             forallb quiet u = true ->
             (existsb is_close u = false /\ existsb is_teardown u = false
              /\ existsb is_unload u = false)
             /\ occurrences is_close u = 0%nat
             /\ occurrences is_teardown u = 0%nat
             /\ occurrences is_unload u = 0%nat).
  { intros u Hu. apply quiet_facts in Hu. destruct Hu as (D & _).
    apply no_drain_no_unload in D. destruct D as (C & T & U).
    repeat split; auto using occurrences_none. }
  destruct H as [(_ & Qt & _)|(l & tb & rb & Fb & H)].
  - destruct (Q _ Qt) as ((C & T & U) & -> & -> & ->). rewrite C, T, U.
    repeat split; auto; discriminate.
  - destruct Fb as (Qb & _ & _ & _ & Lc & Le & _).
    destruct (Q _ Qb) as ((C & T & U) & OC & OT & OU).
    destruct H as [(_ & -> & _)|(_ & r1 & r2 & r3 & -> & _)].
    + rewrite C, T, U, OC, OT, OU. repeat split; auto; discriminate.
    + pose proof (handler_trace_facts rb) as (_ & Dh & _).
      apply no_drain_no_unload in Dh. destruct Dh as (Ch & Th & Uh).
      pose proof (drain_trace_guarded l r1 r2 r3) as (Gc & Gt & Gu & Nc & Nt & Nu).
      rewrite !existsb_app, !occurrences_app, C, T, U, OC, OT, OU, Ch, Th, Uh.
      rewrite !(@occurrences_none _ _ Ch), !(@occurrences_none _ _ Th),
        !(@occurrences_none _ _ Uh).
      cbn [orb plus]. rewrite <- Lc, <- Le.
      split; [intros X; rewrite (Gc X); reflexivity|].
      split; [intros X; rewrite (Gt X); reflexivity|].
      split; [intros X; rewrite (Gu X), !orb_true_r; reflexivity|].
      auto.
Qed.

End Guarded.

(** ** Order of start-up *)

Lemma reached_spec (t : trace) (p : progress) :
  has_link (reached p t) = has_link p || existsb connected t
  /\ has_engine (reached p t) = has_engine p || existsb engine_ready t
  /\ has_analysis (reached p t) = has_analysis p || existsb analysis_started t.
Proof.
  revert p. induction t as [|e t IH]; intros p; cbn [reached fold_left existsb].
  - rewrite !orb_false_r. auto.
  - destruct (IH (progress_after p e)) as (L & E & A). unfold reached in *.
    rewrite L, E, A. cbn [progress_after has_link has_engine has_analysis].
    rewrite !orb_assoc. auto.
Qed.

Lemma reached_app (t u : trace) (p : progress) :
  reached p (t ++ u) = reached (reached p t) u.
Proof. unfold reached. apply fold_left_app. Qed.

Lemma in_order_app (t u : trace) (p : progress) :
  in_order p (t ++ u) = in_order p t && in_order (reached p t) u.
Proof.
  revert p. induction t as [|e t IH]; intros p; [reflexivity|].
  cbn [app in_order]. rewrite IH, andb_assoc. reflexivity.
Qed.

Lemma at_least_refl (p : progress) : at_least p p.
Proof. unfold at_least. auto. Qed.

Lemma at_least_trans (p q r : progress) :
  at_least p q -> at_least q r -> at_least p r.
Proof. unfold at_least. intros (A & B & C) (D & E & F). auto. Qed.

Lemma at_least_after (p q : progress) (e : event) :
  at_least p q -> at_least (progress_after p e) (progress_after q e).
Proof.
  unfold at_least. cbn [progress_after has_link has_engine has_analysis].
  intros (A & B & C). repeat split; intros H; apply orb_true_iff in H;
    apply orb_true_iff; destruct H; auto.
Qed.

Lemma at_least_reached (t : trace) (p q : progress) :
  at_least p q -> at_least (reached p t) (reached q t).
Proof.
  revert p q. induction t as [|e t IH]; intros p q H; [exact H|].
  apply (IH (progress_after p e) (progress_after q e)). apply at_least_after. exact H.
Qed.

Lemma at_least_grows (t : trace) (p : progress) : at_least p (reached p t).
Proof.
  destruct (reached_spec t p) as (L & E & A). unfold at_least.
  rewrite L, E, A. repeat split; intros ->; reflexivity.
Qed.

Lemma allowed_mono (p q : progress) (e : event) :
  at_least p q -> allowed p e = true -> allowed q e = true.
Proof.
  unfold at_least, allowed. intros (A & B & C).
  destruct (has_link p), (has_engine p), (has_analysis p);
    try rewrite (A eq_refl); try rewrite (B eq_refl); try rewrite (C eq_refl);
    cbn [orb]; intros H; rewrite ?orb_true_l; cbn [andb];
    destruct (is_engine_call e), (is_engine_use e), (is_cycle_work e);
    cbn in H |- *; try discriminate; rewrite ?orb_true_r; reflexivity.
Qed.

Lemma in_order_mono (t : trace) (p q : progress) :
  at_least p q -> in_order p t = true -> in_order q t = true.
Proof.
  revert p q. induction t as [|e t IH]; intros p q H; [reflexivity|].
  cbn [in_order]. intros X. apply andb_true_iff in X. destruct X as [X Y].
  rewrite (allowed_mono e H X).
  exact (IH _ _ (at_least_after e H) Y).
Qed.

Lemma in_order_all (t : trace) (p : progress) :
  forallb (allowed p) t = true -> in_order p t = true.
Proof.
  revert p. induction t as [|e t IH]; intros p; [reflexivity|].
  cbn [forallb in_order]. intros H. apply andb_true_iff in H. destruct H as [-> H].
  apply (in_order_mono t (p := p)); [|exact (IH p H)].
  apply (at_least_grows [e]).
Qed.

(** From the check of a whole trace to each of its events. *)
Lemma in_order_at (pre post : trace) (e : event) (p : progress) :
  in_order p (pre ++ e :: post) = true -> allowed (reached p pre) e = true.
Proof.
  rewrite in_order_app. cbn [in_order]. intros H.
  apply andb_true_iff in H. destruct H as [_ H].
  apply andb_true_iff in H. exact (proj1 H).
Qed.

Lemma engine_ready_is_engine_call (e : event) :
  engine_ready e = true -> is_engine_call e = true.
Proof. destruct e as [A c rep|line]; [destruct c|]; cbn; auto; discriminate. Qed.

(** Once the engine is set up in a trace that is in order, the link is up. *)
Lemma in_order_engine_after_link (t : trace) :
  in_order nothing_yet t = true ->
  existsb engine_ready t = true -> existsb connected t = true.
Proof.
  intros O H. apply existsb_exists in H. destruct H as (e & I & E).
  apply in_split in I. destruct I as (pre & post & ->).
  apply in_order_at in O. unfold allowed in O.
  rewrite (engine_ready_is_engine_call e E) in O.
  destruct (reached_spec pre nothing_yet) as (L & _). rewrite L in O.
  cbn [nothing_yet has_link orb negb] in O. rewrite existsb_app.
  rewrite orb_false_r in O. apply andb_true_iff in O. destruct O as [O _].
  apply andb_true_iff in O. destruct O as [-> _]. reflexivity.
Qed.

Section Staged.

Variable W : Type.
Variable env : forall A : Type, call A -> W -> W * reply A.

Lemma staged_bind (p q r : progress) (A B : Type) (m : M W A) (f : A -> M W B) :
  staged p q m -> (forall a, staged q r (f a)) -> staged p r (bind m f).
Proof.
  intros Hm Hf s s' t res H. apply bind_inv in H.
  destruct H as [(s1 & t1 & a & t2 & H1 & H2 & ->)|[(e & H1 & ->)|(H1 & ->)]].
  - apply Hm in H1. apply Hf in H2. destruct H1 as (O1 & G1), H2 as (O2 & G2).
    specialize (G1 eq_refl). rewrite in_order_app, O1, reached_app. cbn [andb].
    split; [exact (in_order_mono t2 G1 O2)|].
    intros K. apply (at_least_trans (G2 K)). apply at_least_reached. exact G1.
  - apply Hm in H1. destruct H1 as (O1 & _). split; [exact O1|discriminate].
  - apply Hm in H1. destruct H1 as (O1 & _). split; [exact O1|discriminate].
Qed.

Lemma staged_of_helper (p : progress) (A : Type) (m : M W A) :
  helper (allowed p) m -> staged p p m.
Proof.
  intros Hm s s' t r H. apply Hm in H. destruct H as (_ & F & _).
  split; [exact (in_order_all t p F)|]. intros _. apply at_least_grows.
Qed.

Lemma staged_silent (p : progress) (A : Type) (m : M W A) :
  (forall s, trace_of (m s) = []) -> staged p p m.
Proof.
  intros Hm s s' t r H. pose proof (Hm s) as T. rewrite H in T.
  unfold trace_of in T. cbn [fst snd] in T. subst t.
  split; [reflexivity|]. intros _. apply at_least_refl.
Qed.

Lemma connect_loop_allowed (fuel : nat) :
  helper (allowed nothing_yet) (connect_loop env fuel).
Proof.
  induction fuel as [|fuel IH]; cbn [connect_loop]; [apply helper_pending|].
  apply helper_bind; [helper_rules|]. intros [|]; [apply helper_ret|].
  apply helper_bind; [helper_rules|]. intros _. exact IH.
Qed.

Lemma setup_client_staged (fuel : nat) :
  staged nothing_yet link_up (setup_client env fuel).
Proof.
  intros s s' t r H.
  pose proof (@setup_client_connected W env _ _ _ _ _ H) as C.
  assert (Hh : helper (allowed nothing_yet) (setup_client env fuel)).
  { unfold setup_client. apply helper_except; [|intros msg; helper_rules].
    apply helper_bind; [helper_rules|]. intros _. apply connect_loop_allowed. }
  apply Hh in H. destruct H as (_ & F & _).
  split; [exact (in_order_all t _ F)|]. intros K.
  destruct (reached_spec t nothing_yet) as (L & _).
  unfold at_least. rewrite L, C, K. cbn. repeat split; auto; discriminate.
Qed.

Lemma setup_epanet_staged (network_file : string) :
  staged link_up engine_up (setup_epanet env network_file).
Proof.
  intros s s' t r H.
  pose proof (@setup_epanet_ready W env _ _ _ _ _ H) as C.
  assert (Hh : helper (allowed link_up) (setup_epanet env network_file)).
  { unfold setup_epanet. helper_rules. }
  apply Hh in H. destruct H as (_ & F & _).
  split; [exact (in_order_all t _ F)|]. intros K.
  destruct (reached_spec t link_up) as (L & E & _).
  unfold at_least. rewrite L, E, C, K. cbn. repeat split; auto; discriminate.
Qed.

Lemma print_overview_staged : staged engine_up engine_up (print_overview env).
Proof. apply staged_of_helper. unfold print_overview. helper_rules. Qed.

Lemma initialize_staged :
  staged engine_up analysis_up (perform env initializeHydraulicAnalysis).
Proof.
  intros s s' t r H.
  assert (Hh : helper (allowed engine_up) (perform env initializeHydraulicAnalysis))
    by helper_rules.
  pose proof (Hh _ _ _ _ H) as (_ & F & _).
  split; [exact (in_order_all t _ F)|]. intros K.
  destruct r as [[]| |]; try discriminate.
  apply perform_ok_inv in H. subst t. unfold at_least. cbn. auto.
Qed.

Lemma anything_staged (A : Type) (m : M W A) : staged analysis_up analysis_up m.
Proof.
  intros s s' t r _. split; [|intros _; apply at_least_grows].
  apply in_order_all. clear. induction t as [|e t IH]; [reflexivity|].
  cbn [forallb]. rewrite IH. reflexivity.
Qed.

Lemma main_try_staged (fuel : nat) (network_file : string) :
  staged nothing_yet analysis_up (main_try env fuel network_file).
Proof.
  unfold main_try.
  apply staged_bind with (q := link_up); [apply setup_client_staged|]. intros _.
  apply staged_bind with (q := link_up); [apply staged_silent; reflexivity|].
  intros _.
  apply staged_bind with (q := engine_up); [apply setup_epanet_staged|]. intros _.
  apply staged_bind with (q := engine_up); [apply staged_silent; reflexivity|].
  intros _.
  apply staged_bind with (q := engine_up); [apply print_overview_staged|]. intros _.
  apply staged_bind with (q := engine_up); [apply staged_of_helper; helper_rules|].
  intros _.
  apply staged_bind with (q := analysis_up); [apply initialize_staged|]. intros _.
  apply anything_staged.
Qed.

Lemma prints_in_order (p : progress) (t : trace) :
  (forall e, In e t -> exists line, e = Printed line) -> in_order p t = true.
Proof.
  intros H. apply in_order_all. apply forallb_forall. intros e I.
  destruct (H e I) as [line ->]. unfold allowed. cbn. rewrite !orb_true_r. reflexivity.
Qed.

Lemma main_no_arguments_run (fuel : nat) (s : locals * W) :
  trace_of (main env fuel [] s) = [Printed "Run EPANET simulation with Modbus controls."].
Proof. reflexivity. Qed.

Lemma main_in_order (fuel : nat) (argv : list string) (s : locals * W) :
  in_order nothing_yet (trace_of (main env fuel argv s)) = true.
Proof.
  destruct (acceptable argv) eqn:Hacc.
  - destruct (main_accepted_run env fuel argv s Hacc) as (s2 & tb & rb & Hb & H).
    pose proof (@main_try_run W env _ _ _ _ _ _ Hb eq_refl)
      as (_ & _ & _ & _ & Lc & Le & _).
    apply main_try_staged in Hb. destruct Hb as (O & _).
    destruct H as [(_ & -> & _)|(_ & r1 & r2 & r3 & -> & _)]; [exact O|].
    rewrite !in_order_app, O. cbn [andb].
    assert (Oh : in_order (reached nothing_yet tb) (handler_trace rb) = true).
    { apply prints_in_order. destruct rb as [?|[?| |?]|]; cbn; intros e [];
        try contradiction; subst e; eexists; reflexivity. }
    rewrite Oh. cbn [andb]. rewrite <- reached_app.
    apply in_order_all. apply forallb_forall. intros e I.
    destruct (reached_spec (tb ++ handler_trace rb) nothing_yet) as (L & E & _).
    pose proof (handler_trace_facts rb) as (_ & _ & Ch & Eh & _).
    rewrite existsb_app, Ch, orb_false_r in L.
    rewrite existsb_app, Eh, orb_false_r in E.
    cbn [nothing_yet has_link has_engine orb] in L, E.
    pose proof (in_order_engine_after_link tb O) as LE.
    rewrite <- Lc in L, LE. rewrite <- Le in E, LE.
    unfold allowed. rewrite L, E.
    generalize (has_analysis (reached nothing_yet (tb ++ handler_trace rb))).
    revert I LE. clear. intros I LE b.
    destruct b; destruct (fst s2) as [[|] [|]]; cbn [client en] in *;
      destruct r1 as [[]|?|]; destruct r2 as [[]|?|]; destruct r3 as [[]|?|];
      cbn in I |- *; repeat (destruct I as [<-|I]; [reflexivity|]);
      try contradiction; try (specialize (LE eq_refl); discriminate).
  - destruct argv as [|program rest].
    + rewrite main_no_arguments_run. reflexivity.
    + rewrite main_refused_run by exact Hacc. reflexivity.
Qed.

(** X8: start-up is never run ahead of.  Wherever an event stands in the
    trace of the process: a call on the EPANET engine comes after a connection
    attempt that succeeded; a call on the engine other than the three that set
    it up comes after the engine was set up; and the work of a cycle (a block
    read from or written to the PLC, a control applied, the hydraulic step, a
    measurement read) comes after the analysis was initialized. *)
Theorem main_never_runs_ahead_of_startup (fuel : nat) (argv : list string)
        (s : locals * W) (pre post : trace) (e : event) :
  trace_of (main env fuel argv s) = pre ++ e :: post ->
  (is_engine_call e = true -> existsb connected pre = true)
  /\ (is_engine_use e = true -> existsb engine_ready pre = true)
  /\ (is_cycle_work e = true -> existsb analysis_started pre = true).
Proof.
  intros T. pose proof (main_in_order fuel argv s) as O. rewrite T in O.
  apply in_order_at in O. unfold allowed in O.
  destruct (reached_spec pre nothing_yet) as (L & E & A).
  rewrite L, E, A in O. cbn [nothing_yet has_link has_engine has_analysis orb] in O.
  apply andb_true_iff in O. destruct O as [O O3].
  apply andb_true_iff in O. destruct O as [O1 O2].
  repeat split; intros K; rewrite K in *; cbn [negb] in *;
    rewrite orb_false_r in *; assumption.
Qed.

End Staged.

(** Scenario C: the first hydraulic step is the 32nd event; by then the link
    is up, the engine set up and the analysis initialized. *)
Lemma main_never_runs_ahead_of_startup_witness :
  exists pre post,
    trace_of (main (rig_env scenario_C) 2 command_line boot)
    = pre ++ Call runHydraulicAnalysis (Returns tt) :: post
    /\ existsb connected pre = true
    /\ existsb engine_ready pre = true
    /\ existsb analysis_started pre = true.
Proof.
  exists (firstn 31 (trace_of (main (rig_env scenario_C) 2 command_line boot))),
    (skipn 32 (trace_of (main (rig_env scenario_C) 2 command_line boot))).
  assert (T : trace_of (main (rig_env scenario_C) 2 command_line boot)
              = firstn 31 (trace_of (main (rig_env scenario_C) 2 command_line boot))
                ++ Call runHydraulicAnalysis (Returns tt)
                   :: skipn 32 (trace_of (main (rig_env scenario_C) 2 command_line boot)))
    by (vm_compute; reflexivity).
  split; [exact T|].
  destruct (@main_never_runs_ahead_of_startup _ (rig_env scenario_C) 2 command_line
              boot _ _ _ T) as (A & B & C).
  split; [exact (A eq_refl)|]. split; [exact (B eq_refl)|exact (C eq_refl)].
Defined.

(** ** The statuses a run can end with *)

Lemma drain_outcomes (l : locals) (r1 r2 r3 : reply unit) :
  (drain_result l r1 r2 r3 = Ok tt /\ forallb returned (drain_trace l r1 r2 r3) = true)
  \/ (exists body (c : call unit) msg,
         drain_trace l r1 r2 r3 = body ++ [Call c (Fails msg)]
         /\ drain_result l r1 r2 r3 = Raise (PyException msg))
  \/ (exists body (c : call unit),
         drain_trace l r1 r2 r3 = body ++ [Call c Interrupted]
         /\ is_drain (Call c Interrupted) = true
         /\ drain_result l r1 r2 r3 = Raise KeyboardInterrupt).
Proof.
  destruct (forallb returned (drain_trace l r1 r2 r3)) eqn:F.
  - left. split; [|reflexivity]. apply (drain_trace_clean l r1 r2 r3 F).
  - right. destruct (drain_trace_failed l r1 r2 r3 F)
      as (body & c & rep & T & _ & D & R & E).
    destruct rep as [[]|msg|]; [discriminate| |].
    + left. exists body, c, msg. auto.
    + right. exists body, c. auto.
Qed.

Section Statuses.

Variable W : Type.
Variable env : forall A : Type, call A -> W -> W * reply A.

(** X9: the process never ends by falling off the end of [main]; when it
    ends, its status is 0, 1 or that of an uncaught interrupt (130).  Status 0
    is only reached when the stopped-by-user line was printed and every
    draining call returned; the uncaught interrupt only when the last event
    is a draining call that was interrupted. *)
Theorem main_ends_with_status_0_1_or_interrupt (fuel : nat) (argv : list string)
        (s : locals * W) :
  result_of (main env fuel argv s) <> Ok tt
  /\ (forall code, exit_status (result_of (main env fuel argv s)) = Some code ->
      code = 0 \/ code = 1 \/ code = 130)
  /\ (exit_status (result_of (main env fuel argv s)) = Some 0 ->
      existsb says_stopped (trace_of (main env fuel argv s)) = true
      /\ drains_cleanly (trace_of (main env fuel argv s)) = true)
  /\ (exit_status (result_of (main env fuel argv s)) = Some 130 ->
      exists body (c : call unit),
        trace_of (main env fuel argv s) = body ++ [Call c Interrupted]
        /\ is_drain (Call c Interrupted) = true).
Proof.
  pose proof (@main_run W env fuel argv s _ _ _ (run_eta _ s)) as H.
  set (t := trace_of (main env fuel argv s)) in *.
  set (r := result_of (main env fuel argv s)) in *. clearbody t r.
  destruct H as [(_ & _ & R)|(l & tb & rb & Fb & H)].
  - destruct R as [->|[msg ->]]; cbn;
      (split; [discriminate|]);
      (split; [intros code E; inversion E; auto|]);
      split; discriminate.
  - destruct H as [(_ & _ & ->)|(NPb & r1 & r2 & r3 & -> & ->)].
    { cbn. split; [discriminate|]. repeat split; discriminate. }
    destruct Fb as (Qb & _ & Xb & Nb & _).
    apply quiet_facts in Qb. destruct Qb as (Db & _).
    destruct (handler_trace_facts rb) as (_ & Dh & _ & _ & _ & _ & Sh).
    destruct (drain_trace_is_drain l r1 r2 r3) as (Dd & _).
    destruct (drain_outcomes l r1 r2 r3)
      as [(Rd & Fd)|[(body & c & msg & Td & Rd)|(body & c & Td & Dc & Rd)]];
      rewrite Rd; cbn [after_finally].
    + (* every draining call returned *)
      rewrite !drains_cleanly_app, (quiet_drains_cleanly _ Db),
        (quiet_drains_cleanly _ Dh), (@drained_returned _ Dd), Fd.
      rewrite !existsb_app, Sh.
      destruct rb as [[]|[msg| |code]|]; cbn in *; try discriminate; try congruence.
      * split; [discriminate|]. split; [intros code E; inversion E; auto|].
        split; discriminate.
      * split; [discriminate|]. split; [intros code E; inversion E; auto|].
        split; [|discriminate]. intros _. rewrite orb_true_r. auto.
      * subst code. split; [discriminate|].
        split; [intros code E; inversion E; auto|]. split; discriminate.
    + (* a draining call raised an exception *)
      cbn. split; [discriminate|]. split; [intros code E; inversion E; auto|].
      split; discriminate.
    + (* a draining call was interrupted *)
      cbn. split; [discriminate|]. split; [intros code E; inversion E; auto|].
      split; [discriminate|]. intros _.
      exists (tb ++ handler_trace rb ++ body), c. rewrite Td, <- !app_assoc. auto.
Qed.

End Statuses.

(** ** What the process leaves alone *)

Section Emits.

Variable W : Type.
Variable env : forall A : Type, call A -> W -> W * reply A.
Variable P : event -> bool.

Lemma emits_bind (A B : Type) (m : M W A) (f : A -> M W B) :
  emits P m -> (forall a, emits P (f a)) -> emits P (bind m f).
Proof.
  intros Hm Hf s s' t r H. apply bind_inv in H.
  destruct H as [(s1 & t1 & a & t2 & H1 & H2 & ->)|[(e & H1 & ->)|(H1 & ->)]].
  - rewrite forallb_app, (Hm _ _ _ _ H1), (Hf _ _ _ _ _ H2). reflexivity.
  - exact (Hm _ _ _ _ H1).
  - exact (Hm _ _ _ _ H1).
Qed.

Lemma emits_of_helper (A : Type) (m : M W A) : helper P m -> emits P m.
Proof. intros Hm s s' t r H. apply Hm in H. exact (proj1 (proj2 H)). Qed.

Lemma emits_silent (A : Type) (m : M W A) :
  (forall s, trace_of (m s) = []) -> emits P m.
Proof.
  intros Hm s s' t r H. pose proof (Hm s) as T. rewrite H in T.
  unfold trace_of in T. cbn [fst snd] in T. subst t. reflexivity.
Qed.

(** A loop whose body is only known to behave on the items it is given. *)
Lemma helper_for_each_in (X : Type) (body : X -> M W unit) (xs : list X) :
  (forall x, In x xs -> helper P (body x)) -> helper P (for_each body xs).
Proof.
  induction xs as [|x xs IH]; intros Hb; cbn [for_each].
  - apply helper_ret.
  - apply helper_bind; [apply Hb; left; reflexivity|].
    intros _. apply IH. intros y Hy. apply Hb. right. exact Hy.
Qed.

Hypothesis P_prints : forall line, P (Printed line) = true.
Hypothesis P_close : forall rep, P (Call close rep) = true.
Hypothesis P_teardown : forall rep, P (Call closeHydraulicAnalysis rep) = true.
Hypothesis P_unload : forall rep, P (Call unload rep) = true.

Lemma main_emits (fuel : nat) (argv : list string) (s : locals * W) :
  helper P (setup_client env fuel) ->
  helper P (setup_epanet env (nth 1 argv "")) ->
  helper P (print_overview env) ->
  helper P (perform env openHydraulicAnalysis) ->
  helper P (perform env initializeHydraulicAnalysis) ->
  helper P (cycle env) ->
  forallb P (trace_of (main env fuel argv s)) = true.
Proof.
  intros H1 H2 H3 H4 H5 H6.
  destruct (acceptable argv) eqn:Hacc.
  - destruct (main_accepted_run env fuel argv s Hacc) as (s2 & tb & rb & Hb & H).
    assert (Hm : emits P (main_try env fuel (nth 1 argv ""))).
    { unfold main_try.
      apply emits_bind; [apply emits_of_helper; exact H1|]. intros _.
      apply emits_bind; [apply emits_silent; reflexivity|]. intros _.
      apply emits_bind; [apply emits_of_helper; exact H2|]. intros _.
      apply emits_bind; [apply emits_silent; reflexivity|]. intros _.
      apply emits_bind; [apply emits_of_helper; exact H3|]. intros _.
      apply emits_bind; [apply emits_of_helper; exact H4|]. intros _.
      apply emits_bind; [apply emits_of_helper; exact H5|]. intros _.
      apply emits_of_helper. clear - H6.
      induction fuel as [|fuel IH]; cbn [run_forever]; [apply helper_pending|].
      apply helper_bind; [exact H6|]. intros _. exact IH. }
    apply Hm in Hb.
    destruct H as [(_ & -> & _)|(_ & r1 & r2 & r3 & -> & _)]; [exact Hb|].
    rewrite !forallb_app, Hb. cbn [andb].
    assert (Hh : forallb P (handler_trace rb) = true).
    { destruct rb as [?|[?| |?]|]; cbn; rewrite ?P_prints; reflexivity. }
    rewrite Hh. cbn [andb]. unfold drain_trace.
    destruct (client (fst s2)), (en (fst s2)); cbn;
      rewrite ?P_close; cbn;
      destruct (negb (client (fst s2)) || returned (Call close r1)); cbn;
      rewrite ?P_teardown; cbn;
      destruct r1 as [[]|?|]; destruct r2 as [[]|?|]; cbn;
      rewrite ?P_teardown, ?P_unload; reflexivity.
  - destruct argv as [|program rest].
    + rewrite main_no_arguments_run. cbn. rewrite P_prints. reflexivity.
    + rewrite main_refused_run by exact Hacc. cbn. rewrite !P_prints. reflexivity.
Qed.

End Emits.

Section LeftAlone.

Variable W : Type.
Variable env : forall A : Type, call A -> W -> W * reply A.

Lemma enumerate_index (A : Type) (values : list A) (i : Z) (x : A) :
  In (i, x) (enumerate values) -> 0 <= i.
Proof.
  unfold enumerate. intros H. apply in_combine_l in H.
  apply in_map_iff in H. destruct H as (n & <- & _). lia.
Qed.

Lemma write_block_disciplined (base : Z) (values : list float) :
  100 <= base -> Z.even base = true ->
  helper link_discipline (write_block env base values).
Proof.
  intros Hb He. unfold write_block. apply helper_for_each_in.
  intros [i value] Hi. apply enumerate_index in Hi.
  apply helper_bind; [helper_rules|]. intros registers.
  apply helper_perform. intros rep. cbn.
  rewrite Z.mul_comm, Z.even_add_mul_2, He, andb_true_r.
  apply Z.leb_le. lia.
Qed.

(** X10: the process keeps to its side of the PLC's tables.  Every block it
    reads (coils or holding registers) starts at address 0 and is 100 long,
    and every write of registers starts at an even address that is 100 or
    higher: no write starts in the registers the pump settings are read from. *)
Theorem main_keeps_to_its_registers (fuel : nat) (argv : list string)
        (s : locals * W) :
  forallb link_discipline (trace_of (main env fuel argv s)) = true.
Proof.
  apply main_emits; try reflexivity.
  - unfold setup_client. apply helper_except; [|intros msg; helper_rules].
    apply helper_bind; [helper_rules|]. intros _.
    induction fuel as [|fuel IH]; cbn [connect_loop]; [apply helper_pending|].
    apply helper_bind; [helper_rules|]. intros [|]; [apply helper_ret|].
    apply helper_bind; [helper_rules|]. intros _. exact IH.
  - unfold setup_epanet. helper_rules.
  - unfold print_overview. helper_rules.
  - helper_rules.
  - helper_rules.
  - unfold cycle.
    apply helper_bind; [helper_rules|]. intros duration.
    apply helper_bind; [helper_rules|]. intros step.
    apply helper_bind; [helper_rules|]. intros _.
    apply helper_bind; [unfold get_controls; helper_rules|]. intros c.
    apply helper_bind; [unfold set_controls; helper_rules|]. intros _.
    apply helper_bind; [helper_rules|]. intros _.
    apply helper_bind; [unfold read_data; helper_rules|]. intros d.
    apply helper_bind; [|intros _; helper_rules].
    unfold write_data. apply helper_except; [|intros msg; helper_rules].
    apply helper_bind; [apply write_block_disciplined; [lia|reflexivity]|]. intros _.
    apply helper_bind; [apply write_block_disciplined; [lia|reflexivity]|]. intros _.
    apply write_block_disciplined; [lia|reflexivity].
Qed.

(** X11: the process addresses nothing but what it was given.  The only
    Modbus client it builds is for host openplc, port 502; the only network
    file it loads is the one named by the second command-line word; and it
    never waits other than for one second. *)
Theorem main_addresses_only_its_endpoints (fuel : nat) (argv : list string)
        (s : locals * W) :
  forallb (fixed_endpoints (nth 1 argv "")) (trace_of (main env fuel argv s)) = true.
Proof.
  apply main_emits; try reflexivity.
  - unfold setup_client. apply helper_except; [|intros msg; helper_rules].
    apply helper_bind; [helper_rules|]. intros _.
    induction fuel as [|fuel IH]; cbn [connect_loop]; [apply helper_pending|].
    apply helper_bind; [helper_rules|]. intros [|]; [apply helper_ret|].
    apply helper_bind; [helper_rules|]. intros _. exact IH.
  - unfold setup_epanet. apply helper_except; [|intros msg; helper_rules].
    apply helper_bind; [|intros _; helper_rules].
    apply helper_perform. intros rep. cbn. apply String.eqb_refl.
  - unfold print_overview. helper_rules.
  - helper_rules.
  - helper_rules.
  - unfold cycle, get_controls, set_controls, read_data, write_data, write_block.
    helper_rules.
Qed.

End LeftAlone.
